(** * CipherShed EFI boot loader: service menu (src/Boot/EFI/cs_service.c)

    A shallow embedding of the media encryption/decryption service of the
    CipherShed EFI loader, and the properties of it that the specification
    states.

    - machine integers are [Z] with the wrap-around written out: [UINT64]
      reduces modulo 2^64, [UINTN] modulo 2^UINTN_BITS;
    - firmware services and the helpers of other compilation units are
      oracles of a [Firmware] record: every call gets the log of all earlier
      calls and returns the answer of the outside world;
    - the log ([trace], newest event first) is the only ghost state; the
      in-memory volume header returned by get_crypto_info() is the field
      [crypto_info] of the [World];
    - the local variable [error] of do_encrypt_decrypt_media is declared
      without initialiser, it is modelled as an [option]. *)

From Stdlib Require Import ZArith List Bool Lia.
Import ListNotations.
Local Open Scope Z_scope.

(** ** Build parameters *)

(** [UINTN_BITS]: width of UINTN/EFI_STATUS (32 on IA32, 64 on x86_64).
    [TC_LB_SIZE_BIT_SHIFT_DIVISOR]: the sector-size shift, defined in a header
    that is not part of this file.
    [CS_SERVICE_NUMBER_SECTORS]: sectors converted at once (line 18 has 80). *)
Record Build : Type := {
  UINTN_BITS : Z;
  TC_LB_SIZE_BIT_SHIFT_DIVISOR : Z;
  CS_SERVICE_NUMBER_SECTORS : Z
}.

Definition build_ok (cfg : Build) : Prop :=
  (UINTN_BITS cfg = 32 \/ UINTN_BITS cfg = 64) /\
  0 <= TC_LB_SIZE_BIT_SHIFT_DIVISOR cfg < UINTN_BITS cfg /\
  0 < CS_SERVICE_NUMBER_SECTORS cfg < 2 ^ UINTN_BITS cfg.

(** The loader as it is built for x86_64 with 512-byte sectors. *)
Definition x86_64_build : Build :=
  {| UINTN_BITS := 64; TC_LB_SIZE_BIT_SHIFT_DIVISOR := 9;
     CS_SERVICE_NUMBER_SECTORS := 80 |}.

(** ** Data *)

Definition EFI_STATUS := Z.
Definition EFI_HANDLE := Z.
Definition NULL : Z := 0.

(** A pointer to an opened EFI_BLOCK_IO interface. *)
Definition EFI_BLOCK_IO := Z.

(** The three fields of CRYPTO_INFO this file touches (each a UINT64 .Value). *)
Record CRYPTO_INFO : Type := {
  EncryptedAreaStart : Z;
  EncryptedAreaLength : Z;
  VolumeSize : Z
}.

Definition set_EncryptedAreaLength (v : Z) (c : CRYPTO_INFO) : CRYPTO_INFO :=
  {| EncryptedAreaStart := EncryptedAreaStart c;
     EncryptedAreaLength := v;
     VolumeSize := VolumeSize c |}.

Inductive cs_enum_user_decision : Type :=
| CS_UI_SERVICE_MENU
| CS_UI_ESC_PRESSED
| CS_UI_REBOOT.

Record Password : Type := { Text : list Z; Length : Z }.

Record cs_option_flags : Type := {
  silent : bool;
  enable_password_asterisk : bool
}.

Record EFI_OPEN_PROTOCOL_INFORMATION_ENTRY : Type := {
  AgentHandle : EFI_HANDLE;
  ControllerHandle : EFI_HANDLE;
  Attributes : Z;
  OpenCount : Z
}.

Definition EFI_OPEN_PROTOCOL_BY_CHILD_CONTROLLER : Z := 8.

(** Strings written to the console. *)
Inductive ConsoleString : Type :=
| STR_CRLF_LF_SPACE      (* L"\r\n\n " *)
| STR_CRLF_LF.           (* L"\r\n\n"  *)

(** ** The log of calls that leave this file *)

Inductive Event : Type :=
| EvOutputString (s : ConsoleString) (st : EFI_STATUS)
| EvAskForPwd (showWrongPwd : bool) (st : EFI_STATUS)
| EvGetInput (echo : bool) (st : EFI_STATUS) (ScanCode : Z)
| EvDecryptVolumeHeader (st : EFI_STATUS)
| EvCheckReallyDo (answer : bool)
| EvStartConnectFakeCryptoDriver (ImageHandle : EFI_HANDLE) (st : EFI_STATUS)
| EvGetBootPartitionHandle (h : EFI_HANDLE)
| EvOpenProtocolInformation (h : EFI_HANDLE) (st : EFI_STATUS)
| EvIsCsChildDevice (parent child : EFI_HANDLE) (answer : bool)
| EvOpenProtocol (h : EFI_HANDLE) (st : EFI_STATUS) (blockIo : EFI_BLOCK_IO)
| EvCloseProtocol (h : EFI_HANDLE) (st : EFI_STATUS)
| EvAllocatePool (size : Z) (buffer : option Z)
| EvFreePool (buffer : Z)
| EvResetInput
| EvReadBlocks (this : EFI_BLOCK_IO) (MediaId lba bytes : Z) (st : EFI_STATUS)
| EvWriteBlocks (this : EFI_BLOCK_IO) (MediaId lba bytes : Z) (st : EFI_STATUS)
| EvDumpPerCent (x : Z)
| EvCheckForESC (pressed : bool)
| EvUpdateVolumeHeader (info : CRYPTO_INFO) (st : EFI_STATUS)
(* entry of update_blocks_in_volume_header, with the header it is given *)
| EvUpdateBlocksInVolumeHeader (processedLba : Z) (info : CRYPTO_INFO)
    (encrypt : bool).

(** ** The outside world *)

(** Every oracle receives the log so far. [fw_OpenProtocolInformation] gives
    the status and, when a buffer was handed out, its address and entries
    ([None]: OpenInfo stays NULL and OpenInfoCount is 0). [fw_AllocatePool]
    gives [None] for a NULL result. [fw_decrypt_volume_header] gives the
    status and the header contents that get_crypto_info() shows afterwards. *)
Record Firmware : Type := {
  fw_OutputString : list Event -> ConsoleString -> EFI_STATUS;
  fw_ask_for_pwd : list Event -> bool -> EFI_STATUS;
  fw_get_input : list Event -> bool -> EFI_STATUS * Z * list Z;
  fw_decrypt_volume_header : list Event -> EFI_STATUS * CRYPTO_INFO;
  fw_check_really_do : list Event -> bool;
  fw_start_connect_fake_crypto_driver : list Event -> EFI_HANDLE -> EFI_STATUS;
  fw_get_boot_partition_handle : list Event -> EFI_HANDLE;
  fw_OpenProtocolInformation :
    list Event -> EFI_HANDLE ->
    EFI_STATUS * option (Z * list EFI_OPEN_PROTOCOL_INFORMATION_ENTRY);
  fw_is_cs_child_device : list Event -> EFI_HANDLE -> EFI_HANDLE -> bool;
  fw_OpenProtocol : list Event -> EFI_HANDLE -> EFI_STATUS * EFI_BLOCK_IO;
  fw_CloseProtocol : list Event -> EFI_HANDLE -> EFI_STATUS;
  fw_AllocatePool : list Event -> Z -> option Z;
  fw_MediaId : EFI_BLOCK_IO -> Z;
  fw_ReadBlocks : list Event -> EFI_BLOCK_IO -> Z -> Z -> Z -> EFI_STATUS;
  fw_WriteBlocks : list Event -> EFI_BLOCK_IO -> Z -> Z -> Z -> EFI_STATUS;
  fw_check_for_ESC : list Event -> bool;
  fw_update_volume_header : list Event -> CRYPTO_INFO -> EFI_STATUS
}.

Record World : Type := {
  crypto_info : CRYPTO_INFO;
  trace : list Event
}.

Definition log (e : Event) (w : World) : World :=
  {| crypto_info := crypto_info w; trace := e :: trace w |}.

Definition set_crypto_info (c : CRYPTO_INFO) (w : World) : World :=
  {| crypto_info := c; trace := trace w |}.

(** ** Results of running a function *)

(** [Returned a w]: the call returns [a] in world [w].
    [UninitRead w]: the call reads a local variable that was never assigned.
    [OutOfFuel w]: the loop bound given to the model was used up. *)
Inductive Outcome (A : Type) : Type :=
| Returned (a : A) (w : World)
| UninitRead (w : World)
| OutOfFuel (w : World).
Arguments Returned {A} a w.
Arguments UninitRead {A} w.
Arguments OutOfFuel {A} w.

Definition world_of {A} (o : Outcome A) : World :=
  match o with
  | Returned _ w => w
  | UninitRead w => w
  | OutOfFuel w => w
  end.

Definition M (A : Type) : Type := World -> Outcome A.

Definition ret {A} (a : A) : M A := fun w => Returned a w.

Definition bind {A B} (m : M A) (k : A -> M B) : M B :=
  fun w =>
    match m w with
    | Returned a w' => k a w'
    | UninitRead w' => UninitRead w'
    | OutOfFuel w' => OutOfFuel w'
    end.

Notation "x <- m ;; k" := (bind m (fun x => k))
  (at level 61, m at next level, right associativity).
Notation "m ;;; k" := (bind m (fun _ => k))
  (at level 61, right associativity).

(** An outside call: ask the oracle, log the call with its answer. *)
Definition call {A} (answer : list Event -> A) (ev : A -> Event) : M A :=
  fun w => let a := answer (trace w) in Returned a (log (ev a) w).

Definition get_crypto_info : M CRYPTO_INFO :=
  fun w => Returned (crypto_info w) w.

Definition put_crypto_info (c : CRYPTO_INFO) : M unit :=
  fun w => Returned tt (set_crypto_info c w).

(** Reading a local that may not have been assigned. *)
Definition read_local {A} (v : option A) : M A :=
  fun w => match v with Some a => Returned a w | None => UninitRead w end.

(** ** The code *)

Section Service.

Variable cfg : Build.
Variable env : Firmware.

Definition UINT64 (x : Z) : Z := x mod 2 ^ 64.
Definition UINTN (x : Z) : Z := x mod 2 ^ UINTN_BITS cfg.

(** x >> TC_LB_SIZE_BIT_SHIFT_DIVISOR and x << TC_LB_SIZE_BIT_SHIFT_DIVISOR,
    before the result is cut to the width of its type. *)
Definition to_sectors (x : Z) : Z := Z.shiftr x (TC_LB_SIZE_BIT_SHIFT_DIVISOR cfg).
Definition to_bytes (x : Z) : Z := Z.shiftl x (TC_LB_SIZE_BIT_SHIFT_DIVISOR cfg).

(** efierr.h: EFIERR(a) sets the top bit of an EFI_STATUS, EFI_ERROR tests
    it. *)
Definition EFIERR (a : Z) : EFI_STATUS :=
  Z.lor (Z.shiftl 1 (UINTN_BITS cfg - 1)) a.
Definition EFI_ERROR (st : EFI_STATUS) : bool :=
  Z.testbit st (UINTN_BITS cfg - 1).

Definition EFI_SUCCESS : EFI_STATUS := 0.
Definition EFI_OUT_OF_RESOURCES : EFI_STATUS := EFIERR 9.
Definition EFI_VOLUME_CORRUPTED : EFI_STATUS := EFIERR 10.
Definition EFI_NO_MEDIA : EFI_STATUS := EFIERR 12.
Definition EFI_ACCESS_DENIED : EFI_STATUS := EFIERR 15.

(** *** Calls that leave this file *)

Definition OutputString (s : ConsoleString) : M EFI_STATUS :=
  call (fun h => fw_OutputString env h s) (EvOutputString s).
Definition ask_for_pwd (showWrongPwd : bool) : M EFI_STATUS :=
  call (fun h => fw_ask_for_pwd env h showWrongPwd) (EvAskForPwd showWrongPwd).
Definition get_input (echo : bool) : M (EFI_STATUS * Z * list Z) :=
  call (fun h => fw_get_input env h echo)
       (fun r => EvGetInput echo (fst (fst r)) (snd (fst r))).
Definition decrypt_volume_header : M EFI_STATUS :=
  r <- call (fun h => fw_decrypt_volume_header env h)
            (fun r => EvDecryptVolumeHeader (fst r)) ;;
  put_crypto_info (snd r) ;;;
  ret (fst r).
Definition check_really_do : M bool :=
  call (fun h => fw_check_really_do env h) EvCheckReallyDo.
Definition start_connect_fake_crypto_driver (ImageHandle : EFI_HANDLE)
  : M EFI_STATUS :=
  call (fun h => fw_start_connect_fake_crypto_driver env h ImageHandle)
       (EvStartConnectFakeCryptoDriver ImageHandle).
Definition get_boot_partition_handle : M EFI_HANDLE :=
  call (fun h => fw_get_boot_partition_handle env h) EvGetBootPartitionHandle.
Definition OpenProtocolInformation (h : EFI_HANDLE)
  : M (EFI_STATUS * option (Z * list EFI_OPEN_PROTOCOL_INFORMATION_ENTRY)) :=
  call (fun t => fw_OpenProtocolInformation env t h)
       (fun r => EvOpenProtocolInformation h (fst r)).
Definition is_cs_child_device (parent child : EFI_HANDLE) : M bool :=
  call (fun t => fw_is_cs_child_device env t parent child)
       (EvIsCsChildDevice parent child).
Definition OpenProtocol (h : EFI_HANDLE) : M (EFI_STATUS * EFI_BLOCK_IO) :=
  call (fun t => fw_OpenProtocol env t h)
       (fun r => EvOpenProtocol h (fst r) (snd r)).
Definition CloseProtocol (h : EFI_HANDLE) : M EFI_STATUS :=
  call (fun t => fw_CloseProtocol env t h) (EvCloseProtocol h).
Definition AllocatePool (size : Z) : M (option Z) :=
  call (fun t => fw_AllocatePool env t size) (EvAllocatePool size).
Definition FreePool (buffer : Z) : M unit :=
  call (fun _ => tt) (fun _ => EvFreePool buffer).
Definition reset_input : M unit :=
  call (fun _ => tt) (fun _ => EvResetInput).
Definition ReadBlocks (this : EFI_BLOCK_IO) (MediaId lba bytes : Z)
  : M EFI_STATUS :=
  call (fun t => fw_ReadBlocks env t this MediaId lba bytes)
       (EvReadBlocks this MediaId lba bytes).
Definition WriteBlocks (this : EFI_BLOCK_IO) (MediaId lba bytes : Z)
  : M EFI_STATUS :=
  call (fun t => fw_WriteBlocks env t this MediaId lba bytes)
       (EvWriteBlocks this MediaId lba bytes).
Definition dump_per_cent (x : Z) : M unit :=
  call (fun _ => tt) (fun _ => EvDumpPerCent x).
Definition check_for_ESC : M bool :=
  call (fun t => fw_check_for_ESC env t) EvCheckForESC.
Definition update_volume_header (info : CRYPTO_INFO) : M EFI_STATUS :=
  call (fun t => fw_update_volume_header env t info) (EvUpdateVolumeHeader info).

(** strlena of efilib: the number of characters before the first NUL. *)
Fixpoint strlena (s : list Z) : Z :=
  match s with
  | [] => 0
  | c :: s' => if c =? 0 then 0 else 1 + strlena s'
  end.

(** *** check_user_password (lines 36-78)

    The do-while loop asks again as long as decrypt_volume_header() answers
    EFI_ACCESS_DENIED; [fuel] bounds the number of prompts. The result is the
    status together with the values left in *user_decision and *passwd. *)
Fixpoint check_user_password_loop (fuel : nat) (options : cs_option_flags)
    (showWrongPwd : bool) (user_decision : cs_enum_user_decision)
    (passwd : Password)
  : M (EFI_STATUS * cs_enum_user_decision * Password) :=
  match fuel with
  | O => fun w => OutOfFuel w
  | S fuel' =>
    error <- ask_for_pwd showWrongPwd ;;
    if EFI_ERROR error then ret (error, user_decision, passwd)
    else
      r <- get_input (enable_password_asterisk options) ;;
      let '(error, ScanCode, text) := r in
      let passwd := {| Text := text; Length := Length passwd |} in
      if EFI_ERROR error then ret (error, user_decision, passwd)
      else if ScanCode =? 23 (* 0x17, ESCAPE *) then
        ret (EFI_SUCCESS, CS_UI_ESC_PRESSED, passwd)
      else
        let passwd := {| Text := text; Length := strlena text |} in
        error <- decrypt_volume_header ;;
        if error =? EFI_ACCESS_DENIED then
          check_user_password_loop fuel' options true user_decision passwd
        else ret (error, user_decision, passwd)
  end.

Definition check_user_password (fuel : nat) (options : cs_option_flags)
    (user_decision : cs_enum_user_decision) (passwd : Password)
  : M (EFI_STATUS * cs_enum_user_decision * Password) :=
  let showWrongPwd := false in
  if negb (silent options) then
    error <- OutputString STR_CRLF_LF_SPACE ;;
    if EFI_ERROR error then ret (error, user_decision, passwd)
    else check_user_password_loop fuel options showWrongPwd user_decision passwd
  else check_user_password_loop fuel options showWrongPwd user_decision passwd.

(** *** get_cs_child (lines 94-140)

    The for loop over the entries; the result is the value of *ChildHandle
    when the loop is left (it is NULL before the loop). *)
Fixpoint get_cs_child_loop (ParentHandle : EFI_HANDLE)
    (OpenInfo : list EFI_OPEN_PROTOCOL_INFORMATION_ENTRY) : M EFI_HANDLE :=
  match OpenInfo with
  | [] => ret NULL
  | e :: rest =>
    if Z.land (Attributes e) EFI_OPEN_PROTOCOL_BY_CHILD_CONTROLLER
       =? EFI_OPEN_PROTOCOL_BY_CHILD_CONTROLLER
    then
      let child := ControllerHandle e in
      ok <- is_cs_child_device ParentHandle child ;;
      if ok then ret child (* break *)
      else get_cs_child_loop ParentHandle rest
    else get_cs_child_loop ParentHandle rest
  end.

Definition get_cs_child (ParentHandle : EFI_HANDLE)
  : M (EFI_STATUS * EFI_HANDLE) :=
  r <- OpenProtocolInformation ParentHandle ;;
  let '(error, OpenInfo) := r in
  if EFI_ERROR error then ret (error, NULL)
  else
    ChildHandle <-
      get_cs_child_loop ParentHandle
        (match OpenInfo with Some (_, entries) => entries | None => [] end) ;;
    match OpenInfo with
    | Some (buffer, _) => FreePool buffer
    | None => ret tt
    end ;;;
    if ChildHandle =? NULL then ret (EFI_NO_MEDIA, ChildHandle)
    else ret (error, ChildHandle).

(** *** Block I/O protocol (lines 151-221) *)

Definition open_blockio_protocol (handle : EFI_HANDLE)
  : M (EFI_STATUS * EFI_BLOCK_IO) :=
  OpenProtocol handle.

Definition close_blockio_protocol (handle : EFI_HANDLE)
    (blockIo : EFI_BLOCK_IO) : M EFI_STATUS :=
  CloseProtocol handle.

(** The result carries the status and the two interface pointers; the child
    pointer is NULL here when the child was never opened (the caller reads
    the pointers only after a status that is no error). *)
Definition open_blockio_protocols (parentHandle childHandle : EFI_HANDLE)
  : M (EFI_STATUS * EFI_BLOCK_IO * EFI_BLOCK_IO) :=
  r <- open_blockio_protocol parentHandle ;;
  let '(error, parentBlockIo) := r in
  if negb (EFI_ERROR error) then
    r <- open_blockio_protocol childHandle ;;
    let '(error, childBlockIo) := r in
    if EFI_ERROR error then
      error2 <- close_blockio_protocol parentHandle parentBlockIo ;;
      ret (error, parentBlockIo, childBlockIo)
    else ret (error, parentBlockIo, childBlockIo)
  else ret (error, parentBlockIo, NULL).

(** *** update_blocks_in_volume_header (lines 235-261)

    [crypto_info] is the header behind get_crypto_info(), the only pointer
    this function is ever given. *)
Definition update_blocks_in_volume_header (processedLba : Z) (encrypt : bool)
  : M EFI_STATUS :=
  info <- get_crypto_info ;;
  call (fun _ => tt)
       (fun _ => EvUpdateBlocksInVolumeHeader processedLba info encrypt) ;;;
  let startSector := to_sectors (EncryptedAreaStart info) in
  let sectorsInVolume := UINTN (to_sectors (VolumeSize info)) in
  if (processedLba <? startSector)
     || (UINT64 (startSector + sectorsInVolume) <? processedLba)
  then ret EFI_VOLUME_CORRUPTED
  else
    let numberSectors := UINTN (processedLba - startSector) in
    let info := set_EncryptedAreaLength (UINTN (to_bytes numberSectors)) info in
    put_crypto_info info ;;;
    error <- update_volume_header info ;;
    ret error.

(** *** do_encrypt_decrypt_media (lines 280-400) *)

(** The locals that the while loop changes. [error] has no initialiser. *)
Record Locals : Type := {
  lba : Z;
  numberSectors : Z;
  bufferSectors : Z;
  bytesToRead : Z;
  error : option EFI_STATUS
}.

Definition set_error (e : EFI_STATUS) (l : Locals) : Locals :=
  {| lba := lba l; numberSectors := numberSectors l;
     bufferSectors := bufferSectors l; bytesToRead := bytesToRead l;
     error := Some e |}.

(** Lines 356-368: the cursor arithmetic after a chunk was copied. *)
Definition advance (encrypt : bool) (l : Locals) : Locals :=
  let lba1 := if encrypt then UINT64 (lba l + bufferSectors l) else lba l in
  let numberSectors1 := UINTN (numberSectors l - bufferSectors l) in
  let clamp := numberSectors1 <? bufferSectors l in
  let bufferSectors1 := if clamp then numberSectors1 else bufferSectors l in
  let bytesToRead1 :=
    if clamp then UINTN (to_bytes bufferSectors1) else bytesToRead l in
  let lba2 := if encrypt then lba1 else UINT64 (lba1 - bufferSectors1) in
  {| lba := lba2; numberSectors := numberSectors1;
     bufferSectors := bufferSectors1; bytesToRead := bytesToRead1;
     error := error l |}.

(** Lines 370-380: the per-mille value handed to dump_per_cent. The helper
    __div64_32 is taken as the source comment describes it: x = x / divisor. *)
Definition per_mille (encrypt : bool) (startSector sectorsInVolume : Z)
    (l : Locals) : Z :=
  if encrypt then
    UINT64 (1000 * (lba l - startSector + bufferSectors l)) / sectorsInVolume
  else
    UINT64 (1000 - UINT64 (1000 * (lba l - startSector)) / sectorsInVolume).

(** Lines 333-386: the while loop; a [ret] inside the body is a break. *)
Fixpoint copy_loop (fuel : nat) (encrypt : bool) (source dest : EFI_BLOCK_IO)
    (startSector sectorsInVolume : Z) (l : Locals) : M Locals :=
  if 0 <? numberSectors l then
    match fuel with
    | O => fun w => OutOfFuel w
    | S fuel' =>
      e <- ReadBlocks source (fw_MediaId env source) (lba l) (bytesToRead l) ;;
      let l := set_error e l in
      if EFI_ERROR e then ret l
      else
        e <- WriteBlocks dest (fw_MediaId env dest) (lba l) (bytesToRead l) ;;
        let l := set_error e l in
        if EFI_ERROR e then ret l
        else
          let l := advance encrypt l in
          (if 0 <? sectorsInVolume
           then dump_per_cent (per_mille encrypt startSector sectorsInVolume l)
           else ret tt) ;;;
          esc <- check_for_ESC ;;
          if esc then ret l
          else copy_loop fuel' encrypt source dest startSector sectorsInVolume l
    end
  else ret l.

(** Iterations that are enough for the loop to leave through its condition:
    the sector count falls in every iteration, after at most one wrap-around
    of the first subtraction. *)
Definition loop_bound (l : Locals) : nat :=
  if numberSectors l =? 0 then O
  else Z.to_nat (if bufferSectors l <=? numberSectors l
                 then numberSectors l
                 else numberSectors l + 2 ^ UINTN_BITS cfg).

(** Lines 298-325 and 331: the locals as the loop is entered, computed from
    the header. [startSector] is 0 (line 298). *)
Definition numberEncryptedSectors (cryptoInfo : CRYPTO_INFO) : Z :=
  UINTN (to_sectors (EncryptedAreaLength cryptoInfo)).
Definition sectorsInVolume (cryptoInfo : CRYPTO_INFO) : Z :=
  UINTN (to_sectors (VolumeSize cryptoInfo)).

Definition setup_locals (encrypt : bool) (cryptoInfo : CRYPTO_INFO) : Locals :=
  let bufferSectors0 := UINTN (CS_SERVICE_NUMBER_SECTORS cfg) in
  let startSector := 0 in
  let endEncryptedArea := UINT64 (startSector + numberEncryptedSectors cryptoInfo) in
  let bufferSectors1 :=
    if encrypt then bufferSectors0
    else if numberEncryptedSectors cryptoInfo <? bufferSectors0
         then numberEncryptedSectors cryptoInfo else bufferSectors0 in
  {| lba := if encrypt then endEncryptedArea
            else UINT64 (startSector + numberEncryptedSectors cryptoInfo
                         - bufferSectors1);
     numberSectors :=
       if encrypt
       then UINTN (sectorsInVolume cryptoInfo - numberEncryptedSectors cryptoInfo)
       else numberEncryptedSectors cryptoInfo;
     bufferSectors := bufferSectors1;
     bytesToRead := UINTN (to_bytes bufferSectors1);
     error := None |}.

(** Lines 395-396: the cursor made relative to the disk, as it is handed to
    update_blocks_in_volume_header. *)
Definition processed_lba (encrypt : bool) (cryptoInfo : CRYPTO_INFO)
    (l : Locals) : Z :=
  let lba1 := UINT64 (lba l + to_sectors (EncryptedAreaStart cryptoInfo)) in
  if encrypt then lba1 else UINT64 (lba1 + bufferSectors l).

Definition do_encrypt_decrypt_media (parentBlockIo childBlockIo : EFI_BLOCK_IO)
    (encrypt : bool) : M EFI_STATUS :=
  let bufferSize := UINTN (to_bytes (CS_SERVICE_NUMBER_SECTORS cfg)) in
  cryptoInfo <- get_crypto_info ;;
  let startSector := 0 in
  let endEncryptedArea := UINT64 (startSector + numberEncryptedSectors cryptoInfo) in
  if UINT64 (startSector + sectorsInVolume cryptoInfo) <? endEncryptedArea
  then ret EFI_VOLUME_CORRUPTED
  else
    let source := if encrypt then childBlockIo else parentBlockIo in
    let dest := if encrypt then parentBlockIo else childBlockIo in
    let l0 := setup_locals encrypt cryptoInfo in
    reset_input ;;;
    buffer <- AllocatePool bufferSize ;;
    l <- match buffer with
         | Some buffer =>
           l <- copy_loop (loop_bound l0) encrypt source dest
                  startSector (sectorsInVolume cryptoInfo) l0 ;;
           FreePool buffer ;;;
           ret l
         | None => ret (set_error EFI_OUT_OF_RESOURCES l0)
         end ;;
    e <- read_local (error l) ;;
    if negb (EFI_ERROR e) then
      cryptoInfo <- get_crypto_info ;;
      update_blocks_in_volume_header (processed_lba encrypt cryptoInfo l) encrypt
    else ret e.

(** *** encrypt_decrypt_media (lines 423-489)

    [fuel] bounds the password prompts. The result is the returned status
    with the values left in *user_decision and *passwd. *)
Definition encrypt_decrypt_media (fuel : nat) (ImageHandle : EFI_HANDLE)
    (options : cs_option_flags) (encrypt : bool) (passwd : Password)
  : M (EFI_STATUS * cs_enum_user_decision * Password) :=
  let user_decision := CS_UI_SERVICE_MENU in
  r <- check_user_password fuel options user_decision passwd ;;
  let '(error, user_decision, passwd) := r in
  if EFI_ERROR error then ret (error, user_decision, passwd)
  else
    match user_decision with
    | CS_UI_ESC_PRESSED => ret (EFI_SUCCESS, CS_UI_SERVICE_MENU, passwd)
    | _ =>
      really <- check_really_do ;;
      if negb really then ret (EFI_SUCCESS, user_decision, passwd)
      else
        error <- start_connect_fake_crypto_driver ImageHandle ;;
        if EFI_ERROR error then ret (error, user_decision, passwd)
        else
          ParentHandle <- get_boot_partition_handle ;;
          r <- get_cs_child ParentHandle ;;
          let '(error, ChildHandle) := r in
          if EFI_ERROR error then ret (error, user_decision, passwd)
          else
            r <- open_blockio_protocols ParentHandle ChildHandle ;;
            let '(error, parentBlockIo, childBlockIo) := r in
            if negb (EFI_ERROR error) then
              (if negb (silent options)
               then OutputString STR_CRLF_LF else ret error) ;;;
              error <- do_encrypt_decrypt_media parentBlockIo childBlockIo
                         encrypt ;;
              close_blockio_protocol ParentHandle parentBlockIo ;;;
              close_blockio_protocol ChildHandle childBlockIo ;;;
              ret (error, CS_UI_REBOOT, passwd)
            else ret (error, user_decision, passwd)
    end.

End Service.

(** ** Predicates used by the statements *)

(** The fields are UINT64 values. *)
Definition wf_header (c : CRYPTO_INFO) : Prop :=
  0 <= EncryptedAreaStart c < 2 ^ 64 /\
  0 <= EncryptedAreaLength c < 2 ^ 64 /\
  0 <= VolumeSize c < 2 ^ 64.

(** 0 <= encrypted_area_length <= volume_size. *)
Definition header_inv (c : CRYPTO_INFO) : Prop :=
  0 <= EncryptedAreaLength c <= VolumeSize c.

(** The header that a persistence step is entered with, or hands on. *)
Definition persisted_header (e : Event) : option CRYPTO_INFO :=
  match e with
  | EvUpdateBlocksInVolumeHeader _ info _ => Some info
  | EvUpdateVolumeHeader info _ => Some info
  | _ => None
  end.

Definition persistence_inv (e : Event) : Prop :=
  match persisted_header e with
  | Some info => header_inv info
  | None => True
  end.

Definition is_update_blocks_call (e : Event) : bool :=
  match e with EvUpdateBlocksInVolumeHeader _ _ _ => true | _ => false end.

Definition is_update_volume_header (e : Event) : bool :=
  match e with EvUpdateVolumeHeader _ _ => true | _ => false end.

(** Events logged by the copy loop. *)
Definition is_loop_event (e : Event) : bool :=
  match e with
  | EvReadBlocks _ _ _ _ _ | EvWriteBlocks _ _ _ _ _
  | EvDumpPerCent _ | EvCheckForESC _ => true
  | _ => false
  end.

Definition is_poll (e : Event) : bool :=
  match e with EvCheckForESC _ => true | _ => false end.

(** Events that only concern the console. *)
Definition is_console (e : Event) : bool :=
  match e with
  | EvOutputString _ _ => true
  | EvAskForPwd _ _ => true
  | EvGetInput _ _ _ => true
  | _ => false
  end.

Definition count (p : Event -> bool) (t : list Event) : nat :=
  length (filter p t).

(** The (lba, byte count) of the read requests of a log, oldest first. *)
Definition read_requests (t : list Event) : list (Z * Z) :=
  flat_map (fun e => match e with
                     | EvReadBlocks _ _ lba bytes _ => [(lba, bytes)]
                     | _ => []
                     end) (rev t).

Definition write_requests (t : list Event) : list (Z * Z) :=
  flat_map (fun e => match e with
                     | EvWriteBlocks _ _ lba bytes _ => [(lba, bytes)]
                     | _ => []
                     end) (rev t).

(** The status of the newest ReadBlocks or WriteBlocks call of a log. *)
Fixpoint last_transfer_status (t : list Event) : option EFI_STATUS :=
  match t with
  | [] => None
  | EvReadBlocks _ _ _ _ st :: _ => Some st
  | EvWriteBlocks _ _ _ _ st :: _ => Some st
  | _ :: t' => last_transfer_status t'
  end.

(** The bound of [loop_bound] as an integer, and the states from which the
    loop makes progress: a buffer of no sectors while sectors remain would
    copy nothing for ever. *)
Definition loop_measure (cfg : Build) (l : Locals) : Z :=
  if numberSectors l =? 0 then 0
  else if bufferSectors l <=? numberSectors l then numberSectors l
       else numberSectors l + 2 ^ UINTN_BITS cfg.

Definition loop_ready (cfg : Build) (l : Locals) : Prop :=
  0 <= numberSectors l < 2 ^ UINTN_BITS cfg /\
  0 <= bufferSectors l < 2 ^ UINTN_BITS cfg /\
  (0 < bufferSectors l \/ numberSectors l = 0).

(** Handles whose Block I/O interface was opened without error and for which
    no CloseProtocol call followed; the log is read oldest first. *)
Fixpoint outstanding (cfg : Build) (chronological : list Event)
    (held : list EFI_HANDLE) : list EFI_HANDLE :=
  match chronological with
  | [] => held
  | EvOpenProtocol h st _ :: t =>
    outstanding cfg t (if EFI_ERROR cfg st then held else h :: held)
  | EvCloseProtocol h _ :: t =>
    outstanding cfg t (filter (fun h' => negb (h' =? h)) held)
  | _ :: t => outstanding cfg t held
  end.

(** Device discovery in the words of the specification: among the consumers
    of the parent's Block I/O protocol keep those attached as child
    controller; the first of them that passes the identity probe is the
    result. [probes_until] lists the probes this asks for, oldest first. *)
Definition is_child_controller (e : EFI_OPEN_PROTOCOL_INFORMATION_ENTRY) : bool :=
  Z.land (Attributes e) EFI_OPEN_PROTOCOL_BY_CHILD_CONTROLLER
  =? EFI_OPEN_PROTOCOL_BY_CHILD_CONTROLLER.

Definition first_match (probe : EFI_HANDLE -> bool)
    (entries : list EFI_OPEN_PROTOCOL_INFORMATION_ENTRY)
  : option EFI_OPEN_PROTOCOL_INFORMATION_ENTRY :=
  find (fun e => probe (ControllerHandle e)) (filter is_child_controller entries).

Fixpoint probes_until (probe : EFI_HANDLE -> bool) (parent : EFI_HANDLE)
    (children : list EFI_OPEN_PROTOCOL_INFORMATION_ENTRY) : list Event :=
  match children with
  | [] => []
  | e :: rest =>
    EvIsCsChildDevice parent (ControllerHandle e) (probe (ControllerHandle e))
    :: (if probe (ControllerHandle e) then []
        else probes_until probe parent rest)
  end.

Definition decision_of (o : Outcome (EFI_STATUS * cs_enum_user_decision * Password))
  : option cs_enum_user_decision :=
  match o with
  | Returned (_, d, _) _ => Some d
  | _ => None
  end.

(** A firmware under which encrypt_decrypt_media gets as far as the
    conversion: the console works, the first password (not the escape key) is
    accepted and unlocks the header [hdr], the user confirms, the crypto
    driver starts, the boot partition is [parent], its enumeration has
    [child] as first match, and Block I/O opens on every handle. *)
Record reaches_conversion (env : Firmware) (hdr : CRYPTO_INFO)
    (parent child : EFI_HANDLE) (key : Z) (text : list Z) (OpenInfo : Z)
    (entries : list EFI_OPEN_PROTOCOL_INFORMATION_ENTRY)
    (probe : EFI_HANDLE -> bool) (io : EFI_HANDLE -> EFI_BLOCK_IO) : Prop := {
  rc_output : forall t s, fw_OutputString env t s = EFI_SUCCESS;
  rc_ask : forall t b, fw_ask_for_pwd env t b = EFI_SUCCESS;
  rc_input : forall t echo, fw_get_input env t echo = (EFI_SUCCESS, key, text);
  rc_key : key <> 23;
  rc_decrypt : forall t, fw_decrypt_volume_header env t = (EFI_SUCCESS, hdr);
  rc_really : forall t, fw_check_really_do env t = true;
  rc_driver : forall t h,
      fw_start_connect_fake_crypto_driver env t h = EFI_SUCCESS;
  rc_boot : forall t, fw_get_boot_partition_handle env t = parent;
  rc_info : forall t,
      fw_OpenProtocolInformation env t parent
      = (EFI_SUCCESS, Some (OpenInfo, entries));
  rc_probe : forall t c, fw_is_cs_child_device env t parent c = probe c;
  rc_nonnull : Forall (fun e => ControllerHandle e <> NULL)
                 (filter is_child_controller entries);
  rc_match : option_map ControllerHandle (first_match probe entries) = Some child;
  rc_open : forall t h, fw_OpenProtocol env t h = (EFI_SUCCESS, io h)
}.

(** The log of such a run up to the call of do_encrypt_decrypt_media, newest
    event first, on top of the log [t]. *)
Definition session_prefix (options : cs_option_flags) (ImageHandle : EFI_HANDLE)
    (parent child : EFI_HANDLE) (key : Z) (OpenInfo : Z)
    (entries : list EFI_OPEN_PROTOCOL_INFORMATION_ENTRY)
    (probe : EFI_HANDLE -> bool) (io : EFI_HANDLE -> EFI_BLOCK_IO)
    (t : list Event) : list Event :=
  (if silent options then [] else [EvOutputString STR_CRLF_LF EFI_SUCCESS])
  ++ EvOpenProtocol child EFI_SUCCESS (io child)
  :: EvOpenProtocol parent EFI_SUCCESS (io parent)
  :: EvFreePool OpenInfo
  :: rev (probes_until probe parent (filter is_child_controller entries))
  ++ EvOpenProtocolInformation parent EFI_SUCCESS
  :: EvGetBootPartitionHandle parent
  :: EvStartConnectFakeCryptoDriver ImageHandle EFI_SUCCESS
  :: EvCheckReallyDo true
  :: EvDecryptVolumeHeader EFI_SUCCESS
  :: EvGetInput (enable_password_asterisk options) EFI_SUCCESS key
  :: EvAskForPwd false EFI_SUCCESS
  :: (if silent options then []
      else [EvOutputString STR_CRLF_LF_SPACE EFI_SUCCESS])
  ++ t.

(** What encrypt_decrypt_media does with the outcome of the conversion:
    both interfaces are closed, the decision is CS_UI_REBOOT. *)
Definition close_session (env : Firmware) (parent child : EFI_HANDLE)
    (passwd : Password) (o : Outcome EFI_STATUS)
  : Outcome (EFI_STATUS * cs_enum_user_decision * Password) :=
  match o with
  | Returned e w =>
    let close_parent := EvCloseProtocol parent (fw_CloseProtocol env (trace w) parent) in
    let close_child :=
      EvCloseProtocol child
        (fw_CloseProtocol env (close_parent :: trace w) child) in
    Returned (e, CS_UI_REBOOT, passwd) (log close_child (log close_parent w))
  | UninitRead w => UninitRead w
  | OutOfFuel w => OutOfFuel w
  end.

(** Events of the conversion itself, as opposed to those of the session
    around it. *)
Definition is_conversion_event (e : Event) : bool :=
  is_loop_event e || is_update_blocks_call e || is_update_volume_header e.

(** Chunks as (first sector, number of sectors), and the read or write
    requests that copy them. *)
Definition chunk_requests (cfg : Build) (chunks : list (Z * Z)) : list (Z * Z) :=
  map (fun c => (fst c, UINTN cfg (to_bytes cfg (snd c)))) chunks.

(** 1000 sectors in chunks of 80: twelve of 80 sectors and one of 40. *)
Definition chunks_1000_by_80 : list (Z * Z) :=
  [(0, 80); (80, 80); (160, 80); (240, 80); (320, 80); (400, 80); (480, 80);
   (560, 80); (640, 80); (720, 80); (800, 80); (880, 80); (960, 40)].

(** The header of the scenarios: nothing encrypted yet, 1000 sectors. *)
Definition fresh_1000_sectors (cfg : Build) (hdr : CRYPTO_INFO) : Prop :=
  0 <= EncryptedAreaStart hdr /\
  to_sectors cfg (EncryptedAreaStart hdr) + 1000 < 2 ^ 64 /\
  EncryptedAreaLength hdr = 0 /\
  VolumeSize hdr = to_bytes cfg 1000 /\
  to_bytes cfg 1000 < 2 ^ UINTN_BITS cfg.

(** ** Concrete firmware for the examples *)

(** A boot partition (handle 100) whose Block I/O protocol is opened by its
    own driver, by an unrelated filter driver (child 150) and by the
    CipherShed crypto driver (child 200). *)
Definition example_entries : list EFI_OPEN_PROTOCOL_INFORMATION_ENTRY :=
  [ {| AgentHandle := 7; ControllerHandle := 100; Attributes := 16; OpenCount := 1 |};
    {| AgentHandle := 8; ControllerHandle := 150; Attributes := 8; OpenCount := 1 |};
    {| AgentHandle := 9; ControllerHandle := 200; Attributes := 8; OpenCount := 1 |} ].

Definition example_probe (h : EFI_HANDLE) : bool := h =? 200.

(** The same boot partition when a further agent has fetched the Block I/O
    interface with HandleProtocol: the entry of such a consumer has the
    attribute EFI_OPEN_PROTOCOL_BY_HANDLE_PROTOCOL (1) and no controller
    handle. *)
Definition boot_partition_entries : list EFI_OPEN_PROTOCOL_INFORMATION_ENTRY :=
  {| AgentHandle := 6; ControllerHandle := NULL; Attributes := 1; OpenCount := 1 |}
  :: example_entries.

Definition example_io (h : EFI_HANDLE) : EFI_BLOCK_IO := h + 1.

(** A volume of [sectors] sectors of 512 bytes that starts 1 MiB into the
    disk, [encrypted] sectors of it encrypted. *)
Definition example_header (sectors encrypted : Z) : CRYPTO_INFO :=
  {| EncryptedAreaStart := 2048 * 512;
     EncryptedAreaLength := encrypted * 512;
     VolumeSize := sectors * 512 |}.

(** Firmware in which everything succeeds, but for: the key that ends the
    password input, the status of ReadBlocks, the entries of the enumeration
    and the answers of check_for_ESC. *)
Definition example_firmware (hdr : CRYPTO_INFO) (key : Z)
    (read_status : EFI_STATUS)
    (entries : list EFI_OPEN_PROTOCOL_INFORMATION_ENTRY)
    (esc : list Event -> bool) : Firmware :=
  {| fw_OutputString := fun _ _ => EFI_SUCCESS;
     fw_ask_for_pwd := fun _ _ => EFI_SUCCESS;
     fw_get_input := fun _ _ => (EFI_SUCCESS, key, [112; 119; 0]);
     fw_decrypt_volume_header := fun _ => (EFI_SUCCESS, hdr);
     fw_check_really_do := fun _ => true;
     fw_start_connect_fake_crypto_driver := fun _ _ => EFI_SUCCESS;
     fw_get_boot_partition_handle := fun _ => 100;
     fw_OpenProtocolInformation := fun _ _ => (EFI_SUCCESS, Some (500, entries));
     fw_is_cs_child_device := fun _ _ c => example_probe c;
     fw_OpenProtocol := fun _ h => (EFI_SUCCESS, example_io h);
     fw_CloseProtocol := fun _ _ => EFI_SUCCESS;
     fw_AllocatePool := fun _ _ => Some 900;
     fw_MediaId := fun _ => 1;
     fw_ReadBlocks := fun _ _ _ _ _ => read_status;
     fw_WriteBlocks := fun _ _ _ _ _ => EFI_SUCCESS;
     fw_check_for_ESC := esc;
     fw_update_volume_header := fun _ _ => EFI_SUCCESS |}.

Definition never_esc (t : list Event) : bool := false.
Definition esc_at_third_poll (t : list Event) : bool :=
  Nat.eqb (count is_poll t) 2.

(** The return key. *)
Definition key_return : Z := 0.
(** The escape key, scan code 0x17. *)
Definition key_escape : Z := 23.

(** Firmware in which everything succeeds and the enumeration of the boot
    partition is [boot_partition_entries]. *)
Definition boot_partition_firmware (hdr : CRYPTO_INFO)
    (esc : list Event -> bool) : Firmware :=
  example_firmware hdr key_return EFI_SUCCESS boot_partition_entries esc.

Definition good_firmware (hdr : CRYPTO_INFO) : Firmware :=
  example_firmware hdr key_return EFI_SUCCESS example_entries never_esc.

(** The user ends the first password input with the escape key. *)
Definition escape_firmware (hdr : CRYPTO_INFO) : Firmware :=
  example_firmware hdr key_escape EFI_SUCCESS example_entries never_esc.

(** The third poll of check_for_ESC finds the ESC key. *)
Definition third_poll_firmware (hdr : CRYPTO_INFO) : Firmware :=
  example_firmware hdr key_return EFI_SUCCESS example_entries esc_at_third_poll.

(** EFI_DEVICE_ERROR on x86_64. *)
Definition EFI_DEVICE_ERROR_64 : EFI_STATUS := EFIERR x86_64_build 7.

(** Every ReadBlocks fails with EFI_DEVICE_ERROR. *)
Definition failing_read_firmware (hdr : CRYPTO_INFO) : Firmware :=
  example_firmware hdr key_return EFI_DEVICE_ERROR_64 example_entries never_esc.

Definition example_world (hdr : CRYPTO_INFO) : World :=
  {| crypto_info := hdr; trace := [] |}.

Definition example_options : cs_option_flags :=
  {| silent := false; enable_password_asterisk := true |}.

Definition empty_password : Password := {| Text := []; Length := 0 |}.

(** ** Predicates for the properties read off the code *)

(** The log of one pass through the loop body in which both transfers were
    answered without error, newest event first: the read, the write, the
    progress display (only when the volume has sectors) and the poll. [l] is
    the state the pass starts in, [l1] the state after the cursor moved. *)
Definition chunk_events (env : Firmware) (encrypt : bool)
    (source dest : EFI_BLOCK_IO) (startSector V : Z) (l l1 : Locals)
    (e e' : EFI_STATUS) (esc : bool) : list Event :=
  EvCheckForESC esc
  :: (if 0 <? V then [EvDumpPerCent (per_mille encrypt startSector V l1)] else [])
  ++ [EvWriteBlocks dest (fw_MediaId env dest) (lba l) (bytesToRead l) e';
      EvReadBlocks source (fw_MediaId env source) (lba l) (bytesToRead l) e].

(** Reads are asked of [source] only and writes of [dest] only, each with
    the media id of its device. *)
Definition one_way (env : Firmware) (source dest : EFI_BLOCK_IO) (e : Event)
  : Prop :=
  match e with
  | EvReadBlocks this MediaId _ _ _ =>
    this = source /\ MediaId = fw_MediaId env source
  | EvWriteBlocks this MediaId _ _ _ =>
    this = dest /\ MediaId = fw_MediaId env dest
  | _ => True
  end.

(** A transfer of a whole, non-empty number of sectors that lies in the
    sector range from [lo] up to, not including, [hi]. *)
Definition transfer_within (cfg : Build) (lo hi : Z) (e : Event) : Prop :=
  match e with
  | EvReadBlocks _ _ lba bytes _ | EvWriteBlocks _ _ lba bytes _ =>
    exists sectors,
      0 < sectors /\ bytes = UINTN cfg (to_bytes cfg sectors) /\
      lo <= lba /\ lba + sectors <= hi
  | _ => True
  end.

Definition is_free_pool (e : Event) : bool :=
  match e with EvFreePool _ => true | _ => false end.

Definition is_probe (e : Event) : bool :=
  match e with EvIsCsChildDevice _ _ _ => true | _ => false end.

(** Events of check_user_password. *)
Definition is_password_event (e : Event) : bool :=
  match e with
  | EvOutputString _ _ | EvAskForPwd _ _ | EvGetInput _ _ _
  | EvDecryptVolumeHeader _ => true
  | _ => false
  end.

(** The showWrongPwd flags of the password prompts of a log, oldest first. *)
Definition prompts (t : list Event) : list bool :=
  flat_map (fun e => match e with
                     | EvAskForPwd showWrongPwd _ => [showWrongPwd]
                     | _ => []
                     end) (rev t).

(** decrypt_volume_header calls that answered EFI_ACCESS_DENIED. *)
Definition is_denied (cfg : Build) (e : Event) : bool :=
  match e with
  | EvDecryptVolumeHeader st => st =? EFI_ACCESS_DENIED cfg
  | _ => false
  end.

Definition is_decrypt_call (e : Event) : bool :=
  match e with EvDecryptVolumeHeader _ => true | _ => false end.

Definition is_protocol_event (e : Event) : bool :=
  match e with
  | EvOpenProtocol _ _ _ | EvCloseProtocol _ _ => true
  | _ => false
  end.

Definition is_transfer (e : Event) : bool :=
  match e with
  | EvReadBlocks _ _ _ _ _ | EvWriteBlocks _ _ _ _ _ => true
  | _ => false
  end.

(** The ReadBlocks and WriteBlocks calls of a log, oldest first. *)
Definition transfers (t : list Event) : list Event :=
  filter is_transfer (rev t).

(** Events of update_blocks_in_volume_header. *)
Definition is_persistence_event (e : Event) : bool :=
  is_update_blocks_call e || is_update_volume_header e.

(** Transfers, oldest first, that come in pairs: a read that was answered
    without error is followed by the write of the same sectors, a read that
    failed is the last transfer, and so is a write that failed. *)
Fixpoint well_paired (cfg : Build) (chronological : list Event) : Prop :=
  match chronological with
  | [] => True
  | EvReadBlocks _ _ lba bytes st :: t =>
    match t with
    | [] => EFI_ERROR cfg st = true
    | EvWriteBlocks _ _ lba' bytes' st' :: t' =>
      EFI_ERROR cfg st = false /\ lba' = lba /\ bytes' = bytes /\
      (EFI_ERROR cfg st' = true -> t' = []) /\
      well_paired cfg t'
    | _ => False
    end
  | _ => False
  end.

(** Chunks of the given sizes laid end to end, upwards from sector [lo] and
    downwards from sector [hi], as (first sector, number of sectors). *)
Fixpoint ascending (lo : Z) (sizes : list Z) : list (Z * Z) :=
  match sizes with
  | [] => []
  | s :: rest => (lo, s) :: ascending (lo + s) rest
  end.

Fixpoint descending (hi : Z) (sizes : list Z) : list (Z * Z) :=
  match sizes with
  | [] => []
  | s :: rest => (hi - s, s) :: descending (hi - s) rest
  end.

Definition total (sizes : list Z) : Z := fold_right Z.add 0 sizes.

(** Chunks as the loop cuts them: each one is a buffer full, or all that
    remains when that is less. *)
Fixpoint greedy (cap remaining : Z) (sizes : list Z) : Prop :=
  match sizes with
  | [] => True
  | s :: rest => s = Z.min cap remaining /\ greedy cap (remaining - s) rest
  end.

(** Chunk sizes that a buffer of CS_SERVICE_NUMBER_SECTORS sectors holds. *)
Definition fits_buffer (cfg : Build) (s : Z) : Prop :=
  0 < s <= CS_SERVICE_NUMBER_SECTORS cfg.

(** What the forward and the backward sweep keep true of the locals. *)
Definition encrypt_inv (cfg : Build) (E V : Z) (l : Locals) : Prop :=
  E <= lba l /\ lba l + numberSectors l = V /\ 0 <= numberSectors l /\
  (numberSectors l = 0 \/ 0 < bufferSectors l <= numberSectors l) /\
  bufferSectors l <= CS_SERVICE_NUMBER_SECTORS cfg /\
  (numberSectors l = 0 \/
   bufferSectors l = Z.min (CS_SERVICE_NUMBER_SECTORS cfg) (numberSectors l)) /\
  bytesToRead l = UINTN cfg (to_bytes cfg (bufferSectors l)).

Definition decrypt_inv (cfg : Build) (E : Z) (l : Locals) : Prop :=
  lba l = numberSectors l - bufferSectors l /\
  0 <= bufferSectors l <= numberSectors l /\ numberSectors l <= E /\
  (numberSectors l = 0 \/ 0 < bufferSectors l) /\
  bufferSectors l <= CS_SERVICE_NUMBER_SECTORS cfg /\
  (numberSectors l = 0 \/
   bufferSectors l = Z.min (CS_SERVICE_NUMBER_SECTORS cfg) (numberSectors l)) /\
  bytesToRead l = UINTN cfg (to_bytes cfg (bufferSectors l)).

(** Firmware whose pool is exhausted: AllocatePool answers NULL. *)
Definition no_pool_firmware (hdr : CRYPTO_INFO) : Firmware :=
  let fw := good_firmware hdr in
  {| fw_OutputString := fw_OutputString fw;
     fw_ask_for_pwd := fw_ask_for_pwd fw;
     fw_get_input := fw_get_input fw;
     fw_decrypt_volume_header := fw_decrypt_volume_header fw;
     fw_check_really_do := fw_check_really_do fw;
     fw_start_connect_fake_crypto_driver := fw_start_connect_fake_crypto_driver fw;
     fw_get_boot_partition_handle := fw_get_boot_partition_handle fw;
     fw_OpenProtocolInformation := fw_OpenProtocolInformation fw;
     fw_is_cs_child_device := fw_is_cs_child_device fw;
     fw_OpenProtocol := fw_OpenProtocol fw;
     fw_CloseProtocol := fw_CloseProtocol fw;
     fw_AllocatePool := fun _ _ => None;
     fw_MediaId := fw_MediaId fw;
     fw_ReadBlocks := fw_ReadBlocks fw;
     fw_WriteBlocks := fw_WriteBlocks fw;
     fw_check_for_ESC := fw_check_for_ESC fw;
     fw_update_volume_header := fw_update_volume_header fw |}.

(** The values handed to dump_per_cent are per-mille values. *)
Definition progress_in_range (e : Event) : Prop :=
  match e with
  | EvDumpPerCent x => 0 <= x <= 1000
  | _ => True
  end.

(** The search of get_cs_child, told by the log of its probes (oldest
    first): the child controllers are probed in the order of the
    enumeration, the first TRUE ends the search with that child, and a
    search that runs out of children ends with NULL. *)
Fixpoint probe_run (parent : EFI_HANDLE) (children : list EFI_HANDLE)
    (chronological : list Event) (result : EFI_HANDLE) : Prop :=
  match children, chronological with
  | [], [] => result = NULL
  | c :: cs, EvIsCsChildDevice p c' answer :: t =>
    p = parent /\ c' = c /\
    (if answer then t = [] /\ result = c
     else probe_run parent cs t result)
  | _, _ => False
  end.

(** Events of get_cs_child. *)
Definition is_discovery_event (e : Event) : bool :=
  match e with
  | EvOpenProtocolInformation _ _ | EvIsCsChildDevice _ _ _ | EvFreePool _ => true
  | _ => false
  end.

(** check_user_password follows the options: a line feed is only written
    when the loader is not silent, and the input is echoed as the option
    enable_password_asterisk says. *)
Definition honours (options : cs_option_flags) (e : Event) : Prop :=
  match e with
  | EvOutputString s _ => silent options = false /\ s = STR_CRLF_LF_SPACE
  | EvGetInput echo _ _ => echo = enable_password_asterisk options
  | _ => True
  end.

(** How check_user_password was left, read from its newest event. *)
Definition password_exit (cfg : Build) (d : cs_enum_user_decision)
    (st : EFI_STATUS) (d' : cs_enum_user_decision) (p' : Password)
    (new : list Event) : Prop :=
  match new with
  | EvOutputString _ st0 :: _ =>
    st = st0 /\ EFI_ERROR cfg st0 = true /\ d' = d
  | EvAskForPwd _ st0 :: _ =>
    st = st0 /\ EFI_ERROR cfg st0 = true /\ d' = d
  | EvGetInput _ st0 ScanCode :: _ =>
    (st = st0 /\ EFI_ERROR cfg st0 = true /\ d' = d) \/
    (EFI_ERROR cfg st0 = false /\ ScanCode = 23 /\
     st = EFI_SUCCESS /\ d' = CS_UI_ESC_PRESSED)
  | EvDecryptVolumeHeader st0 :: _ =>
    st = st0 /\ st0 <> EFI_ACCESS_DENIED cfg /\ d' = d /\
    Length p' = strlena (Text p')
  | _ => False
  end.

(** A decrypt_volume_header call that was answered EFI_ACCESS_DENIED; other
    events pass. *)
Definition denied_attempt (cfg : Build) (e : Event) : Prop :=
  is_decrypt_call e = true -> is_denied cfg e = true.

(** Events before the Block I/O interfaces are opened, and events between
    opening and closing them. *)
Definition is_preparation_event (e : Event) : bool :=
  is_password_event e || is_discovery_event e ||
  match e with
  | EvCheckReallyDo _ | EvStartConnectFakeCryptoDriver _ _
  | EvGetBootPartitionHandle _ => true
  | _ => false
  end.

Definition is_engine_event (e : Event) : bool :=
  is_loop_event e || is_persistence_event e ||
  match e with
  | EvResetInput | EvAllocatePool _ _ | EvFreePool _ | EvOutputString _ _ => true
  | _ => false
  end.

(** Firmware whose user answers the confirmation with no. *)
Definition declining_firmware (hdr : CRYPTO_INFO) : Firmware :=
  let fw := good_firmware hdr in
  {| fw_OutputString := fw_OutputString fw;
     fw_ask_for_pwd := fw_ask_for_pwd fw;
     fw_get_input := fw_get_input fw;
     fw_decrypt_volume_header := fw_decrypt_volume_header fw;
     fw_check_really_do := fun _ => false;
     fw_start_connect_fake_crypto_driver := fw_start_connect_fake_crypto_driver fw;
     fw_get_boot_partition_handle := fw_get_boot_partition_handle fw;
     fw_OpenProtocolInformation := fw_OpenProtocolInformation fw;
     fw_is_cs_child_device := fw_is_cs_child_device fw;
     fw_OpenProtocol := fw_OpenProtocol fw;
     fw_CloseProtocol := fw_CloseProtocol fw;
     fw_AllocatePool := fw_AllocatePool fw;
     fw_MediaId := fw_MediaId fw;
     fw_ReadBlocks := fw_ReadBlocks fw;
     fw_WriteBlocks := fw_WriteBlocks fw;
     fw_check_for_ESC := fw_check_for_ESC fw;
     fw_update_volume_header := fw_update_volume_header fw |}.

(** The worlds of the examples: nothing logged yet, a volume of 1000 or of
    160 sectors of which some are encrypted. *)
Definition fresh_volume : World := example_world (example_header 1000 0).
Definition small_volume : World := example_world (example_header 160 0).
Definition small_encrypted_volume : World := example_world (example_header 160 160).
Definition nearly_done_volume : World := example_world (example_header 1000 960).
Definition corrupt_volume : World := example_world (example_header 1000 2000).

(** A volume of 1000 sectors that is encrypted to its end, and the worlds
    in which an encrypting and a decrypting run were stopped by the ESC key
    at the third poll. *)
Definition encrypted_volume : World := example_world (example_header 1000 1000).
Definition stopped_encryption : World :=
  world_of (do_encrypt_decrypt_media x86_64_build
              (third_poll_firmware (example_header 1000 0)) 101 201 true
              fresh_volume).
Definition stopped_decryption : World :=
  world_of (do_encrypt_decrypt_media x86_64_build
              (third_poll_firmware (example_header 1000 1000)) 101 201 false
              encrypted_volume).

(** ** Tactics *)

(** Sums, differences, minima and comparisons of literals, computed. *)
Ltac literals :=
  cbn [Z.add Z.sub Z.opp Z.pos_sub Z.min Z.ltb Z.compare Z.succ_double
       Z.pred_double Z.double Pos.add Pos.succ Pos.add_carry Pos.pred_double
       Pos.compare Pos.compare_cont].

(** The events of a log that were added on top of the log [t]. *)
Ltac events_above t l :=
  lazymatch l with
  | t => constr:(@nil Event)
  | ?e :: ?l' => let r := events_above t l' in constr:(e :: r)
  end.

(** * Properties *)

(** ** Machine arithmetic *)

Section Arithmetic.

Variable cfg : Build.
Hypothesis Hcfg : build_ok cfg.

Lemma UINTN_modulus_pos : 0 < 2 ^ UINTN_BITS cfg.
Proof. destruct Hcfg as [[-> | ->] _]; reflexivity. Qed.

Lemma UINTN_modulus_le : 2 ^ UINTN_BITS cfg <= 2 ^ 64.
Proof. destruct Hcfg as [[-> | ->] _]; cbv; discriminate. Qed.

Lemma UINTN_modulus_divides : (2 ^ UINTN_BITS cfg | 2 ^ 64).
Proof.
  destruct Hcfg as [[-> | ->] _].
  - exists (2 ^ 32). reflexivity.
  - exists 1. reflexivity.
Qed.

Lemma UINTN_range x : 0 <= UINTN cfg x < 2 ^ UINTN_BITS cfg.
Proof. apply Z.mod_pos_bound, UINTN_modulus_pos. Qed.

Lemma UINT64_range x : 0 <= UINT64 x < 2 ^ 64.
Proof. apply Z.mod_pos_bound. reflexivity. Qed.

Lemma UINTN_small x : 0 <= x < 2 ^ UINTN_BITS cfg -> UINTN cfg x = x.
Proof. apply Z.mod_small. Qed.

Lemma UINT64_small x : 0 <= x < 2 ^ 64 -> UINT64 x = x.
Proof. apply Z.mod_small. Qed.

Lemma UINTN_wrap x :
  - 2 ^ UINTN_BITS cfg <= x < 0 -> UINTN cfg x = x + 2 ^ UINTN_BITS cfg.
Proof.
  intros. unfold UINTN.
  rewrite <- (Z.mod_add x 1) by lia.
  rewrite Z.mul_1_l. apply Z.mod_small. lia.
Qed.

Lemma UINT64_UINTN x : UINTN cfg (UINT64 x) = UINTN cfg x.
Proof.
  unfold UINTN, UINT64.
  apply Z.mod_mod_divide, UINTN_modulus_divides.
Qed.

Lemma UINTN_add_UINT64 x y :
  UINTN cfg (UINT64 x + UINTN cfg y) = UINTN cfg (x + y).
Proof.
  unfold UINTN at 1 3.
  rewrite Z.add_mod by (pose proof UINTN_modulus_pos; lia).
  fold (UINTN cfg (UINT64 x)). rewrite UINT64_UINTN.
  unfold UINTN at 2. rewrite Z.mod_mod by (pose proof UINTN_modulus_pos; lia).
  unfold UINTN.
  rewrite <- Z.add_mod by (pose proof UINTN_modulus_pos; lia).
  reflexivity.
Qed.

Lemma UINT64_wrap_once x :
  0 <= x < 2 * 2 ^ 64 -> UINT64 x = x \/ UINT64 x = x - 2 ^ 64.
Proof.
  intros. destruct (Z_lt_ge_dec x (2 ^ 64)).
  - left. apply UINT64_small. lia.
  - right. unfold UINT64.
    rewrite <- (Z.mod_add x (-1)) by (cbv; discriminate).
    apply Z.mod_small. lia.
Qed.

Lemma UINTN_le x : 0 <= x -> UINTN cfg x <= x.
Proof. intros; apply Z.mod_le; [assumption | apply UINTN_modulus_pos]. Qed.

Lemma UINT64_le x : 0 <= x -> UINT64 x <= x.
Proof. intros; apply Z.mod_le; [assumption | reflexivity]. Qed.

Lemma shift_nonneg : 0 <= TC_LB_SIZE_BIT_SHIFT_DIVISOR cfg.
Proof. destruct Hcfg as (_ & ? & _); lia. Qed.

Lemma to_sectors_div x :
  to_sectors cfg x = x / 2 ^ TC_LB_SIZE_BIT_SHIFT_DIVISOR cfg.
Proof. apply Z.shiftr_div_pow2, shift_nonneg. Qed.

Lemma to_bytes_mul x :
  to_bytes cfg x = x * 2 ^ TC_LB_SIZE_BIT_SHIFT_DIVISOR cfg.
Proof. apply Z.shiftl_mul_pow2, shift_nonneg. Qed.

Lemma sector_size_pos : 0 < 2 ^ TC_LB_SIZE_BIT_SHIFT_DIVISOR cfg.
Proof. apply Z.pow_pos_nonneg; [lia | apply shift_nonneg]. Qed.

Lemma to_sectors_nonneg x : 0 <= x -> 0 <= to_sectors cfg x.
Proof.
  intros; rewrite to_sectors_div.
  apply Z.div_pos; [assumption | apply sector_size_pos].
Qed.

Lemma to_sectors_le x : 0 <= x -> to_sectors cfg x <= x.
Proof.
  intros; rewrite to_sectors_div.
  pose proof sector_size_pos.
  apply Z.div_le_upper_bound; nia.
Qed.

Lemma to_bytes_to_sectors_le x : 0 <= x -> to_bytes cfg (to_sectors cfg x) <= x.
Proof.
  intros; rewrite to_bytes_mul, to_sectors_div.
  pose proof sector_size_pos.
  rewrite Z.mul_comm. apply Z.mul_div_le. assumption.
Qed.

Lemma to_sectors_to_bytes x : to_sectors cfg (to_bytes cfg x) = x.
Proof.
  rewrite to_sectors_div, to_bytes_mul.
  apply Z.div_mul. pose proof sector_size_pos; lia.
Qed.

Lemma to_bytes_mono x y : x <= y -> to_bytes cfg x <= to_bytes cfg y.
Proof.
  intros; rewrite !to_bytes_mul. pose proof sector_size_pos; nia.
Qed.

Lemma to_bytes_nonneg x : 0 <= x -> 0 <= to_bytes cfg x.
Proof. intros; rewrite to_bytes_mul. pose proof sector_size_pos; nia. Qed.

Lemma EFI_ERROR_EFIERR a : EFI_ERROR cfg (EFIERR cfg a) = true.
Proof.
  unfold EFI_ERROR, EFIERR.
  assert (0 <= UINTN_BITS cfg - 1) by (destruct Hcfg as [[-> | ->] _]; lia).
  rewrite Z.lor_spec, Z.shiftl_spec, Z.sub_diag by assumption.
  reflexivity.
Qed.

Lemma EFI_ERROR_EFI_SUCCESS : EFI_ERROR cfg EFI_SUCCESS = false.
Proof. apply Z.testbit_0_l. Qed.

End Arithmetic.

(** ** Volume header state: update_blocks_in_volume_header *)

Section VolumeHeader.

Variable cfg : Build.
Hypothesis Hcfg : build_ok cfg.
Variable env : Firmware.

(** What the range check of lines 246-250 accepts. *)
Lemma update_blocks_accepts processedLba info :
  0 <= EncryptedAreaStart info ->
  (processedLba <? to_sectors cfg (EncryptedAreaStart info))
  || (UINT64 (to_sectors cfg (EncryptedAreaStart info)
              + UINTN cfg (to_sectors cfg (VolumeSize info))) <? processedLba)
  = false ->
  0 <= processedLba - to_sectors cfg (EncryptedAreaStart info)
    <= UINTN cfg (to_sectors cfg (VolumeSize info)).
Proof.
  intros Hstart Hchk.
  apply orb_false_iff in Hchk as [H1 H2].
  apply Z.ltb_ge in H1, H2.
  pose proof (to_sectors_nonneg cfg Hcfg _ Hstart).
  pose proof (UINTN_range cfg Hcfg (to_sectors cfg (VolumeSize info))).
  pose proof (UINT64_le (to_sectors cfg (EncryptedAreaStart info)
              + UINTN cfg (to_sectors cfg (VolumeSize info)))).
  lia.
Qed.

Lemma update_blocks_header_inv processedLba encrypt w :
  wf_header (crypto_info w) ->
  header_inv (crypto_info w) ->
  Forall persistence_inv (trace w) ->
  let w' := world_of (update_blocks_in_volume_header cfg env processedLba encrypt w) in
  wf_header (crypto_info w') /\ header_inv (crypto_info w') /\
  Forall persistence_inv (trace w').
Proof.
  intros Hwf Hinv Htr.
  unfold update_blocks_in_volume_header, bind, call, get_crypto_info,
    put_crypto_info, ret; cbn.
  destruct (_ || _) eqn:Hchk; cbn.
  - repeat split; try apply Hwf; try apply Hinv.
    constructor; [exact Hinv | exact Htr].
  - destruct Hwf as (Hs & He & Hv).
    apply update_blocks_accepts in Hchk; [| lia].
    set (n := processedLba - to_sectors cfg (EncryptedAreaStart (crypto_info w))) in *.
    set (V := to_sectors cfg (VolumeSize (crypto_info w))) in *.
    assert (HV : 0 <= V) by (apply to_sectors_nonneg; [exact Hcfg | lia]).
    pose proof (UINTN_le cfg Hcfg V HV) as HVle.
    pose proof (UINTN_range cfg Hcfg V) as HVr.
    assert (Hn : UINTN cfg n = n) by (apply UINTN_small; lia).
    rewrite Hn.
    assert (Hb : 0 <= to_bytes cfg n <= VolumeSize (crypto_info w)).
    { split; [apply to_bytes_nonneg; [exact Hcfg | lia] |].
      transitivity (to_bytes cfg V);
        [apply to_bytes_mono; [exact Hcfg | lia]
        | apply to_bytes_to_sectors_le; [exact Hcfg | lia]]. }
    pose proof (UINTN_le cfg Hcfg (to_bytes cfg n) (proj1 Hb)).
    pose proof (UINTN_range cfg Hcfg (to_bytes cfg n)).
    assert (Hnew : header_inv
              (set_EncryptedAreaLength (UINTN cfg (to_bytes cfg n)) (crypto_info w))).
    { unfold header_inv; cbn; lia. }
    repeat split; cbn; try lia.
    constructor; [exact Hnew |]. constructor; [exact Hinv | exact Htr].
Qed.

(** C4: a processedLba outside [startSector, startSector + sectorsInVolume]
    makes update_blocks_in_volume_header return EFI_VOLUME_CORRUPTED; the
    header is left as it was and update_volume_header is not called (the only
    new log entry is the entry of the function itself). *)
Theorem update_blocks_out_of_range_is_volume_corrupted processedLba encrypt w :
  0 <= EncryptedAreaStart (crypto_info w) ->
  let startSector := to_sectors cfg (EncryptedAreaStart (crypto_info w)) in
  let sectorsInVolume := UINTN cfg (to_sectors cfg (VolumeSize (crypto_info w))) in
  processedLba < startSector \/ startSector + sectorsInVolume < processedLba ->
  exists w',
    update_blocks_in_volume_header cfg env processedLba encrypt w
      = Returned (EFI_VOLUME_CORRUPTED cfg) w' /\
    crypto_info w' = crypto_info w /\
    trace w' = EvUpdateBlocksInVolumeHeader processedLba (crypto_info w) encrypt
                 :: trace w /\
    count is_update_volume_header (trace w')
      = count is_update_volume_header (trace w).
Proof.
  intros Hstart startSector sectorsInVolume Hout.
  unfold update_blocks_in_volume_header, bind, call, get_crypto_info, ret; cbn.
  fold startSector sectorsInVolume.
  assert (Hchk : (processedLba <? startSector)
                 || (UINT64 (startSector + sectorsInVolume) <? processedLba) = true).
  { apply orb_true_iff.
    destruct Hout as [Hlt | Hgt]; [left | right]; apply Z.ltb_lt; [exact Hlt |].
    pose proof (to_sectors_nonneg cfg Hcfg _ Hstart).
    pose proof (UINTN_range cfg Hcfg (to_sectors cfg (VolumeSize (crypto_info w)))).
    pose proof (UINT64_le (startSector + sectorsInVolume)).
    subst startSector sectorsInVolume. lia. }
  rewrite Hchk.
  eexists; repeat split.
Qed.

End VolumeHeader.

(** ** Conversion engine: the copy loop *)

Section Engine.

Variable cfg : Build.
Hypothesis Hcfg : build_ok cfg.
Variable env : Firmware.

Lemma copy_loop_world fuel encrypt source dest startSector V : forall l w,
  let w' := world_of (copy_loop cfg env fuel encrypt source dest startSector V l w) in
  crypto_info w' = crypto_info w /\
  exists new, trace w' = new ++ trace w /\
              Forall (fun e => is_loop_event e = true) new.
Proof.
  induction fuel as [| fuel IH]; intros l w; cbn [copy_loop].
  - destruct (0 <? numberSectors l); cbn; (split; [reflexivity | exists []; auto]).
  - destruct (0 <? numberSectors l); cbn; [| split; [reflexivity | exists []; auto]].
    unfold bind, ReadBlocks, WriteBlocks, check_for_ESC, dump_per_cent, call, ret.
    cbn.
    destruct (EFI_ERROR cfg (fw_ReadBlocks _ _ _ _ _ _)); cbn.
    { split; [reflexivity |]. eexists [_]; split; [reflexivity | auto]. }
    destruct (EFI_ERROR cfg (fw_WriteBlocks _ _ _ _ _ _)); cbn.
    { split; [reflexivity |]. eexists [_; _]; split; [reflexivity | auto]. }
    destruct (0 <? V); cbn.
    + destruct (fw_check_for_ESC _ _) eqn:Hesc; cbn.
      { split; [reflexivity |]. eexists [_; _; _; _]; split; [reflexivity |].
        repeat constructor. }
      match goal with
      | |- context [copy_loop _ _ _ _ _ _ _ _ ?l' ?w'] =>
        destruct (IH l' w') as (Hc & new & Ht & Hall)
      end.
      rewrite Hc, Ht; cbn. split; [reflexivity |].
      eexists (new ++ [_; _; _; _]). rewrite <- app_assoc. split; [reflexivity |].
      apply Forall_app; split; [exact Hall | repeat constructor].
    + destruct (fw_check_for_ESC _ _) eqn:Hesc; cbn.
      { split; [reflexivity |]. eexists [_; _; _]; split; [reflexivity |].
        repeat constructor. }
      match goal with
      | |- context [copy_loop _ _ _ _ _ _ _ _ ?l' ?w'] =>
        destruct (IH l' w') as (Hc & new & Ht & Hall)
      end.
      rewrite Hc, Ht; cbn. split; [reflexivity |].
      eexists (new ++ [_; _; _]). rewrite <- app_assoc. split; [reflexivity |].
      apply Forall_app; split; [exact Hall | repeat constructor].
Qed.

(** What holds of the locals at loop entry and is kept by every iteration
    still holds when the loop returns. *)
Lemma copy_loop_invariant (P : Locals -> Prop) encrypt source dest startSector V :
  (forall l e, P l -> P (set_error e l)) ->
  (forall l, P l -> 0 < numberSectors l -> P (advance cfg encrypt l)) ->
  forall fuel l w l' w',
    P l ->
    copy_loop cfg env fuel encrypt source dest startSector V l w = Returned l' w' ->
    P l'.
Proof.
  intros Herr Hadv.
  induction fuel as [| fuel IH]; intros l w l' w' HP; cbn [copy_loop];
    destruct (0 <? numberSectors l) eqn:Hpos; cbn;
    try discriminate; try (intros [= <- <-]; exact HP).
  apply Z.ltb_lt in Hpos.
  unfold bind, ReadBlocks, WriteBlocks, check_for_ESC, dump_per_cent, call, ret.
  cbn.
  destruct (EFI_ERROR cfg (fw_ReadBlocks _ _ _ _ _ _)); cbn.
  { intros [= <- <-]. apply Herr, HP. }
  destruct (EFI_ERROR cfg (fw_WriteBlocks _ _ _ _ _ _)); cbn.
  { intros [= <- <-]. apply Herr, Herr, HP. }
  destruct (0 <? V); cbn;
    (destruct (fw_check_for_ESC _ _); cbn;
     [ intros [= <- <-]; apply Hadv; [apply Herr, Herr, HP | exact Hpos]
     | apply IH; apply Hadv; [apply Herr, Herr, HP | exact Hpos] ]).
Qed.

(** Without a pending ESC key the loop is left through its condition or
    through a failed transfer. *)
Lemma copy_loop_exit encrypt source dest startSector V :
  (forall t, fw_check_for_ESC env t = false) ->
  forall fuel l w l' w',
    copy_loop cfg env fuel encrypt source dest startSector V l w = Returned l' w' ->
    (0 <? numberSectors l') = false \/
    exists e, error l' = Some e /\ EFI_ERROR cfg e = true.
Proof.
  intros Hesc.
  induction fuel as [| fuel IH]; intros l w l' w'; cbn [copy_loop];
    destruct (0 <? numberSectors l) eqn:Hpos; cbn;
    try discriminate; try (intros [= <- <-]; left; exact Hpos).
  unfold bind, ReadBlocks, WriteBlocks, check_for_ESC, dump_per_cent, call, ret.
  cbn.
  destruct (EFI_ERROR cfg (fw_ReadBlocks _ _ _ _ _ _)) eqn:Hr; cbn.
  { intros [= <- <-]. right; eexists; split; [reflexivity | exact Hr]. }
  destruct (EFI_ERROR cfg (fw_WriteBlocks _ _ _ _ _ _)) eqn:Hw; cbn.
  { intros [= <- <-]. right; eexists; split; [reflexivity | exact Hw]. }
  destruct (0 <? V); cbn; rewrite Hesc; apply IH.
Qed.

Lemma loop_bound_measure l : loop_bound cfg l = Z.to_nat (loop_measure cfg l).
Proof.
  unfold loop_bound, loop_measure. destruct (numberSectors l =? 0); reflexivity.
Qed.

Lemma advance_progress encrypt l :
  loop_ready cfg l -> 0 < numberSectors l ->
  loop_ready cfg (advance cfg encrypt l) /\
  loop_measure cfg (advance cfg encrypt l) < loop_measure cfg l.
Proof.
  intros (Hn & Hb & Hgo) Hpos.
  unfold loop_ready, loop_measure, advance; cbn.
  pose proof (UINTN_range cfg Hcfg (numberSectors l - bufferSectors l)) as Hr.
  assert (Hn1 : (bufferSectors l <= numberSectors l /\
                 UINTN cfg (numberSectors l - bufferSectors l)
                 = numberSectors l - bufferSectors l) \/
                (numberSectors l < bufferSectors l /\
                 UINTN cfg (numberSectors l - bufferSectors l)
                 = numberSectors l - bufferSectors l + 2 ^ UINTN_BITS cfg)).
  { destruct (Z_le_gt_dec (bufferSectors l) (numberSectors l)).
    - left; split; [assumption | apply UINTN_small; lia].
    - right; split; [lia | apply UINTN_wrap; lia]. }
  set (n1 := UINTN cfg (numberSectors l - bufferSectors l)) in *.
  repeat match goal with
         | |- context [?a <? ?b] => destruct (Z.ltb_spec a b)
         | |- context [?a <=? ?b] => destruct (Z.leb_spec a b)
         | |- context [?a =? ?b] => destruct (Z.eqb_spec a b)
         end; lia.
Qed.

(** With the bound of [loop_bound] the loop always returns. *)
Lemma copy_loop_terminates encrypt source dest startSector V :
  forall fuel l w,
    loop_ready cfg l -> loop_measure cfg l <= Z.of_nat fuel ->
    exists l' w',
      copy_loop cfg env fuel encrypt source dest startSector V l w
      = Returned l' w'.
Proof.
  induction fuel as [| fuel IH]; intros l w Hready Hm; cbn [copy_loop];
    destruct (0 <? numberSectors l) eqn:Hpos;
    try (do 2 eexists; reflexivity).
  - exfalso. apply Z.ltb_lt in Hpos. unfold loop_measure in Hm.
    destruct Hready as (Hn & Hb & _).
    destruct (numberSectors l =? 0) eqn:E0; [apply Z.eqb_eq in E0; lia |].
    pose proof (UINTN_modulus_pos cfg Hcfg).
    destruct (bufferSectors l <=? numberSectors l); cbn in Hm; lia.
  - apply Z.ltb_lt in Hpos.
    unfold bind, ReadBlocks, WriteBlocks, check_for_ESC, dump_per_cent, call, ret.
    cbn.
    destruct (EFI_ERROR cfg (fw_ReadBlocks _ _ _ _ _ _)); cbn;
      [do 2 eexists; reflexivity |].
    destruct (EFI_ERROR cfg (fw_WriteBlocks _ _ _ _ _ _)); cbn;
      [do 2 eexists; reflexivity |].
    match goal with
    | |- context [advance cfg encrypt ?l1] =>
      assert (Hadv : loop_ready cfg (advance cfg encrypt l1) /\
                     loop_measure cfg (advance cfg encrypt l1)
                     < loop_measure cfg l)
        by (apply (advance_progress encrypt l1); [exact Hready | exact Hpos])
    end.
    destruct Hadv as [Hr' Hm'].
    destruct (0 <? V); cbn;
      (destruct (fw_check_for_ESC _ _); cbn;
       [do 2 eexists; reflexivity | apply IH; [exact Hr' | lia]]).
Qed.

Lemma setup_ready encrypt info : loop_ready cfg (setup_locals cfg encrypt info).
Proof.
  destruct Hcfg as (HW & Hs & Hcap).
  assert (Hc : UINTN cfg (CS_SERVICE_NUMBER_SECTORS cfg)
               = CS_SERVICE_NUMBER_SECTORS cfg)
    by (apply UINTN_small; lia).
  unfold loop_ready, setup_locals, numberEncryptedSectors, sectorsInVolume; cbn.
  rewrite Hc.
  pose proof (UINTN_range cfg Hcfg
                (to_sectors cfg (EncryptedAreaLength info))) as HE.
  pose proof (UINTN_range cfg Hcfg
                (UINTN cfg (to_sectors cfg (VolumeSize info))
                 - UINTN cfg (to_sectors cfg (EncryptedAreaLength info)))) as HN.
  destruct encrypt; [lia |].
  destruct (Z.ltb_spec (UINTN cfg (to_sectors cfg (EncryptedAreaLength info)))
                       (CS_SERVICE_NUMBER_SECTORS cfg)); lia.
Qed.

(** The check of line 302 compares the two sector counts. *)
Lemma consistency_check info :
  (UINT64 (0 + sectorsInVolume cfg info)
   <? UINT64 (0 + numberEncryptedSectors cfg info))
  = (sectorsInVolume cfg info <? numberEncryptedSectors cfg info).
Proof.
  unfold sectorsInVolume, numberEncryptedSectors.
  pose proof (UINTN_modulus_le cfg Hcfg).
  pose proof (UINTN_range cfg Hcfg (to_sectors cfg (VolumeSize info))).
  pose proof (UINTN_range cfg Hcfg (to_sectors cfg (EncryptedAreaLength info))).
  rewrite !Z.add_0_l, !UINT64_small by lia. reflexivity.
Qed.

Lemma do_encrypt_decrypt_media_inconsistent p c encrypt w :
  (sectorsInVolume cfg (crypto_info w)
   <? numberEncryptedSectors cfg (crypto_info w)) = true ->
  do_encrypt_decrypt_media cfg env p c encrypt w
  = Returned (EFI_VOLUME_CORRUPTED cfg) w.
Proof.
  intros Hchk. unfold do_encrypt_decrypt_media, bind, get_crypto_info.
  cbv beta iota zeta.
  rewrite consistency_check, Hchk. reflexivity.
Qed.

Lemma do_encrypt_decrypt_media_no_buffer p c encrypt w :
  (sectorsInVolume cfg (crypto_info w)
   <? numberEncryptedSectors cfg (crypto_info w)) = false ->
  fw_AllocatePool env (EvResetInput :: trace w)
    (UINTN cfg (to_bytes cfg (CS_SERVICE_NUMBER_SECTORS cfg))) = None ->
  do_encrypt_decrypt_media cfg env p c encrypt w
  = Returned (EFI_OUT_OF_RESOURCES cfg)
      (log (EvAllocatePool
              (UINTN cfg (to_bytes cfg (CS_SERVICE_NUMBER_SECTORS cfg))) None)
           (log EvResetInput w)).
Proof.
  intros Hchk Halloc.
  unfold do_encrypt_decrypt_media, bind, get_crypto_info, reset_input,
    AllocatePool, call, read_local, ret.
  cbv beta iota zeta.
  rewrite consistency_check, Hchk. cbn [trace log]. rewrite Halloc.
  cbn [error set_error].
  unfold EFI_OUT_OF_RESOURCES. rewrite EFI_ERROR_EFIERR by exact Hcfg.
  reflexivity.
Qed.

(** With a consistent header and a buffer, the function is the copy loop
    followed by the test of [error] in line 393. *)
Lemma do_encrypt_decrypt_media_run p c encrypt w buffer :
  (sectorsInVolume cfg (crypto_info w)
   <? numberEncryptedSectors cfg (crypto_info w)) = false ->
  fw_AllocatePool env (EvResetInput :: trace w)
    (UINTN cfg (to_bytes cfg (CS_SERVICE_NUMBER_SECTORS cfg))) = Some buffer ->
  let info := crypto_info w in
  let l0 := setup_locals cfg encrypt info in
  let w1 := log (EvAllocatePool
                   (UINTN cfg (to_bytes cfg (CS_SERVICE_NUMBER_SECTORS cfg)))
                   (Some buffer)) (log EvResetInput w) in
  exists l' w2,
    copy_loop cfg env (loop_bound cfg l0) encrypt
      (if encrypt then c else p) (if encrypt then p else c)
      0 (sectorsInVolume cfg info) l0 w1 = Returned l' w2 /\
    crypto_info w2 = info /\
    (exists new, trace w2 = new ++ trace w1 /\
                 Forall (fun e => is_loop_event e = true) new) /\
    do_encrypt_decrypt_media cfg env p c encrypt w =
    match error l' with
    | None => UninitRead (log (EvFreePool buffer) w2)
    | Some e =>
      if EFI_ERROR cfg e then Returned e (log (EvFreePool buffer) w2)
      else update_blocks_in_volume_header cfg env
             (processed_lba cfg encrypt info l') encrypt
             (log (EvFreePool buffer) w2)
    end.
Proof.
  intros Hchk Halloc info l0 w1.
  destruct (copy_loop_terminates encrypt
              (if encrypt then c else p) (if encrypt then p else c)
              0 (sectorsInVolume cfg info) (loop_bound cfg l0) l0 w1)
    as (l' & w2 & Hloop).
  { apply setup_ready. }
  { rewrite loop_bound_measure.
    destruct (Z.le_ge_cases 0 (loop_measure cfg l0)).
    - rewrite Z2Nat.id by assumption. lia.
    - lia. }
  exists l', w2.
  pose proof (copy_loop_world (loop_bound cfg l0) encrypt
                (if encrypt then c else p) (if encrypt then p else c)
                0 (sectorsInVolume cfg info) l0 w1) as Hw.
  cbn zeta in Hw. rewrite Hloop in Hw. cbn [world_of] in Hw.
  destruct Hw as (Hci & Hnew).
  repeat split; [exact Hloop | exact Hci | exact Hnew |].
  unfold do_encrypt_decrypt_media, bind, get_crypto_info,
    reset_input, AllocatePool, FreePool, call, read_local, ret.
  cbv beta iota zeta.
  rewrite consistency_check, Hchk. cbn [trace log]. rewrite Halloc.
  fold info. fold l0. change (log _ (log EvResetInput w)) with w1.
  rewrite Hloop.
  destruct (error l') as [e |]; [| reflexivity].
  destruct (EFI_ERROR cfg e); cbn [negb]; [reflexivity |].
  cbn [crypto_info log]. rewrite Hci. reflexivity.
Qed.

(** The same, read from the result of the loop. *)
Lemma do_encrypt_decrypt_media_after_loop p c encrypt w buffer l' w2 :
  (sectorsInVolume cfg (crypto_info w)
   <? numberEncryptedSectors cfg (crypto_info w)) = false ->
  fw_AllocatePool env (EvResetInput :: trace w)
    (UINTN cfg (to_bytes cfg (CS_SERVICE_NUMBER_SECTORS cfg))) = Some buffer ->
  copy_loop cfg env (loop_bound cfg (setup_locals cfg encrypt (crypto_info w)))
    encrypt (if encrypt then c else p) (if encrypt then p else c)
    0 (sectorsInVolume cfg (crypto_info w))
    (setup_locals cfg encrypt (crypto_info w))
    (log (EvAllocatePool
            (UINTN cfg (to_bytes cfg (CS_SERVICE_NUMBER_SECTORS cfg)))
            (Some buffer)) (log EvResetInput w)) = Returned l' w2 ->
  do_encrypt_decrypt_media cfg env p c encrypt w =
  match error l' with
  | None => UninitRead (log (EvFreePool buffer) w2)
  | Some e =>
    if EFI_ERROR cfg e then Returned e (log (EvFreePool buffer) w2)
    else update_blocks_in_volume_header cfg env
           (processed_lba cfg encrypt (crypto_info w) l') encrypt
           (log (EvFreePool buffer) w2)
  end.
Proof.
  intros Hchk Halloc Hloop.
  destruct (do_encrypt_decrypt_media_run p c encrypt w buffer Hchk Halloc)
    as (l'' & w2' & Hloop' & _ & _ & Hrun).
  rewrite Hloop in Hloop'. injection Hloop' as <- <-. exact Hrun.
Qed.

Lemma loop_events_persistence_inv new :
  Forall (fun e => is_loop_event e = true) new -> Forall persistence_inv new.
Proof.
  apply Forall_impl. intros [] H; try discriminate H; exact I.
Qed.

Lemma loop_events_count f new t :
  (forall e, is_loop_event e = true -> f e = false) ->
  Forall (fun e => is_loop_event e = true) new ->
  count f (new ++ t) = count f t.
Proof.
  intros Hf Hall. unfold count. rewrite filter_app, length_app.
  induction Hall as [| e new He _ IH]; [reflexivity |].
  cbn. rewrite (Hf e He). exact IH.
Qed.

(** C7: a header with 0 <= EncryptedAreaLength <= VolumeSize keeps this
    property through update_blocks_in_volume_header, whatever processedLba it
    is given, and through a whole run of do_encrypt_decrypt_media; the header
    that any persistence step of the run is entered with or hands to
    update_volume_header has the property too. *)
Theorem header_invariant_around_persistence w :
  wf_header (crypto_info w) ->
  header_inv (crypto_info w) ->
  Forall persistence_inv (trace w) ->
  (forall processedLba encrypt,
     let w' := world_of (update_blocks_in_volume_header cfg env
                           processedLba encrypt w) in
     header_inv (crypto_info w') /\ Forall persistence_inv (trace w')) /\
  (forall parentBlockIo childBlockIo encrypt,
     let w' := world_of (do_encrypt_decrypt_media cfg env
                           parentBlockIo childBlockIo encrypt w) in
     header_inv (crypto_info w') /\ Forall persistence_inv (trace w')).
Proof.
  intros Hwf Hinv Htr. split.
  - intros processedLba encrypt.
    apply (update_blocks_header_inv cfg Hcfg env processedLba encrypt w Hwf Hinv Htr).
  - intros p c encrypt.
    destruct (sectorsInVolume cfg (crypto_info w)
              <? numberEncryptedSectors cfg (crypto_info w)) eqn:Hchk.
    { rewrite do_encrypt_decrypt_media_inconsistent by exact Hchk.
      split; assumption. }
    destruct (fw_AllocatePool env (EvResetInput :: trace w)
                (UINTN cfg (to_bytes cfg (CS_SERVICE_NUMBER_SECTORS cfg))))
      as [buffer |] eqn:Halloc.
    2:{ rewrite do_encrypt_decrypt_media_no_buffer by assumption.
        cbn. split; [assumption |]. repeat constructor; assumption. }
    destruct (do_encrypt_decrypt_media_run p c encrypt w buffer Hchk Halloc)
      as (l' & w2 & _ & Hci & (new & Hnew & Hall) & Hrun).
    rewrite Hrun.
    assert (Htr2 : Forall persistence_inv (trace (log (EvFreePool buffer) w2))).
    { cbn. rewrite Hnew. constructor; [exact I |].
      apply Forall_app; split; [apply loop_events_persistence_inv, Hall |].
      cbn. repeat constructor; assumption. }
    destruct (error l') as [e |]; [| cbn [world_of]; cbn [crypto_info log];
                                     rewrite Hci; split; assumption].
    destruct (EFI_ERROR cfg e).
    + cbn [world_of]; cbn [crypto_info log]. rewrite Hci; split; assumption.
    + apply (update_blocks_header_inv cfg Hcfg env); cbn [crypto_info log];
        rewrite ?Hci; assumption.
Qed.

(** C10: with no sector to process (encrypt with EncryptedAreaLength equal to
    VolumeSize, decrypt with EncryptedAreaLength 0) and a buffer allocated,
    the loop body does not run, no block is read or written, and line 393
    reads [error] although no statement has assigned it. *)
Theorem zero_sectors_read_of_unassigned_status
    (parentBlockIo childBlockIo : EFI_BLOCK_IO) (encrypt : bool) (w : World)
    (buffer : Z) :
  EncryptedAreaLength (crypto_info w)
  = (if encrypt then VolumeSize (crypto_info w) else 0) ->
  fw_AllocatePool env (EvResetInput :: trace w)
    (UINTN cfg (to_bytes cfg (CS_SERVICE_NUMBER_SECTORS cfg))) = Some buffer ->
  do_encrypt_decrypt_media cfg env parentBlockIo childBlockIo encrypt w
  = UninitRead
      {| crypto_info := crypto_info w;
         trace := EvFreePool buffer
                  :: EvAllocatePool
                       (UINTN cfg (to_bytes cfg (CS_SERVICE_NUMBER_SECTORS cfg)))
                       (Some buffer)
                  :: EvResetInput :: trace w |}.
Proof.
  intros Hzero Halloc.
  assert (Hn : numberSectors (setup_locals cfg encrypt (crypto_info w)) = 0
               /\ (sectorsInVolume cfg (crypto_info w)
                    <? numberEncryptedSectors cfg (crypto_info w)) = false).
  { unfold setup_locals, sectorsInVolume, numberEncryptedSectors; cbn.
    destruct encrypt; rewrite Hzero.
    - rewrite Z.sub_diag, Z.ltb_irrefl. split; reflexivity.
    - unfold to_sectors at 1 3. rewrite Z.shiftr_0_l.
      split; [reflexivity |]. apply Z.ltb_ge.
      apply (UINTN_range cfg Hcfg). }
  destruct Hn as [Hn Hchk].
  destruct (do_encrypt_decrypt_media_run parentBlockIo childBlockIo encrypt w
              buffer Hchk Halloc) as (l' & w2 & Hloop & _ & _ & Hrun).
  unfold loop_bound in Hloop. rewrite Hn in Hloop. cbn [Z.eqb copy_loop] in Hloop.
  rewrite Hn in Hloop. cbn in Hloop. injection Hloop as <- <-.
  rewrite Hrun. reflexivity.
Qed.

(** Either the body never ran, or [error] is the status of the last
    transfer that was tried. *)
Lemma copy_loop_error_last encrypt source dest startSector V :
  forall fuel l w l' w',
    copy_loop cfg env fuel encrypt source dest startSector V l w = Returned l' w' ->
    (l' = l /\ w' = w /\ (0 <? numberSectors l) = false) \/
    (exists e, error l' = Some e /\ last_transfer_status (trace w') = Some e).
Proof.
  induction fuel as [| fuel IH]; intros l w l' w'; cbn [copy_loop];
    destruct (0 <? numberSectors l) eqn:Hpos; cbn;
    try discriminate; try (intros [= <- <-]; left; auto).
  unfold bind, ReadBlocks, WriteBlocks, check_for_ESC, dump_per_cent, call, ret.
  cbn.
  destruct (EFI_ERROR cfg (fw_ReadBlocks _ _ _ _ _ _)); cbn.
  { intros [= <- <-]. right; eexists; split; reflexivity. }
  destruct (EFI_ERROR cfg (fw_WriteBlocks _ _ _ _ _ _)); cbn.
  { intros [= <- <-]. right; eexists; split; reflexivity. }
  destruct (0 <? V); cbn;
    (destruct (fw_check_for_ESC _ _); cbn;
     [ intros [= <- <-]; right; eexists; split; reflexivity
     | intros Hrec; destruct (IH _ _ _ _ Hrec) as [(-> & -> & _) | Hlast];
       [ right; eexists; split; reflexivity | right; exact Hlast ] ]).
Qed.

Lemma update_blocks_call_count processedLba encrypt w :
  count is_update_blocks_call
    (trace (world_of (update_blocks_in_volume_header cfg env
                        processedLba encrypt w)))
  = S (count is_update_blocks_call (trace w)).
Proof.
  unfold update_blocks_in_volume_header, bind, call, get_crypto_info,
    put_crypto_info, update_volume_header, ret; cbn.
  destruct (_ || _); reflexivity.
Qed.

(** C1, as amended: with a buffer allocated and at least one sector to
    process, the loop returns with [error] holding the status of the last
    transfer that was tried. If that status is an error (a failed ReadBlocks
    or WriteBlocks), the function returns it and does not enter
    update_blocks_in_volume_header. Otherwise (all sectors done, or ESC) the
    function ends in exactly one call of update_blocks_in_volume_header, given
    the final cursor made relative to the disk, and returns its result. *)
Theorem persistence_step_after_copy_loop
    (parentBlockIo childBlockIo : EFI_BLOCK_IO) (encrypt : bool) (w : World)
    (buffer : Z) :
  (sectorsInVolume cfg (crypto_info w)
   <? numberEncryptedSectors cfg (crypto_info w)) = false ->
  fw_AllocatePool env (EvResetInput :: trace w)
    (UINTN cfg (to_bytes cfg (CS_SERVICE_NUMBER_SECTORS cfg))) = Some buffer ->
  0 < numberSectors (setup_locals cfg encrypt (crypto_info w)) ->
  let info := crypto_info w in
  let l0 := setup_locals cfg encrypt info in
  let w1 := log (EvAllocatePool
                   (UINTN cfg (to_bytes cfg (CS_SERVICE_NUMBER_SECTORS cfg)))
                   (Some buffer)) (log EvResetInput w) in
  let result :=
    do_encrypt_decrypt_media cfg env parentBlockIo childBlockIo encrypt w in
  exists l' w2 e,
    copy_loop cfg env (loop_bound cfg l0) encrypt
      (if encrypt then childBlockIo else parentBlockIo)
      (if encrypt then parentBlockIo else childBlockIo)
      0 (sectorsInVolume cfg info) l0 w1 = Returned l' w2 /\
    error l' = Some e /\
    last_transfer_status (trace w2) = Some e /\
    if EFI_ERROR cfg e
    then result = Returned e (log (EvFreePool buffer) w2) /\
         count is_update_blocks_call (trace (world_of result))
         = count is_update_blocks_call (trace w)
    else result = update_blocks_in_volume_header cfg env
                    (processed_lba cfg encrypt info l') encrypt
                    (log (EvFreePool buffer) w2) /\
         count is_update_blocks_call (trace (world_of result))
         = S (count is_update_blocks_call (trace w)).
Proof.
  intros Hchk Halloc Hpos info l0 w1 result.
  destruct (do_encrypt_decrypt_media_run parentBlockIo childBlockIo encrypt w
              buffer Hchk Halloc) as (l' & w2 & Hloop & _ & (new & Hnew & Hall) & Hrun).
  fold info l0 w1 in Hloop, Hnew. fold info result in Hrun.
  destruct (copy_loop_error_last _ _ _ _ _ _ _ _ _ _ Hloop)
    as [(_ & _ & Hno) | (e & He & Hlast)].
  { apply Z.ltb_ge in Hno. fold info l0 in Hpos. lia. }
  exists l', w2, e. rewrite He in Hrun.
  repeat split; [exact Hloop | exact He | exact Hlast |].
  assert (Hcount : count is_update_blocks_call (trace (log (EvFreePool buffer) w2))
                   = count is_update_blocks_call (trace w)).
  { cbn [trace log]. change (count is_update_blocks_call (EvFreePool buffer :: trace w2))
      with (count is_update_blocks_call (trace w2)).
    rewrite Hnew. rewrite loop_events_count; [reflexivity | | exact Hall].
    intros []; intros H; try discriminate H; reflexivity. }
  destruct (EFI_ERROR cfg e).
  - split; [exact Hrun |]. rewrite Hrun. exact Hcount.
  - split; [exact Hrun |]. rewrite Hrun, update_blocks_call_count, Hcount.
    reflexivity.
Qed.

(** The forward sweep: cursor plus remaining sectors stays the same modulo
    the width of UINTN. *)
Lemma copy_loop_encrypt_cursor source dest startSector V fuel l w l' w' :
  loop_ready cfg l -> 0 <= lba l < 2 ^ 64 ->
  copy_loop cfg env fuel true source dest startSector V l w = Returned l' w' ->
  0 <= lba l' < 2 ^ 64 /\ 0 <= numberSectors l' /\
  UINTN cfg (lba l' + numberSectors l') = UINTN cfg (lba l + numberSectors l).
Proof.
  intros Hready Hlba Hrun.
  pose (P := fun x : Locals =>
               loop_ready cfg x /\ 0 <= lba x < 2 ^ 64 /\
               UINTN cfg (lba x + numberSectors x)
               = UINTN cfg (lba l + numberSectors l)).
  assert (HP : P l') .
  { apply (copy_loop_invariant P true source dest startSector V) with (4 := Hrun).
    - intros x e Hx. exact Hx.
    - intros x (Hr & Hl & Hsum) Hpos. split; [| split].
      + apply advance_progress; assumption.
      + unfold advance; cbn. apply UINT64_range.
      + unfold advance; cbn.
        rewrite UINTN_add_UINT64 by exact Hcfg. rewrite <- Hsum. f_equal. lia.
    - split; [exact Hready | split; [exact Hlba | reflexivity]]. }
  destruct HP as ((Hn & _) & Hl & Hsum). repeat split; try lia; exact Hsum.
Qed.

(** The backward sweep: the cursor is the remaining count less the chunk that
    is about to be copied. *)
Lemma copy_loop_decrypt_cursor source dest startSector V fuel l w l' w' :
  0 <= bufferSectors l <= numberSectors l ->
  numberSectors l < 2 ^ UINTN_BITS cfg ->
  lba l = numberSectors l - bufferSectors l ->
  copy_loop cfg env fuel false source dest startSector V l w = Returned l' w' ->
  0 <= bufferSectors l' <= numberSectors l' /\
  lba l' = numberSectors l' - bufferSectors l'.
Proof.
  intros Hb Hn Hlba Hrun.
  pose (P := fun x : Locals =>
               0 <= bufferSectors x <= numberSectors x /\
               numberSectors x < 2 ^ UINTN_BITS cfg /\
               lba x = numberSectors x - bufferSectors x).
  assert (HP : P l').
  { apply (copy_loop_invariant P false source dest startSector V) with (4 := Hrun).
    - intros x e Hx. exact Hx.
    - intros x (Hbx & Hnx & Hlx) Hpos. unfold P, advance; cbn.
      pose proof (UINTN_modulus_le cfg Hcfg).
      rewrite (UINTN_small cfg (numberSectors x - bufferSectors x)) by lia.
      destruct (Z.ltb_spec (numberSectors x - bufferSectors x) (bufferSectors x));
        rewrite Hlx, UINT64_small by lia; lia.
    - split; [exact Hb | split; [exact Hn | exact Hlba]]. }
  destruct HP as (H1 & _ & H2). split; assumption.
Qed.

(** A result that is no error comes from the accepting branch of
    update_blocks_in_volume_header. *)
Lemma update_blocks_no_error processedLba encrypt w st w' :
  0 <= EncryptedAreaStart (crypto_info w) ->
  update_blocks_in_volume_header cfg env processedLba encrypt w = Returned st w' ->
  EFI_ERROR cfg st = false ->
  0 <= processedLba - to_sectors cfg (EncryptedAreaStart (crypto_info w))
    <= sectorsInVolume cfg (crypto_info w) /\
  crypto_info w'
  = set_EncryptedAreaLength
      (UINTN cfg (to_bytes cfg
         (UINTN cfg (processedLba
                     - to_sectors cfg (EncryptedAreaStart (crypto_info w))))))
      (crypto_info w).
Proof.
  intros Hstart.
  unfold update_blocks_in_volume_header, bind, call, get_crypto_info,
    put_crypto_info, update_volume_header, ret; cbn.
  destruct (_ || _) eqn:Hchk.
  - intros [= <- <-] Herr. unfold EFI_VOLUME_CORRUPTED in Herr.
    rewrite EFI_ERROR_EFIERR in Herr by exact Hcfg. discriminate.
  - intros [= <- <-] _. split; [| reflexivity].
    apply update_blocks_accepts; assumption.
Qed.

Lemma update_blocks_returns processedLba encrypt w :
  exists st w',
    update_blocks_in_volume_header cfg env processedLba encrypt w
    = Returned st w'.
Proof.
  unfold update_blocks_in_volume_header, bind, call, get_crypto_info,
    put_crypto_info, update_volume_header, ret; cbn.
  destruct (_ || _); do 2 eexists; reflexivity.
Qed.

(** The bound of [loop_bound] is never used up: a call either returns or
    reads the unassigned [error]. *)
Lemma do_encrypt_decrypt_media_total p c encrypt w :
  (exists st w', do_encrypt_decrypt_media cfg env p c encrypt w = Returned st w')
  \/ (exists w', do_encrypt_decrypt_media cfg env p c encrypt w = UninitRead w').
Proof.
  destruct (sectorsInVolume cfg (crypto_info w)
            <? numberEncryptedSectors cfg (crypto_info w)) eqn:Hchk.
  { left. do 2 eexists. apply do_encrypt_decrypt_media_inconsistent, Hchk. }
  destruct (fw_AllocatePool env (EvResetInput :: trace w)
              (UINTN cfg (to_bytes cfg (CS_SERVICE_NUMBER_SECTORS cfg))))
    as [buffer |] eqn:Halloc.
  2:{ left. do 2 eexists. apply do_encrypt_decrypt_media_no_buffer; assumption. }
  destruct (do_encrypt_decrypt_media_run p c encrypt w buffer Hchk Halloc)
    as (l' & w2 & _ & _ & _ & Hrun).
  rewrite Hrun.
  destruct (error l') as [e |]; [| right; eexists; reflexivity].
  left. destruct (EFI_ERROR cfg e); [do 2 eexists; reflexivity |].
  apply update_blocks_returns.
Qed.

(** A run that returns without error went through the loop and through the
    accepting branch of update_blocks_in_volume_header. *)
Lemma run_without_error p c encrypt w st w' :
  0 <= EncryptedAreaStart (crypto_info w) ->
  do_encrypt_decrypt_media cfg env p c encrypt w = Returned st w' ->
  EFI_ERROR cfg st = false ->
  let info := crypto_info w in
  let l0 := setup_locals cfg encrypt info in
  (sectorsInVolume cfg info <? numberEncryptedSectors cfg info) = false /\
  exists fuel w1 l' w2 e,
    copy_loop cfg env fuel encrypt
      (if encrypt then c else p) (if encrypt then p else c)
      0 (sectorsInVolume cfg info) l0 w1 = Returned l' w2 /\
    error l' = Some e /\ EFI_ERROR cfg e = false /\
    0 <= processed_lba cfg encrypt info l'
         - to_sectors cfg (EncryptedAreaStart info)
      <= sectorsInVolume cfg info /\
    crypto_info w'
    = set_EncryptedAreaLength
        (UINTN cfg (to_bytes cfg
           (UINTN cfg (processed_lba cfg encrypt info l'
                       - to_sectors cfg (EncryptedAreaStart info)))))
        info.
Proof.
  intros Hstart Hrun Hok info l0.
  destruct (sectorsInVolume cfg info <? numberEncryptedSectors cfg info) eqn:Hchk.
  { rewrite do_encrypt_decrypt_media_inconsistent in Hrun by exact Hchk.
    injection Hrun as <- <-. unfold EFI_VOLUME_CORRUPTED in Hok.
    rewrite EFI_ERROR_EFIERR in Hok by exact Hcfg. discriminate. }
  split; [reflexivity |].
  destruct (fw_AllocatePool env (EvResetInput :: trace w)
              (UINTN cfg (to_bytes cfg (CS_SERVICE_NUMBER_SECTORS cfg))))
    as [buffer |] eqn:Halloc.
  2:{ rewrite do_encrypt_decrypt_media_no_buffer in Hrun by assumption.
      injection Hrun as <- <-. unfold EFI_OUT_OF_RESOURCES in Hok.
      rewrite EFI_ERROR_EFIERR in Hok by exact Hcfg. discriminate. }
  destruct (do_encrypt_decrypt_media_run p c encrypt w buffer Hchk Halloc)
    as (l' & w2 & Hloop & Hci & _ & Heq).
  rewrite Heq in Hrun.
  destruct (error l') as [e |] eqn:He; [| discriminate].
  destruct (EFI_ERROR cfg e) eqn:Hee.
  { injection Hrun as <- <-. congruence. }
  apply update_blocks_no_error in Hrun;
    [| cbn [crypto_info log]; rewrite Hci; exact Hstart | exact Hok].
  cbn [crypto_info log] in Hrun. rewrite Hci in Hrun. fold info in Hrun.
  destruct Hrun as [Hrange Hnew].
  eexists _, _, l', w2, e. repeat split; try eassumption; apply Hrange.
Qed.

Lemma encrypt_run_to_completion p c w st w' :
  (forall t, fw_check_for_ESC env t = false) ->
  wf_header (crypto_info w) ->
  do_encrypt_decrypt_media cfg env p c true w = Returned st w' ->
  EFI_ERROR cfg st = false ->
  crypto_info w'
  = set_EncryptedAreaLength
      (UINTN cfg (to_bytes cfg (sectorsInVolume cfg (crypto_info w))))
      (crypto_info w).
Proof.
  intros Hesc (Hstart & _ & _) Hrun Hok.
  destruct (run_without_error p c true w st w' (proj1 Hstart) Hrun Hok)
    as (Hchk & fuel & w1 & l' & w2 & e & Hloop & He & Hee & Hrange & Hnew).
  rewrite Hnew. do 2 f_equal.
  set (info := crypto_info w) in *.
  set (V := sectorsInVolume cfg info) in *.
  set (E := numberEncryptedSectors cfg info) in *.
  set (a := to_sectors cfg (EncryptedAreaStart info)) in *.
  apply Z.ltb_ge in Hchk.
  pose proof (UINTN_range cfg Hcfg (to_sectors cfg (VolumeSize info))) as HV.
  pose proof (UINTN_range cfg Hcfg (to_sectors cfg (EncryptedAreaLength info))) as HE.
  fold (sectorsInVolume cfg info) in HV. fold (numberEncryptedSectors cfg info) in HE.
  fold V in HV. fold E in HE.
  pose proof (UINTN_modulus_le cfg Hcfg) as HM.
  assert (Hl0 : lba (setup_locals cfg true info) = E /\
                numberSectors (setup_locals cfg true info) = V - E).
  { unfold setup_locals; cbn. fold E V.
    rewrite UINT64_small, UINTN_small by lia. split; reflexivity. }
  destruct Hl0 as [Hlba0 Hn0].
  destruct (copy_loop_encrypt_cursor _ _ _ _ _ _ _ _ _
              (setup_ready true info) ltac:(rewrite Hlba0; lia) Hloop)
    as (Hlba' & Hn' & Hsum).
  rewrite Hlba0, Hn0 in Hsum.
  destruct (copy_loop_exit true _ _ _ _ Hesc _ _ _ _ _ Hloop)
    as [Hdone | (e' & He' & Hee')]; [| congruence].
  apply Z.ltb_ge in Hdone.
  assert (Hz : numberSectors l' = 0) by lia.
  rewrite Hz, Z.add_0_r in Hsum.
  replace (E + (V - E)) with V in Hsum by lia.
  rewrite (UINTN_small cfg V) in Hsum by lia.
  assert (Ha : 0 <= a < 2 ^ 64).
  { split; [apply to_sectors_nonneg; [exact Hcfg | lia] |].
    pose proof (to_sectors_le cfg Hcfg (EncryptedAreaStart info) (proj1 Hstart)).
    fold a in H. lia. }
  unfold processed_lba in Hrange |- *. fold a in Hrange |- *.
  destruct (UINT64_wrap_once (lba l' + a)) as [Hp | Hp]; [lia | |];
    rewrite Hp in Hrange |- *.
  - replace (lba l' + a - a) with (lba l') in * by lia.
    rewrite UINTN_small by lia.
    rewrite UINTN_small in Hsum by lia. congruence.
  - lia.
Qed.

Lemma decrypt_run_to_completion p c w st w' :
  (forall t, fw_check_for_ESC env t = false) ->
  wf_header (crypto_info w) ->
  do_encrypt_decrypt_media cfg env p c false w = Returned st w' ->
  EFI_ERROR cfg st = false ->
  crypto_info w' = set_EncryptedAreaLength 0 (crypto_info w).
Proof.
  intros Hesc (Hstart & _ & _) Hrun Hok.
  destruct (run_without_error p c false w st w' (proj1 Hstart) Hrun Hok)
    as (Hchk & fuel & w1 & l' & w2 & e & Hloop & He & Hee & Hrange & Hnew).
  rewrite Hnew. f_equal.
  set (info := crypto_info w) in *.
  set (E := numberEncryptedSectors cfg info) in *.
  set (a := to_sectors cfg (EncryptedAreaStart info)) in *.
  pose proof (UINTN_range cfg Hcfg (to_sectors cfg (EncryptedAreaLength info))) as HE.
  fold (numberEncryptedSectors cfg info) in HE. fold E in HE.
  pose proof (UINTN_modulus_le cfg Hcfg) as HM.
  pose proof (setup_ready false info) as (_ & Hb0 & _).
  assert (Hl0 : numberSectors (setup_locals cfg false info) = E /\
                bufferSectors (setup_locals cfg false info) <= E /\
                lba (setup_locals cfg false info)
                = E - bufferSectors (setup_locals cfg false info)).
  { unfold setup_locals in *; cbn in *. fold E in Hb0 |- *.
    destruct (E <? UINTN cfg (CS_SERVICE_NUMBER_SECTORS cfg)) eqn:Hlt;
      [| apply Z.ltb_ge in Hlt];
      rewrite UINT64_small by lia; repeat split; lia. }
  destruct Hl0 as (Hn0 & Hble & Hlba0).
  destruct (copy_loop_decrypt_cursor _ _ _ _ _ _ _ _ _
              ltac:(rewrite Hn0; lia) ltac:(rewrite Hn0; lia)
              ltac:(rewrite Hn0; exact Hlba0) Hloop) as (Hb' & Hlba').
  destruct (copy_loop_exit false _ _ _ _ Hesc _ _ _ _ _ Hloop)
    as [Hdone | (e' & He' & Hee')]; [| congruence].
  apply Z.ltb_ge in Hdone.
  assert (Hz : numberSectors l' = 0 /\ bufferSectors l' = 0 /\ lba l' = 0) by lia.
  destruct Hz as (Hz1 & Hz2 & Hz3).
  assert (Ha : 0 <= a < 2 ^ 64).
  { split; [apply to_sectors_nonneg; [exact Hcfg | lia] |].
    pose proof (to_sectors_le cfg Hcfg (EncryptedAreaStart info) (proj1 Hstart)).
    fold a in H. lia. }
  unfold processed_lba. fold a. rewrite Hz2, Hz3, Z.add_0_l, Z.add_0_r.
  rewrite !UINT64_small by (rewrite ?UINT64_small; lia).
  rewrite Z.sub_diag.
  unfold UINTN at 2. rewrite Z.mod_0_l by (pose proof (UINTN_modulus_pos cfg Hcfg); lia).
  unfold to_bytes. rewrite Z.shiftl_0_l.
  unfold UINTN. apply Z.mod_0_l. pose proof (UINTN_modulus_pos cfg Hcfg); lia.
Qed.

(** C6: starting from EncryptedAreaLength 0, a run in the encrypt direction
    that is not cancelled and returns without error, followed by such a run
    in the decrypt direction, brings EncryptedAreaLength back to its first
    value. In between it holds the whole volume: the sector count of the
    volume in bytes, which is VolumeSize itself when VolumeSize is a whole
    number of sectors (UINTN of 64 bits). The buffer capacity is any
    CS_SERVICE_NUMBER_SECTORS that [build_ok] admits. *)
Theorem encrypt_then_decrypt_round_trip
    (parentBlockIo childBlockIo : EFI_BLOCK_IO) (w0 w1 w2 : World)
    (st1 st2 : EFI_STATUS) :
  (forall t, fw_check_for_ESC env t = false) ->
  wf_header (crypto_info w0) ->
  EncryptedAreaLength (crypto_info w0) = 0 ->
  do_encrypt_decrypt_media cfg env parentBlockIo childBlockIo true w0
  = Returned st1 w1 ->
  EFI_ERROR cfg st1 = false ->
  do_encrypt_decrypt_media cfg env parentBlockIo childBlockIo false w1
  = Returned st2 w2 ->
  EFI_ERROR cfg st2 = false ->
  EncryptedAreaLength (crypto_info w1)
  = UINTN cfg (to_bytes cfg (sectorsInVolume cfg (crypto_info w0))) /\
  (UINTN_BITS cfg = 64 ->
   to_bytes cfg (to_sectors cfg (VolumeSize (crypto_info w0)))
   = VolumeSize (crypto_info w0) ->
   EncryptedAreaLength (crypto_info w1) = VolumeSize (crypto_info w0)) /\
  EncryptedAreaLength (crypto_info w2) = EncryptedAreaLength (crypto_info w0).
Proof.
  intros Hesc Hwf Hzero Hrun1 Hok1 Hrun2 Hok2.
  pose proof (encrypt_run_to_completion _ _ _ _ _ Hesc Hwf Hrun1 Hok1) as H1.
  assert (Hwf1 : wf_header (crypto_info w1)).
  { rewrite H1. destruct Hwf as (Hs & He & Hv).
    unfold wf_header; cbn. repeat split; try lia.
    - apply UINTN_range, Hcfg.
    - pose proof (UINTN_range cfg Hcfg
                    (to_bytes cfg (sectorsInVolume cfg (crypto_info w0)))).
      pose proof (UINTN_modulus_le cfg Hcfg). lia. }
  pose proof (decrypt_run_to_completion _ _ _ _ _ Hesc Hwf1 Hrun2 Hok2) as H2.
  rewrite H2, H1, Hzero. cbn. repeat split.
  intros HW Hwhole. destruct Hwf as (_ & _ & Hv).
  unfold sectorsInVolume.
  pose proof (to_sectors_nonneg cfg Hcfg _ (proj1 Hv)).
  pose proof (to_sectors_le cfg Hcfg _ (proj1 Hv)).
  rewrite (UINTN_small cfg (to_sectors cfg (VolumeSize (crypto_info w0))))
    by (rewrite HW; lia).
  rewrite Hwhole. apply UINTN_small. rewrite HW. lia.
Qed.

End Engine.

(** ** Block I/O session and device discovery *)

Section Session.

Variable cfg : Build.
Hypothesis Hcfg : build_ok cfg.
Variable env : Firmware.

(** C8: open_blockio_protocols either returns a status that is no error after
    opening both interfaces, or returns an error with nothing left to close:
    when the parent could not be opened nothing else was tried; when the child
    could not be opened, CloseProtocol was called for the parent before the
    child's error is returned. In the log of an error return, every interface
    opened without error is followed by its CloseProtocol call. *)
Theorem open_blockio_protocols_all_or_nothing
    (parentHandle childHandle : EFI_HANDLE) (w : World) :
  let tp := fw_OpenProtocol env (trace w) parentHandle in
  let open_parent := EvOpenProtocol parentHandle (fst tp) (snd tp) in
  let tc := fw_OpenProtocol env (open_parent :: trace w) childHandle in
  let open_child := EvOpenProtocol childHandle (fst tc) (snd tc) in
  let close_parent :=
    EvCloseProtocol parentHandle
      (fw_CloseProtocol env (open_child :: open_parent :: trace w) parentHandle) in
  exists st parentBlockIo childBlockIo new,
    open_blockio_protocols cfg env parentHandle childHandle w
    = Returned (st, parentBlockIo, childBlockIo)
        {| crypto_info := crypto_info w; trace := new ++ trace w |} /\
    if EFI_ERROR cfg st
    then outstanding cfg (rev new) [] = [] /\
         ((EFI_ERROR cfg (fst tp) = true /\ st = fst tp /\ new = [open_parent]) \/
          (EFI_ERROR cfg (fst tp) = false /\ st = fst tc /\
           new = [close_parent; open_child; open_parent]))
    else EFI_ERROR cfg (fst tp) = false /\ st = fst tc /\
         new = [open_child; open_parent] /\
         outstanding cfg (rev new) [] = [childHandle; parentHandle].
Proof.
  cbv zeta.
  unfold open_blockio_protocols, open_blockio_protocol, close_blockio_protocol,
    OpenProtocol, CloseProtocol, bind, call, ret, log.
  cbn [trace crypto_info].
  destruct (fw_OpenProtocol env (trace w) parentHandle) as [stp pio].
  cbn [fst snd].
  destruct (EFI_ERROR cfg stp) eqn:Hp; cbn [negb].
  - exists stp, pio, NULL, [EvOpenProtocol parentHandle stp pio].
    split; [reflexivity |]. rewrite Hp. split.
    + cbn. rewrite Hp. reflexivity.
    + left. auto.
  - cbn [trace crypto_info].
    destruct (fw_OpenProtocol env (EvOpenProtocol parentHandle stp pio :: trace w)
                childHandle) as [stc cio].
    cbn [fst snd].
    destruct (EFI_ERROR cfg stc) eqn:Hc; cbn [trace crypto_info].
    + eexists stc, pio, cio, [_; _; _].
      split; [reflexivity |]. rewrite Hc. split.
      * cbn. rewrite Hp, Hc. cbn. rewrite Z.eqb_refl. reflexivity.
      * right. auto.
    + eexists stc, pio, cio, [_; _].
      split; [reflexivity |]. rewrite Hc. repeat split.
      cbn. rewrite Hp, Hc. reflexivity.
Qed.

Lemma get_cs_child_loop_first_match (probe : EFI_HANDLE -> bool)
    (ParentHandle : EFI_HANDLE) :
  (forall t c, fw_is_cs_child_device env t ParentHandle c = probe c) ->
  forall entries w,
    get_cs_child_loop env ParentHandle entries w
    = Returned
        (match first_match probe entries with
         | Some e => ControllerHandle e
         | None => NULL
         end)
        {| crypto_info := crypto_info w;
           trace := rev (probes_until probe ParentHandle
                           (filter is_child_controller entries)) ++ trace w |}.
Proof.
  intros Hprobe. unfold first_match.
  induction entries as [| e rest IH]; intros w.
  - destruct w; reflexivity.
  - cbn [get_cs_child_loop filter].
    change (Z.land (Attributes e) EFI_OPEN_PROTOCOL_BY_CHILD_CONTROLLER
            =? EFI_OPEN_PROTOCOL_BY_CHILD_CONTROLLER)
      with (is_child_controller e).
    destruct (is_child_controller e); [| apply IH].
    unfold bind, is_cs_child_device, call, ret. rewrite Hprobe.
    cbn [find probes_until].
    destruct (probe (ControllerHandle e)).
    + reflexivity.
    + rewrite IH. cbn [log trace crypto_info rev].
      rewrite <- app_assoc. reflexivity.
Qed.

(** get_cs_child against [first_match] and [probes_until]. *)
Lemma get_cs_child_result (probe : EFI_HANDLE -> bool)
    (ParentHandle : EFI_HANDLE) (w : World) (st : EFI_STATUS)
    (OpenInfo : option (Z * list EFI_OPEN_PROTOCOL_INFORMATION_ENTRY)) :
  fw_OpenProtocolInformation env (trace w) ParentHandle = (st, OpenInfo) ->
  EFI_ERROR cfg st = false ->
  (forall t c, fw_is_cs_child_device env t ParentHandle c = probe c) ->
  let entries := match OpenInfo with Some (_, es) => es | None => [] end in
  let freed := match OpenInfo with
               | Some (buffer, _) => [EvFreePool buffer]
               | None => []
               end in
  Forall (fun e => ControllerHandle e <> NULL)
    (filter is_child_controller entries) ->
  get_cs_child cfg env ParentHandle w
  = Returned
      (match first_match probe entries with
       | Some e => (st, ControllerHandle e)
       | None => (EFI_NO_MEDIA cfg, NULL)
       end)
      {| crypto_info := crypto_info w;
         trace := freed
                  ++ rev (probes_until probe ParentHandle
                            (filter is_child_controller entries))
                  ++ EvOpenProtocolInformation ParentHandle st :: trace w |}.
Proof.
  intros Hinfo Hst Hprobe entries freed Hnonnull.
  unfold get_cs_child, bind at 1, OpenProtocolInformation, call.
  rewrite Hinfo. cbn [fst snd]. rewrite Hst.
  unfold bind at 1. fold entries.
  rewrite (get_cs_child_loop_first_match probe ParentHandle Hprobe).
  cbn [log trace crypto_info].
  assert (Hsel : match first_match probe entries with
                 | Some e => ControllerHandle e =? NULL
                 | None => true
                 end = match first_match probe entries with
                       | Some _ => false
                       | None => true
                       end).
  { unfold first_match.
    destruct (find _ _) as [e |] eqn:Hfind; [| reflexivity].
    apply find_some in Hfind as [Hin _].
    rewrite Forall_forall in Hnonnull.
    apply Z.eqb_neq, Hnonnull, Hin. }
  subst freed.
  destruct OpenInfo as [[buffer es] |];
    unfold bind, FreePool, call, ret; cbn [log trace crypto_info app];
    destruct (first_match probe entries) as [e |];
    try rewrite Hsel; try reflexivity.
Qed.


(** C9: let the identity probe of a handle not depend on what happened
    before, and let the entries that are attached as child controller carry
    a controller handle that is not NULL (the entries of other consumers,
    such as a HandleProtocol consumer with a NULL controller, are free; the
    loop reads the controller handle of child-controller entries only).
    get_cs_child returns the controller of the first child-controller entry
    that passes the probe, with the status of the enumeration, and asks for
    no probe after it;
    when no child-controller entry passes the probe it returns EFI_NO_MEDIA
    (the status this file uses for "no matching child device found") with a
    NULL handle, however many child-controller entries there are. On both
    paths the enumeration buffer, when there is one, is freed once after the
    last probe. *)
Theorem get_cs_child_first_match (probe : EFI_HANDLE -> bool)
    (ParentHandle : EFI_HANDLE) (w : World) (st : EFI_STATUS)
    (OpenInfo : option (Z * list EFI_OPEN_PROTOCOL_INFORMATION_ENTRY)) :
  fw_OpenProtocolInformation env (trace w) ParentHandle = (st, OpenInfo) ->
  EFI_ERROR cfg st = false ->
  (forall t c, fw_is_cs_child_device env t ParentHandle c = probe c) ->
  let entries := match OpenInfo with Some (_, es) => es | None => [] end in
  let freed := match OpenInfo with
               | Some (buffer, _) => [EvFreePool buffer]
               | None => []
               end in
  Forall (fun e => ControllerHandle e <> NULL)
    (filter is_child_controller entries) ->
  get_cs_child cfg env ParentHandle w
  = Returned
      (match first_match probe entries with
       | Some e => (st, ControllerHandle e)
       | None => (EFI_NO_MEDIA cfg, NULL)
       end)
      {| crypto_info := crypto_info w;
         trace := freed
                  ++ rev (probes_until probe ParentHandle
                            (filter is_child_controller entries))
                  ++ EvOpenProtocolInformation ParentHandle st :: trace w |}.
Proof.
  intros Hinfo Hst Hprobe entries freed Hnonnull.
  apply get_cs_child_result; assumption.
Qed.

End Session.

(** ** Orchestrator: encrypt_decrypt_media *)

Section Orchestrator.

Variable cfg : Build.
Hypothesis Hcfg : build_ok cfg.
Variable env : Firmware.

(** C2, as amended: when the first password prompt is answered with the
    escape key (scan code 0x17), encrypt_decrypt_media returns EFI_SUCCESS
    with *user_decision set back to CS_UI_SERVICE_MENU (line 441). Nothing but
    the console was used: the crypto driver was not started, no protocol was
    opened, no block was read or written, the header is untouched. *)
Theorem escape_at_first_prompt
    (fuel : nat) (ImageHandle : EFI_HANDLE) (options : cs_option_flags)
    (encrypt : bool) (passwd : Password) (w : World)
    (st_in : EFI_STATUS) (text : list Z) :
  let t0 := trace w in
  let t1 := if silent options then t0
            else EvOutputString STR_CRLF_LF_SPACE
                   (fw_OutputString env t0 STR_CRLF_LF_SPACE) :: t0 in
  let t2 := EvAskForPwd false (fw_ask_for_pwd env t1 false) :: t1 in
  (silent options = false ->
   EFI_ERROR cfg (fw_OutputString env t0 STR_CRLF_LF_SPACE) = false) ->
  EFI_ERROR cfg (fw_ask_for_pwd env t1 false) = false ->
  fw_get_input env t2 (enable_password_asterisk options) = (st_in, 23, text) ->
  EFI_ERROR cfg st_in = false ->
  let result :=
    encrypt_decrypt_media cfg env (S fuel) ImageHandle options encrypt passwd w in
  result
  = Returned (EFI_SUCCESS, CS_UI_SERVICE_MENU,
              {| Text := text; Length := Length passwd |})
      {| crypto_info := crypto_info w;
         trace := EvGetInput (enable_password_asterisk options) st_in 23 :: t2 |}
  /\ decision_of result = Some CS_UI_SERVICE_MENU
  /\ forallb is_console
       (EvGetInput (enable_password_asterisk options) st_in 23
        :: EvAskForPwd false (fw_ask_for_pwd env t1 false)
        :: (if silent options then []
            else [EvOutputString STR_CRLF_LF_SPACE
                    (fw_OutputString env t0 STR_CRLF_LF_SPACE)])) = true.
Proof.
  intros t0 t1 t2 Hout Hask Hin Hst result.
  assert (Hres : result
    = Returned (EFI_SUCCESS, CS_UI_SERVICE_MENU,
                {| Text := text; Length := Length passwd |})
        {| crypto_info := crypto_info w;
           trace := EvGetInput (enable_password_asterisk options) st_in 23 :: t2 |}).
  { subst result t2 t1 t0.
    unfold encrypt_decrypt_media, check_user_password, bind at 1.
    destruct (silent options) eqn:Hsilent; cbn [negb].
    - cbn [check_user_password_loop].
      unfold bind, ask_for_pwd, get_input, call, ret, log.
      cbn [trace crypto_info fst snd]. rewrite Hask.
      cbn [trace crypto_info fst snd]. rewrite Hin.
      cbn [fst snd]. rewrite Hst. cbn [Z.eqb Pos.eqb].
      rewrite EFI_ERROR_EFI_SUCCESS. reflexivity.
    - unfold bind at 1, OutputString, call, log.
      cbn [trace crypto_info]. rewrite (Hout eq_refl).
      cbn [check_user_password_loop].
      unfold bind, ask_for_pwd, get_input, call, ret, log.
      cbn [trace crypto_info fst snd]. rewrite Hask.
      cbn [trace crypto_info fst snd]. rewrite Hin.
      cbn [fst snd]. rewrite Hst. cbn [Z.eqb Pos.eqb].
      rewrite EFI_ERROR_EFI_SUCCESS. reflexivity. }
  split; [exact Hres |]. split; [rewrite Hres; reflexivity |].
  destruct (silent options); reflexivity.
Qed.

Lemma EFIERR_not_success a : (EFI_SUCCESS =? EFIERR cfg a) = false.
Proof.
  apply Z.eqb_neq. intros Heq.
  pose proof (EFI_ERROR_EFIERR cfg Hcfg a) as He.
  rewrite <- Heq, EFI_ERROR_EFI_SUCCESS in He. discriminate.
Qed.

(** With a firmware that [reaches_conversion], the orchestrator is the
    conversion on the unlocked header followed by the closing of the
    session. *)
Lemma conversion_reached
    (hdr : CRYPTO_INFO) (parent child : EFI_HANDLE) (key : Z) (text : list Z)
    (OpenInfo : Z) (entries : list EFI_OPEN_PROTOCOL_INFORMATION_ENTRY)
    (probe : EFI_HANDLE -> bool) (io : EFI_HANDLE -> EFI_BLOCK_IO)
    (fuel : nat) (ImageHandle : EFI_HANDLE) (options : cs_option_flags)
    (encrypt : bool) (passwd : Password) (w : World) :
  reaches_conversion env hdr parent child key text OpenInfo entries probe io ->
  encrypt_decrypt_media cfg env (S fuel) ImageHandle options encrypt passwd w
  = close_session env parent child {| Text := text; Length := strlena text |}
      (do_encrypt_decrypt_media cfg env (io parent) (io child) encrypt
         {| crypto_info := hdr;
            trace := session_prefix options ImageHandle parent child key
                       OpenInfo entries probe io (trace w) |}).
Proof.
  intros [Hout Hask Hin Hkey Hdec Hreally Hdrv Hboot Hinfo Hprobe Hnn Hmatch Hopen].
  assert (Hpw : forall t,
    check_user_password_loop cfg env (S fuel) options false
      CS_UI_SERVICE_MENU passwd {| crypto_info := crypto_info w; trace := t |}
    = Returned (EFI_SUCCESS, CS_UI_SERVICE_MENU,
                {| Text := text; Length := strlena text |})
        {| crypto_info := hdr;
           trace := EvDecryptVolumeHeader EFI_SUCCESS
                    :: EvGetInput (enable_password_asterisk options) EFI_SUCCESS key
                    :: EvAskForPwd false EFI_SUCCESS :: t |}).
  { intros t. cbn [check_user_password_loop].
    unfold bind at 1, ask_for_pwd, call. rewrite Hask, EFI_ERROR_EFI_SUCCESS.
    unfold bind at 1, get_input, call. rewrite Hin. cbn [fst snd].
    rewrite EFI_ERROR_EFI_SUCCESS.
    apply Z.eqb_neq in Hkey. rewrite Hkey.
    unfold bind at 1, decrypt_volume_header, bind, call, put_crypto_info, ret.
    cbn [log trace crypto_info]. rewrite Hdec. cbn [fst snd].
    unfold EFI_ACCESS_DENIED. rewrite EFIERR_not_success. reflexivity. }
  unfold first_match in Hmatch.
  destruct (find _ _) as [e |] eqn:Hfind; [| discriminate].
  cbn in Hmatch. injection Hmatch as Hchild.
  assert (Hchild_nn : (child =? NULL) = false).
  { apply Z.eqb_neq. subst child.
    apply find_some in Hfind as [Hin' _].
    rewrite Forall_forall in Hnn. apply Hnn, Hin'. }
  assert (Hrest : forall t,
    (really <- check_really_do env ;;
     if negb really
     then ret (EFI_SUCCESS, CS_UI_SERVICE_MENU,
               {| Text := text; Length := strlena text |})
     else
       error <- start_connect_fake_crypto_driver env ImageHandle ;;
       if EFI_ERROR cfg error
       then ret (error, CS_UI_SERVICE_MENU,
                 {| Text := text; Length := strlena text |})
       else
         ParentHandle <- get_boot_partition_handle env ;;
         r <- get_cs_child cfg env ParentHandle ;;
         let '(error, ChildHandle) := r in
         if EFI_ERROR cfg error
         then ret (error, CS_UI_SERVICE_MENU,
                   {| Text := text; Length := strlena text |})
         else
           r <- open_blockio_protocols cfg env ParentHandle ChildHandle ;;
           let '(error, parentBlockIo, childBlockIo) := r in
           if negb (EFI_ERROR cfg error) then
             (if negb (silent options)
              then OutputString env STR_CRLF_LF else ret error) ;;;
             error <- do_encrypt_decrypt_media cfg env parentBlockIo
                        childBlockIo encrypt ;;
             close_blockio_protocol env ParentHandle parentBlockIo ;;;
             close_blockio_protocol env ChildHandle childBlockIo ;;;
             ret (error, CS_UI_REBOOT,
                  {| Text := text; Length := strlena text |})
           else ret (error, CS_UI_SERVICE_MENU,
                     {| Text := text; Length := strlena text |}))
      {| crypto_info := hdr; trace := t |}
    = close_session env parent child {| Text := text; Length := strlena text |}
        (do_encrypt_decrypt_media cfg env (io parent) (io child) encrypt
           {| crypto_info := hdr;
              trace :=
                (if silent options then []
                 else [EvOutputString STR_CRLF_LF EFI_SUCCESS])
                ++ EvOpenProtocol child EFI_SUCCESS (io child)
                :: EvOpenProtocol parent EFI_SUCCESS (io parent)
                :: EvFreePool OpenInfo
                :: rev (probes_until probe parent
                          (filter is_child_controller entries))
                ++ EvOpenProtocolInformation parent EFI_SUCCESS
                :: EvGetBootPartitionHandle parent
                :: EvStartConnectFakeCryptoDriver ImageHandle EFI_SUCCESS
                :: EvCheckReallyDo true :: t |})).
  { intros t.
    unfold bind at 1, check_really_do, call. rewrite Hreally. cbn [negb].
    unfold bind at 1, start_connect_fake_crypto_driver, call.
    rewrite Hdrv, EFI_ERROR_EFI_SUCCESS.
    unfold bind at 1, get_boot_partition_handle, call. rewrite Hboot.
    unfold bind at 1.
    rewrite (get_cs_child_result cfg env probe parent _ EFI_SUCCESS
               (Some (OpenInfo, entries)) (Hinfo _) (EFI_ERROR_EFI_SUCCESS cfg)
               Hprobe Hnn).
    unfold first_match. rewrite Hfind, Hchild.
    rewrite EFI_ERROR_EFI_SUCCESS.
    unfold bind at 1, open_blockio_protocols, open_blockio_protocol,
      OpenProtocol, bind, call, ret.
    repeat (progress (cbv beta; cbn [negb fst snd log trace crypto_info app];
                      rewrite ?Hopen, ?EFI_ERROR_EFI_SUCCESS)).
    destruct (silent options); cbn [negb];
      unfold OutputString, close_blockio_protocol, CloseProtocol, call;
      repeat (progress (cbv beta; cbn [negb fst snd log trace crypto_info app];
                        rewrite ?Hout));
      destruct (do_encrypt_decrypt_media _ _ _ _ _ _); reflexivity. }
  unfold encrypt_decrypt_media, bind at 1, check_user_password, session_prefix.
  destruct (silent options) eqn:Hsilent; cbn [negb].
  - destruct w as [ci t]. cbn [trace crypto_info app] in *.
    rewrite (Hpw t). rewrite EFI_ERROR_EFI_SUCCESS.
    rewrite Hrest. reflexivity.
  - unfold bind at 1, OutputString, call. rewrite Hout, EFI_ERROR_EFI_SUCCESS.
    cbv beta. unfold log. cbn [trace crypto_info app].
    rewrite Hpw. rewrite EFI_ERROR_EFI_SUCCESS.
    rewrite Hrest. reflexivity.
Qed.

End Orchestrator.

(** ** Scenarios: a volume of 1000 sectors, buffer of 80 sectors *)

Section Scenarios.

Variable cfg : Build.
Hypothesis Hcfg : build_ok cfg.
Variable env : Firmware.

Hypothesis Hread : forall t this MediaId lba bytes,
    fw_ReadBlocks env t this MediaId lba bytes = EFI_SUCCESS.
Hypothesis Hwrite : forall t this MediaId lba bytes,
    fw_WriteBlocks env t this MediaId lba bytes = EFI_SUCCESS.

Lemma UINTN_literal x : 0 <= x < 2 ^ 32 -> UINTN cfg x = x.
Proof.
  intros. apply UINTN_small.
  destruct Hcfg as [[-> | ->] _]; [lia |].
  assert (2 ^ 32 < 2 ^ 64) by reflexivity. lia.
Qed.

(** One pass through the loop body in the encrypt direction when both
    transfers succeed and no subtraction wraps. *)
Lemma copy_loop_chunk k source dest V lba0 n b bytes err w :
  0 < k -> 0 < V -> 0 < b <= n -> n < 2 ^ 32 ->
  0 <= lba0 -> lba0 + b < 2 ^ 64 ->
  copy_loop cfg env (Z.to_nat k) true source dest 0 V
    {| lba := lba0; numberSectors := n; bufferSectors := b;
       bytesToRead := bytes; error := err |} w
  = (if fw_check_for_ESC env
          (EvDumpPerCent
             (per_mille true 0 V
                {| lba := lba0 + b; numberSectors := n - b;
                   bufferSectors := Z.min b (n - b);
                   bytesToRead := if n - b <? b
                                  then UINTN cfg (to_bytes cfg (n - b))
                                  else bytes;
                   error := Some EFI_SUCCESS |})
           :: EvWriteBlocks dest (fw_MediaId env dest) lba0 bytes EFI_SUCCESS
           :: EvReadBlocks source (fw_MediaId env source) lba0 bytes EFI_SUCCESS
           :: trace w)
     then Returned
     else copy_loop cfg env (Z.to_nat (k - 1)) true source dest 0 V)
      {| lba := lba0 + b; numberSectors := n - b;
         bufferSectors := Z.min b (n - b);
         bytesToRead := if n - b <? b
                        then UINTN cfg (to_bytes cfg (n - b))
                        else bytes;
         error := Some EFI_SUCCESS |}
      {| crypto_info := crypto_info w;
         trace :=
           EvCheckForESC
             (fw_check_for_ESC env
                (EvDumpPerCent
                   (per_mille true 0 V
                      {| lba := lba0 + b; numberSectors := n - b;
                         bufferSectors := Z.min b (n - b);
                         bytesToRead := if n - b <? b
                                        then UINTN cfg (to_bytes cfg (n - b))
                                        else bytes;
                         error := Some EFI_SUCCESS |})
                 :: EvWriteBlocks dest (fw_MediaId env dest) lba0 bytes EFI_SUCCESS
                 :: EvReadBlocks source (fw_MediaId env source) lba0 bytes
                      EFI_SUCCESS
                 :: trace w))
           :: EvDumpPerCent
                (per_mille true 0 V
                   {| lba := lba0 + b; numberSectors := n - b;
                      bufferSectors := Z.min b (n - b);
                      bytesToRead := if n - b <? b
                                     then UINTN cfg (to_bytes cfg (n - b))
                                     else bytes;
                      error := Some EFI_SUCCESS |})
           :: EvWriteBlocks dest (fw_MediaId env dest) lba0 bytes EFI_SUCCESS
           :: EvReadBlocks source (fw_MediaId env source) lba0 bytes EFI_SUCCESS
           :: trace w |}.
Proof.
  intros Hk HV Hb Hn Hlba Hsum.
  replace (Z.to_nat k) with (S (Z.to_nat (k - 1)))
    by (rewrite <- Z2Nat.inj_succ by lia; f_equal; lia).
  cbn [copy_loop numberSectors].
  destruct (Z.ltb_spec 0 n) as [_ |]; [| lia].
  unfold bind, ReadBlocks, WriteBlocks, check_for_ESC, dump_per_cent, call, ret.
  cbv beta. cbn [log trace crypto_info set_error lba bytesToRead].
  rewrite Hread, EFI_ERROR_EFI_SUCCESS.
  cbv beta. cbn [log trace crypto_info set_error lba bytesToRead].
  rewrite Hwrite, EFI_ERROR_EFI_SUCCESS.
  destruct (Z.ltb_spec 0 V) as [_ |]; [| lia].
  assert (Hadv : advance cfg true
            {| lba := lba0; numberSectors := n; bufferSectors := b;
               bytesToRead := bytes; error := Some EFI_SUCCESS |}
          = {| lba := lba0 + b; numberSectors := n - b;
               bufferSectors := Z.min b (n - b);
               bytesToRead := if n - b <? b
                              then UINTN cfg (to_bytes cfg (n - b))
                              else bytes;
               error := Some EFI_SUCCESS |}).
  { unfold advance. cbn [lba numberSectors bufferSectors bytesToRead error].
    rewrite UINT64_small by lia.
    rewrite (UINTN_literal (n - b)) by lia.
    destruct (Z.ltb_spec (n - b) b).
    - rewrite Z.min_r by lia. reflexivity.
    - rewrite Z.min_l by lia. reflexivity. }
  unfold set_error.
  cbv beta. cbn [log trace crypto_info lba numberSectors
                 bufferSectors bytesToRead error].
  rewrite Hadv.
  destruct (fw_check_for_ESC env _); reflexivity.
Qed.

Lemma copy_loop_done fuel encrypt source dest startSector V l w :
  numberSectors l = 0 ->
  copy_loop cfg env fuel encrypt source dest startSector V l w = Returned l w.
Proof. intros Hn. destruct fuel; cbn [copy_loop]; rewrite Hn; reflexivity. Qed.

Hypothesis Hcap : CS_SERVICE_NUMBER_SECTORS cfg = 80.
Variable buffer : Z.
Hypothesis Halloc : forall t size, fw_AllocatePool env t size = Some buffer.
Hypothesis Hpersist : forall t info,
    fw_update_volume_header env t info = EFI_SUCCESS.

Lemma scenario_setup hdr :
  fresh_1000_sectors cfg hdr ->
  numberEncryptedSectors cfg hdr = 0 /\
  sectorsInVolume cfg hdr = 1000 /\
  setup_locals cfg true hdr
  = {| lba := 0; numberSectors := 1000; bufferSectors := 80;
       bytesToRead := UINTN cfg (to_bytes cfg 80); error := None |}.
Proof.
  intros (Hs & Hfit & He & Hv & Hsmall).
  assert (HE : numberEncryptedSectors cfg hdr = 0).
  { unfold numberEncryptedSectors, to_sectors. rewrite He, Z.shiftr_0_l.
    apply UINTN_literal. lia. }
  assert (HV : sectorsInVolume cfg hdr = 1000).
  { unfold sectorsInVolume. rewrite Hv, to_sectors_to_bytes by exact Hcfg.
    apply UINTN_literal. lia. }
  repeat split; [exact HE | exact HV |].
  unfold setup_locals. rewrite HE, HV, Hcap.
  rewrite (UINTN_literal 80) by lia.
  rewrite (UINTN_literal (1000 - 0)) by lia.
  reflexivity.
Qed.

(** update_blocks_in_volume_header on a cursor [d] sectors into the volume
    of the scenarios. *)
Lemma scenario_update hdr d encrypt w :
  fresh_1000_sectors cfg hdr -> crypto_info w = hdr ->
  0 <= d <= 1000 ->
  update_blocks_in_volume_header cfg env
    (UINT64 (d + to_sectors cfg (EncryptedAreaStart hdr))) encrypt w
  = Returned EFI_SUCCESS
      {| crypto_info := set_EncryptedAreaLength (UINTN cfg (to_bytes cfg d)) hdr;
         trace :=
           EvUpdateVolumeHeader
             (set_EncryptedAreaLength (UINTN cfg (to_bytes cfg d)) hdr) EFI_SUCCESS
           :: EvUpdateBlocksInVolumeHeader
                (d + to_sectors cfg (EncryptedAreaStart hdr)) hdr encrypt
           :: trace w |}.
Proof.
  intros Hhdr Hw Hd.
  destruct (scenario_setup hdr Hhdr) as (_ & HV & _).
  destruct Hhdr as (Hs & Hfit & He & Hv & Hsmall).
  pose proof (to_sectors_nonneg cfg Hcfg _ Hs) as Ha.
  rewrite UINT64_small by lia.
  unfold update_blocks_in_volume_header, bind, call, get_crypto_info,
    put_crypto_info, update_volume_header, ret.
  cbv beta. cbn [log trace crypto_info set_crypto_info]. rewrite Hw.
  fold (sectorsInVolume cfg hdr). rewrite HV.
  rewrite UINT64_small by lia.
  destruct (Z.ltb_spec (d + to_sectors cfg (EncryptedAreaStart hdr))
                       (to_sectors cfg (EncryptedAreaStart hdr))); [lia |].
  destruct (Z.ltb_spec (to_sectors cfg (EncryptedAreaStart hdr) + 1000)
                       (d + to_sectors cfg (EncryptedAreaStart hdr))); [lia |].
  cbn [orb]. cbv beta. cbn [log trace crypto_info set_crypto_info].
  replace (d + to_sectors cfg (EncryptedAreaStart hdr)
           - to_sectors cfg (EncryptedAreaStart hdr)) with d by lia.
  rewrite (UINTN_literal d) by lia.
  unfold call. rewrite Hpersist. reflexivity.
Qed.

(** The conversion of the whole volume, no ESC key. *)
Lemma encrypt_1000_sectors p c w :
  (forall t, fw_check_for_ESC env t = false) ->
  fresh_1000_sectors cfg (crypto_info w) ->
  exists new,
    do_encrypt_decrypt_media cfg env p c true w
    = Returned EFI_SUCCESS
        {| crypto_info :=
             set_EncryptedAreaLength (UINTN cfg (to_bytes cfg 1000)) (crypto_info w);
           trace := new ++ trace w |} /\
    read_requests new = chunk_requests cfg chunks_1000_by_80 /\
    write_requests new = chunk_requests cfg chunks_1000_by_80 /\
    count is_poll new = 13%nat /\
    count is_update_blocks_call new = 1%nat /\
    count is_update_volume_header new = 1%nat /\
    filter is_update_volume_header new
    = [EvUpdateVolumeHeader
         (set_EncryptedAreaLength (UINTN cfg (to_bytes cfg 1000)) (crypto_info w))
         EFI_SUCCESS].
Proof.
  intros Hesc Hhdr.
  destruct (scenario_setup _ Hhdr) as (HE & HV & Hl0).
  assert (Hchk : (sectorsInVolume cfg (crypto_info w)
                  <? numberEncryptedSectors cfg (crypto_info w)) = false)
    by (rewrite HE, HV; reflexivity).
  eassert (Hloop :
    copy_loop cfg env (loop_bound cfg (setup_locals cfg true (crypto_info w)))
      true c p 0 (sectorsInVolume cfg (crypto_info w))
      (setup_locals cfg true (crypto_info w))
      (log (EvAllocatePool
              (UINTN cfg (to_bytes cfg (CS_SERVICE_NUMBER_SECTORS cfg)))
              (Some buffer)) (log EvResetInput w)) = Returned _ _).
  { rewrite Hl0, HV. cbn [log trace crypto_info].
    unfold loop_bound. cbn [numberSectors bufferSectors].
    change (1000 =? 0) with false.
    change (80 <=? 1000) with true. cbv iota.
    do 13 (rewrite copy_loop_chunk by lia; rewrite Hesc;
           cbn [log trace crypto_info]; literals).
    apply copy_loop_done. reflexivity. }
  rewrite (do_encrypt_decrypt_media_after_loop cfg Hcfg env p c true w
             buffer _ _ Hchk (Halloc _ _) Hloop).
  cbn [error]. rewrite EFI_ERROR_EFI_SUCCESS.
  unfold processed_lba. cbn [lba].
  rewrite (scenario_update (crypto_info w))
    by (try assumption; try reflexivity; lia).
  cbn [log trace crypto_info].
  match goal with
  | |- exists new, Returned _ {| crypto_info := _; trace := ?L |} = _ /\ _ =>
    let n := events_above (trace w) L in exists n
  end.
  split; [reflexivity |].
  repeat split; reflexivity.
Qed.

(** The conversion when the third poll finds the ESC key. *)
Lemma encrypt_cancelled_after_three_chunks p c w :
  (forall t, fw_check_for_ESC env t = Nat.eqb (count is_poll t) 2) ->
  count is_poll (trace w) = 0%nat ->
  fresh_1000_sectors cfg (crypto_info w) ->
  exists new,
    do_encrypt_decrypt_media cfg env p c true w
    = Returned EFI_SUCCESS
        {| crypto_info :=
             set_EncryptedAreaLength (UINTN cfg (to_bytes cfg 240)) (crypto_info w);
           trace := new ++ trace w |} /\
    read_requests new = chunk_requests cfg (firstn 3 chunks_1000_by_80) /\
    write_requests new = chunk_requests cfg (firstn 3 chunks_1000_by_80) /\
    filter is_poll new
    = [EvCheckForESC true; EvCheckForESC false; EvCheckForESC false] /\
    count is_update_blocks_call new = 1%nat /\
    count is_update_volume_header new = 1%nat /\
    filter is_update_volume_header new
    = [EvUpdateVolumeHeader
         (set_EncryptedAreaLength (UINTN cfg (to_bytes cfg 240)) (crypto_info w))
         EFI_SUCCESS].
Proof.
  intros Hesc Hpoll Hhdr. unfold count in Hpoll.
  destruct (scenario_setup _ Hhdr) as (HE & HV & Hl0).
  assert (Hchk : (sectorsInVolume cfg (crypto_info w)
                  <? numberEncryptedSectors cfg (crypto_info w)) = false)
    by (rewrite HE, HV; reflexivity).
  eassert (Hloop :
    copy_loop cfg env (loop_bound cfg (setup_locals cfg true (crypto_info w)))
      true c p 0 (sectorsInVolume cfg (crypto_info w))
      (setup_locals cfg true (crypto_info w))
      (log (EvAllocatePool
              (UINTN cfg (to_bytes cfg (CS_SERVICE_NUMBER_SECTORS cfg)))
              (Some buffer)) (log EvResetInput w)) = Returned _ _).
  { rewrite Hl0, HV. cbn [log trace crypto_info].
    unfold loop_bound. cbn [numberSectors bufferSectors].
    change (1000 =? 0) with false.
    change (80 <=? 1000) with true. cbv iota.
    do 3 (rewrite copy_loop_chunk by lia; rewrite Hesc; unfold count, log;
          cbn [trace crypto_info]; cbn [filter is_poll length];
          rewrite Hpoll; cbn [Nat.eqb]; literals).
    reflexivity. }
  rewrite (do_encrypt_decrypt_media_after_loop cfg Hcfg env p c true w
             buffer _ _ Hchk (Halloc _ _) Hloop).
  cbn [error]. rewrite EFI_ERROR_EFI_SUCCESS.
  unfold processed_lba. cbn [lba].
  rewrite (scenario_update (crypto_info w))
    by (try assumption; try reflexivity; lia).
  cbn [log trace crypto_info].
  match goal with
  | |- exists new, Returned _ {| crypto_info := _; trace := ?L |} = _ /\ _ =>
    let n := events_above (trace w) L in exists n
  end.
  split; [reflexivity |].
  repeat split; reflexivity.
Qed.

Lemma read_requests_app a b :
  read_requests (a ++ b) = read_requests b ++ read_requests a.
Proof. unfold read_requests. rewrite rev_app_distr, flat_map_app. reflexivity. Qed.

Lemma write_requests_app a b :
  write_requests (a ++ b) = write_requests b ++ write_requests a.
Proof. unfold write_requests. rewrite rev_app_distr, flat_map_app. reflexivity. Qed.

Lemma session_events_quiet l :
  Forall (fun e => is_conversion_event e = false) l ->
  read_requests l = [] /\ write_requests l = [] /\
  filter is_poll l = [] /\ filter is_update_volume_header l = [] /\
  filter is_update_blocks_call l = [].
Proof.
  induction 1 as [| e l He _ IH].
  - repeat split.
  - destruct IH as (Hr & Hw & Hp & Hu & Hb).
    change (e :: l) with ([e] ++ l).
    rewrite read_requests_app, write_requests_app, !filter_app, Hr, Hw, Hp, Hu, Hb.
    destruct e; try discriminate He; repeat split.
Qed.

Lemma probes_quiet probe parent children :
  Forall (fun e => is_conversion_event e = false)
    (probes_until probe parent children).
Proof.
  induction children as [| e rest IH]; cbn [probes_until]; [constructor |].
  constructor; [reflexivity |].
  destruct (probe (ControllerHandle e)); [constructor | exact IH].
Qed.

Lemma session_prefix_quiet options ImageHandle parent child key OpenInfo
    entries probe io :
  Forall (fun e => is_conversion_event e = false)
    (session_prefix options ImageHandle parent child key OpenInfo entries
       probe io []).
Proof.
  unfold session_prefix.
  apply Forall_app; split; [destruct (silent options); repeat constructor |].
  do 3 (constructor; [reflexivity |]).
  apply Forall_app; split; [apply Forall_rev, probes_quiet |].
  do 7 (constructor; [reflexivity |]).
  rewrite app_nil_r. destruct (silent options); repeat constructor.
Qed.

(** What the log of the whole run shows of the conversion [new] when it sits
    between the closing of the session and its quiet prefix. *)
Lemma session_log_of_conversion c1 c2 new pre :
  is_conversion_event c1 = false -> is_conversion_event c2 = false ->
  Forall (fun e => is_conversion_event e = false) pre ->
  read_requests (c1 :: c2 :: new ++ pre) = read_requests new /\
  write_requests (c1 :: c2 :: new ++ pre) = write_requests new /\
  filter is_poll (c1 :: c2 :: new ++ pre) = filter is_poll new /\
  filter is_update_volume_header (c1 :: c2 :: new ++ pre)
  = filter is_update_volume_header new.
Proof.
  intros H1 H2 Hpre.
  destruct (session_events_quiet pre Hpre) as (Hr & Hw & Hp & Hu & _).
  assert (Hc : Forall (fun e => is_conversion_event e = false) [c1; c2])
    by (repeat constructor; assumption).
  destruct (session_events_quiet _ Hc) as (Hr' & Hw' & Hp' & Hu' & _).
  change (c1 :: c2 :: new ++ pre) with ([c1; c2] ++ new ++ pre).
  rewrite !read_requests_app, !write_requests_app, !filter_app.
  rewrite Hr, Hw, Hp, Hu, Hr', Hw', Hp', Hu'. cbn [app].
  rewrite !app_nil_r. repeat split.
Qed.

(** C3: a volume of 1000 sectors, nothing encrypted yet, direction encrypt,
    CS_SERVICE_NUMBER_SECTORS = 80, every transfer and the header update
    succeed, no ESC key. encrypt_decrypt_media returns EFI_SUCCESS with the
    decision CS_UI_REBOOT; the loop ran 13 times (13 reads, 13 writes, 13
    polls): twelve chunks of 80 sectors and a last one of 40, from sector 0
    upwards; update_volume_header was called once, and the header it was
    handed to write back is the unlocked header with EncryptedAreaLength set
    to 1000 sectors in bytes, which is also the header left in memory. The
    enumeration may hold entries of other consumers with a NULL controller
    handle; only the child-controller entries must carry a handle. *)
Theorem whole_volume_converted_in_thirteen_chunks
    (hdr : CRYPTO_INFO) (parent child : EFI_HANDLE) (key : Z) (text : list Z)
    (OpenInfo : Z) (entries : list EFI_OPEN_PROTOCOL_INFORMATION_ENTRY)
    (probe : EFI_HANDLE -> bool) (io : EFI_HANDLE -> EFI_BLOCK_IO)
    (fuel : nat) (ImageHandle : EFI_HANDLE) (options : cs_option_flags)
    (passwd : Password) (w : World) :
  (forall t, fw_check_for_ESC env t = false) ->
  reaches_conversion env hdr parent child key text OpenInfo entries probe io ->
  fresh_1000_sectors cfg hdr ->
  trace w = [] ->
  exists w',
    encrypt_decrypt_media cfg env (S fuel) ImageHandle options true passwd w
    = Returned (EFI_SUCCESS, CS_UI_REBOOT,
                {| Text := text; Length := strlena text |}) w' /\
    EncryptedAreaLength (crypto_info w') = to_bytes cfg 1000 /\
    read_requests (trace w') = chunk_requests cfg chunks_1000_by_80 /\
    write_requests (trace w') = chunk_requests cfg chunks_1000_by_80 /\
    length (read_requests (trace w')) = 13%nat /\
    count is_poll (trace w') = 13%nat /\
    count is_update_volume_header (trace w') = 1%nat /\
    filter is_update_volume_header (trace w')
    = [EvUpdateVolumeHeader (set_EncryptedAreaLength (to_bytes cfg 1000) hdr)
         EFI_SUCCESS] /\
    crypto_info w' = set_EncryptedAreaLength (to_bytes cfg 1000) hdr.
Proof.
  intros Hesc Hreach Hhdr Hw.
  rewrite (conversion_reached cfg Hcfg env _ _ _ _ _ _ _ _ _ _ _ _ _ _ _ Hreach).
  rewrite Hw.
  match goal with
  | |- context [do_encrypt_decrypt_media cfg env ?p ?c true ?w0] =>
    destruct (encrypt_1000_sectors p c w0 Hesc Hhdr)
      as (new & Hrun & Hr & Hwr & Hp & _ & _ & Hpers)
  end.
  cbn [crypto_info] in Hpers.
  rewrite Hrun. cbn [close_session log trace crypto_info].
  eexists. split; [reflexivity |].
  unfold log. cbn [trace crypto_info EncryptedAreaLength set_EncryptedAreaLength].
  match goal with
  | |- context [read_requests (?c1 :: ?c2 :: new ++ ?pre)] =>
    destruct (session_log_of_conversion c1 c2 new pre eq_refl eq_refl
                (session_prefix_quiet _ _ _ _ _ _ _ _ _))
      as (Er & Ew & Ep & Eu)
  end.
  unfold count in *. rewrite Er, Ew, Ep, Eu, Hr, Hwr, Hp, Hpers.
  assert (Hsmall : UINTN cfg (to_bytes cfg 1000) = to_bytes cfg 1000).
  { destruct Hhdr as (_ & _ & _ & _ & Hfit). apply UINTN_small.
    split; [apply to_bytes_nonneg; [exact Hcfg | lia] | exact Hfit]. }
  rewrite Hsmall. repeat split.
Qed.

(** C5: the same volume and firmware, but the third poll of check_for_ESC
    finds the ESC key. The loop stops after the third chunk (3 reads, 3
    writes, 3 polls), update_volume_header is called once, the header it is
    handed to write back is the unlocked header with EncryptedAreaLength set
    to 240 sectors in bytes, which is also the header left in memory, and
    encrypt_decrypt_media returns EFI_SUCCESS with the decision
    CS_UI_REBOOT. *)
Theorem cancelled_after_third_chunk
    (hdr : CRYPTO_INFO) (parent child : EFI_HANDLE) (key : Z) (text : list Z)
    (OpenInfo : Z) (entries : list EFI_OPEN_PROTOCOL_INFORMATION_ENTRY)
    (probe : EFI_HANDLE -> bool) (io : EFI_HANDLE -> EFI_BLOCK_IO)
    (fuel : nat) (ImageHandle : EFI_HANDLE) (options : cs_option_flags)
    (passwd : Password) (w : World) :
  (forall t, fw_check_for_ESC env t = Nat.eqb (count is_poll t) 2) ->
  reaches_conversion env hdr parent child key text OpenInfo entries probe io ->
  fresh_1000_sectors cfg hdr ->
  trace w = [] ->
  exists w',
    encrypt_decrypt_media cfg env (S fuel) ImageHandle options true passwd w
    = Returned (EFI_SUCCESS, CS_UI_REBOOT,
                {| Text := text; Length := strlena text |}) w' /\
    EncryptedAreaLength (crypto_info w') = to_bytes cfg 240 /\
    read_requests (trace w') = chunk_requests cfg (firstn 3 chunks_1000_by_80) /\
    write_requests (trace w') = chunk_requests cfg (firstn 3 chunks_1000_by_80) /\
    filter is_poll (trace w')
    = [EvCheckForESC true; EvCheckForESC false; EvCheckForESC false] /\
    count is_update_volume_header (trace w') = 1%nat /\
    filter is_update_volume_header (trace w')
    = [EvUpdateVolumeHeader (set_EncryptedAreaLength (to_bytes cfg 240) hdr)
         EFI_SUCCESS] /\
    crypto_info w' = set_EncryptedAreaLength (to_bytes cfg 240) hdr.
Proof.
  intros Hesc Hreach Hhdr Hw.
  rewrite (conversion_reached cfg Hcfg env _ _ _ _ _ _ _ _ _ _ _ _ _ _ _ Hreach).
  rewrite Hw.
  match goal with
  | |- context [do_encrypt_decrypt_media cfg env ?p ?c true ?w0] =>
    assert (Hquiet : count is_poll (trace w0) = 0%nat);
    [ cbn [trace]; unfold count;
      rewrite (proj1 (proj2 (proj2 (session_events_quiet _
                 (session_prefix_quiet _ _ _ _ _ _ _ _ _))))); reflexivity
    | destruct (encrypt_cancelled_after_three_chunks p c w0 Hesc Hquiet Hhdr)
        as (new & Hrun & Hr & Hwr & Hp & _ & _ & Hpers) ]
  end.
  cbn [crypto_info] in Hpers.
  rewrite Hrun. cbn [close_session log trace crypto_info].
  eexists. split; [reflexivity |].
  unfold log. cbn [trace crypto_info EncryptedAreaLength set_EncryptedAreaLength].
  match goal with
  | |- context [read_requests (?c1 :: ?c2 :: new ++ ?pre)] =>
    destruct (session_log_of_conversion c1 c2 new pre eq_refl eq_refl
                (session_prefix_quiet _ _ _ _ _ _ _ _ _))
      as (Er & Ew & Ep & Eu)
  end.
  unfold count in *. rewrite Er, Ew, Ep, Eu, Hr, Hwr, Hp, Hpers.
  assert (Hsmall : UINTN cfg (to_bytes cfg 240) = to_bytes cfg 240).
  { destruct Hhdr as (_ & _ & _ & _ & Hfit). apply UINTN_small.
    split; [apply to_bytes_nonneg; [exact Hcfg | lia] |].
    pose proof (to_bytes_mono cfg Hcfg 240 1000). lia. }
  rewrite Hsmall. repeat split.
Qed.

End Scenarios.

(** ** Runs that complete *)

(** With 64-bit UINTN and a firmware in which every transfer, the allocation
    and the header update succeed and no ESC key is pending, the runs that
    C6 speaks of do return EFI_SUCCESS, for every volume of at least one
    sector. *)
Section CompleteRuns.

Variable cfg : Build.
Hypothesis Hcfg : build_ok cfg.
Hypothesis HW : UINTN_BITS cfg = 64.
Variable env : Firmware.

Hypothesis Hread : forall t this MediaId lba bytes,
    fw_ReadBlocks env t this MediaId lba bytes = EFI_SUCCESS.
Hypothesis Hwrite : forall t this MediaId lba bytes,
    fw_WriteBlocks env t this MediaId lba bytes = EFI_SUCCESS.
Hypothesis Hesc : forall t, fw_check_for_ESC env t = false.
Variable buffer : Z.
Hypothesis Halloc : forall t size, fw_AllocatePool env t size = Some buffer.
Hypothesis Hpersist : forall t info,
    fw_update_volume_header env t info = EFI_SUCCESS.

Lemma copy_loop_status_success encrypt source dest startSector V :
  forall fuel l w l' w',
    copy_loop cfg env fuel encrypt source dest startSector V l w = Returned l' w' ->
    error l' = error l \/ error l' = Some EFI_SUCCESS.
Proof.
  induction fuel as [| fuel IH]; intros l w l' w'; cbn [copy_loop];
    destruct (0 <? numberSectors l) eqn:Hpos; cbn;
    try discriminate; try (intros [= <- <-]; left; reflexivity).
  unfold bind, ReadBlocks, WriteBlocks, check_for_ESC, dump_per_cent, call, ret.
  cbn. rewrite Hread, EFI_ERROR_EFI_SUCCESS. cbn.
  rewrite Hwrite, EFI_ERROR_EFI_SUCCESS. cbn.
  destruct (0 <? V); cbn; rewrite Hesc; intros Hrec;
    destruct (IH _ _ _ _ Hrec) as [Hsame | Hok];
    right; [rewrite Hsame; reflexivity | exact Hok
           | rewrite Hsame; reflexivity | exact Hok].
Qed.

Lemma update_blocks_accepted info d encrypt w :
  crypto_info w = info ->
  0 <= EncryptedAreaStart info ->
  to_sectors cfg (EncryptedAreaStart info) + sectorsInVolume cfg info < 2 ^ 64 ->
  0 <= d <= sectorsInVolume cfg info ->
  exists w',
    update_blocks_in_volume_header cfg env
      (to_sectors cfg (EncryptedAreaStart info) + d) encrypt w
    = Returned EFI_SUCCESS w' /\
    crypto_info w' = set_EncryptedAreaLength (UINTN cfg (to_bytes cfg d)) info.
Proof.
  intros Hw Hs Hfit Hd.
  pose proof (to_sectors_nonneg cfg Hcfg _ Hs) as Ha.
  pose proof (UINTN_range cfg Hcfg (to_sectors cfg (VolumeSize info))) as HV.
  fold (sectorsInVolume cfg info) in HV.
  unfold update_blocks_in_volume_header, bind, call, get_crypto_info,
    put_crypto_info, update_volume_header, ret.
  cbv beta. cbn [log trace crypto_info set_crypto_info]. rewrite Hw.
  fold (sectorsInVolume cfg info).
  rewrite UINT64_small by lia.
  destruct (Z.ltb_spec (to_sectors cfg (EncryptedAreaStart info) + d)
                       (to_sectors cfg (EncryptedAreaStart info))); [lia |].
  destruct (Z.ltb_spec (to_sectors cfg (EncryptedAreaStart info)
                        + sectorsInVolume cfg info)
                       (to_sectors cfg (EncryptedAreaStart info) + d)); [lia |].
  cbn [orb]. cbv beta. cbn [log trace crypto_info set_crypto_info].
  replace (to_sectors cfg (EncryptedAreaStart info) + d
           - to_sectors cfg (EncryptedAreaStart info)) with d by lia.
  rewrite (UINTN_small cfg d) by lia.
  unfold call. rewrite Hpersist. eexists; split; reflexivity.
Qed.

Lemma run_completes p c encrypt w :
  wf_header (crypto_info w) ->
  numberEncryptedSectors cfg (crypto_info w) <= sectorsInVolume cfg (crypto_info w) ->
  0 < numberSectors (setup_locals cfg encrypt (crypto_info w)) ->
  to_sectors cfg (EncryptedAreaStart (crypto_info w))
  + sectorsInVolume cfg (crypto_info w) < 2 ^ 64 ->
  exists w',
    do_encrypt_decrypt_media cfg env p c encrypt w = Returned EFI_SUCCESS w' /\
    crypto_info w'
    = set_EncryptedAreaLength
        (if encrypt
         then UINTN cfg (to_bytes cfg (sectorsInVolume cfg (crypto_info w)))
         else 0)
        (crypto_info w).
Proof.
  intros Hwf Hle Hpos Hfit.
  assert (Hstart : 0 <= EncryptedAreaStart (crypto_info w)) by apply Hwf.
  assert (Hchk : (sectorsInVolume cfg (crypto_info w)
                  <? numberEncryptedSectors cfg (crypto_info w)) = false)
    by (apply Z.ltb_ge; exact Hle).
  destruct (do_encrypt_decrypt_media_run cfg Hcfg env p c encrypt w buffer Hchk
              (Halloc _ _)) as (l' & w2 & Hloop & Hci & _ & Hrun).
  destruct (copy_loop_error_last cfg env _ _ _ _ _ _ _ _ _ _ Hloop)
    as [(_ & _ & Hno) | (e & He & _)]; [apply Z.ltb_ge in Hno; lia |].
  destruct (copy_loop_status_success _ _ _ _ _ _ _ _ _ _ Hloop) as [Hsame | Hok];
    [rewrite He in Hsame; discriminate Hsame |].
  rewrite Hok in Hrun. rewrite EFI_ERROR_EFI_SUCCESS in Hrun.
  destruct (copy_loop_exit cfg env _ _ _ _ _ Hesc _ _ _ _ _ Hloop)
    as [Hdone | (e' & He' & Hee')];
    [| rewrite Hok in He'; injection He' as <-;
       rewrite EFI_ERROR_EFI_SUCCESS in Hee'; discriminate].
  apply Z.ltb_ge in Hdone.
  set (info := crypto_info w) in *.
  pose proof (UINTN_range cfg Hcfg (to_sectors cfg (VolumeSize info))) as HV.
  pose proof (UINTN_range cfg Hcfg (to_sectors cfg (EncryptedAreaLength info))) as HE.
  fold (sectorsInVolume cfg info) in HV. fold (numberEncryptedSectors cfg info) in HE.
  pose proof (to_sectors_nonneg cfg Hcfg _ Hstart) as Ha.
  assert (Hmod : 2 ^ UINTN_BITS cfg = 2 ^ 64) by (rewrite HW; reflexivity).
  assert (Hd : processed_lba cfg encrypt info l'
               = to_sectors cfg (EncryptedAreaStart info)
                 + (if encrypt then sectorsInVolume cfg info else 0)).
  { unfold processed_lba. destruct encrypt.
    - assert (Hl0 : lba (setup_locals cfg true info) = numberEncryptedSectors cfg info
                    /\ numberSectors (setup_locals cfg true info)
                       = sectorsInVolume cfg info - numberEncryptedSectors cfg info).
      { unfold setup_locals; cbn.
        rewrite UINT64_small, UINTN_small by lia. split; reflexivity. }
      destruct Hl0 as [Hlba0 Hn0].
      destruct (copy_loop_encrypt_cursor cfg Hcfg env _ _ _ _ _ _ _ _ _
                  (setup_ready cfg Hcfg true info)
                  ltac:(rewrite Hlba0; lia) Hloop) as (Hlba' & Hn' & Hsum).
      rewrite Hlba0, Hn0 in Hsum.
      replace (numberSectors l') with 0 in Hsum by lia.
      rewrite Z.add_0_r in Hsum.
      replace (numberEncryptedSectors cfg info
               + (sectorsInVolume cfg info - numberEncryptedSectors cfg info))
        with (sectorsInVolume cfg info) in Hsum by lia.
      rewrite !UINTN_small in Hsum by lia.
      rewrite Hsum. rewrite UINT64_small by lia. lia.
    - pose proof (setup_ready cfg Hcfg false info) as (_ & Hb0 & _).
      assert (Hl0 : numberSectors (setup_locals cfg false info)
                    = numberEncryptedSectors cfg info /\
                    bufferSectors (setup_locals cfg false info)
                    <= numberEncryptedSectors cfg info /\
                    lba (setup_locals cfg false info)
                    = numberEncryptedSectors cfg info
                      - bufferSectors (setup_locals cfg false info)).
      { unfold setup_locals in *; cbn in *.
        destruct (numberEncryptedSectors cfg info
                  <? UINTN cfg (CS_SERVICE_NUMBER_SECTORS cfg)) eqn:Hlt;
          [| apply Z.ltb_ge in Hlt];
          rewrite UINT64_small by lia; repeat split; lia. }
      destruct Hl0 as (Hn0 & Hble & Hlba0).
      destruct (copy_loop_decrypt_cursor cfg Hcfg env _ _ _ _ _ _ _ _ _
                  ltac:(rewrite Hn0; lia) ltac:(rewrite Hn0; lia)
                  ltac:(rewrite Hn0; exact Hlba0) Hloop) as (Hb' & Hlba').
      replace (bufferSectors l') with 0 by lia.
      replace (lba l') with 0 by lia.
      rewrite Z.add_0_l, Z.add_0_r, !UINT64_small by (rewrite ?UINT64_small; lia).
      lia. }
  rewrite Hd in Hrun.
  destruct (update_blocks_accepted info
              (if encrypt then sectorsInVolume cfg info else 0) encrypt
              (log (EvFreePool buffer) w2)) as (w' & Hup & Hnew);
    [exact Hci | exact Hstart | exact Hfit | destruct encrypt; lia |].
  exists w'. split; [rewrite Hrun; exact Hup |].
  rewrite Hnew. destruct encrypt; [reflexivity |].
  f_equal. unfold to_bytes. rewrite Z.shiftl_0_l. apply UINTN_small. lia.
Qed.

(** Both runs of the round trip return EFI_SUCCESS, and the second one puts
    EncryptedAreaLength back to 0. *)
Lemma round_trip_completes p c w0 :
  wf_header (crypto_info w0) ->
  EncryptedAreaLength (crypto_info w0) = 0 ->
  0 < sectorsInVolume cfg (crypto_info w0) ->
  to_sectors cfg (EncryptedAreaStart (crypto_info w0))
  + sectorsInVolume cfg (crypto_info w0) < 2 ^ 64 ->
  exists w1 w2,
    do_encrypt_decrypt_media cfg env p c true w0 = Returned EFI_SUCCESS w1 /\
    do_encrypt_decrypt_media cfg env p c false w1 = Returned EFI_SUCCESS w2 /\
    EncryptedAreaLength (crypto_info w2) = 0.
Proof.
  intros Hwf Hzero HV Hfit.
  assert (HE0 : numberEncryptedSectors cfg (crypto_info w0) = 0).
  { unfold numberEncryptedSectors, to_sectors. rewrite Hzero, Z.shiftr_0_l.
    apply UINTN_small. pose proof (UINTN_modulus_pos cfg Hcfg). lia. }
  pose proof (UINTN_range cfg Hcfg
                (to_sectors cfg (VolumeSize (crypto_info w0)))) as HVr.
  fold (sectorsInVolume cfg (crypto_info w0)) in HVr.
  destruct (run_completes p c true w0 Hwf) as (w1 & Hrun1 & Hci1);
    [rewrite HE0; lia
    | unfold setup_locals; cbn; rewrite HE0, Z.sub_0_r, UINTN_small by lia; lia
    | exact Hfit |].
  assert (Hmod : 2 ^ UINTN_BITS cfg = 2 ^ 64) by (rewrite HW; reflexivity).
  destruct Hwf as (Hs & He & Hv).
  assert (Hsec : sectorsInVolume cfg (crypto_info w0)
                 = to_sectors cfg (VolumeSize (crypto_info w0))).
  { apply UINTN_small.
    pose proof (to_sectors_nonneg cfg Hcfg _ (proj1 Hv)).
    pose proof (to_sectors_le cfg Hcfg _ (proj1 Hv)). lia. }
  assert (Hbytes : 0 <= to_bytes cfg (sectorsInVolume cfg (crypto_info w0))
                   <= VolumeSize (crypto_info w0)).
  { split; [apply to_bytes_nonneg; [exact Hcfg | lia] |].
    rewrite Hsec. apply to_bytes_to_sectors_le; [exact Hcfg | lia]. }
  assert (HE1 : numberEncryptedSectors cfg (crypto_info w1)
                = sectorsInVolume cfg (crypto_info w0)).
  { rewrite Hci1. unfold numberEncryptedSectors; cbn.
    rewrite (UINTN_small cfg (to_bytes cfg _)) by lia.
    rewrite to_sectors_to_bytes by exact Hcfg. apply UINTN_small. lia. }
  assert (HV1 : sectorsInVolume cfg (crypto_info w1)
                = sectorsInVolume cfg (crypto_info w0))
    by (rewrite Hci1; reflexivity).
  destruct (run_completes p c false w1) as (w2 & Hrun2 & Hci2).
  - rewrite Hci1. unfold wf_header; cbn.
    pose proof (UINTN_range cfg Hcfg
                  (to_bytes cfg (sectorsInVolume cfg (crypto_info w0)))).
    repeat split; lia.
  - rewrite HE1, HV1. lia.
  - unfold setup_locals; cbn. rewrite HE1. lia.
  - rewrite HV1, Hci1. exact Hfit.
  - exists w1, w2. split; [exact Hrun1 |]. split; [exact Hrun2 |].
    rewrite Hci2. reflexivity.
Qed.

End CompleteRuns.

(** ** The statements at concrete inputs *)

Lemma x86_64_build_ok : build_ok x86_64_build.
Proof.
  split; [right; reflexivity |].
  split; split; reflexivity || (vm_compute; congruence).
Qed.

Lemma example_header_fresh :
  fresh_1000_sectors x86_64_build (example_header 1000 0).
Proof. unfold fresh_1000_sectors. repeat split; vm_compute; congruence. Qed.

Lemma example_header_wf sectors encrypted :
  0 <= encrypted <= sectors -> sectors < 2 ^ 32 ->
  wf_header (example_header sectors encrypted) /\
  header_inv (example_header sectors encrypted).
Proof.
  intros. unfold wf_header, header_inv, example_header; cbn.
  assert (2 ^ 32 * 512 < 2 ^ 64) by reflexivity. lia.
Qed.

(** The boot partition of the examples, with its HandleProtocol consumer,
    lets the orchestrator reach the conversion. *)
Lemma boot_partition_reaches_conversion hdr esc :
  reaches_conversion (boot_partition_firmware hdr esc)
    hdr 100 200 key_return [112; 119; 0] 500 boot_partition_entries
    example_probe example_io.
Proof.
  constructor; try (intros; reflexivity).
  - discriminate.
  - repeat constructor; discriminate.
Qed.

(** C4 at a cursor before the volume: sector 5 of a volume that starts at
    sector 2048. *)
Lemma update_blocks_out_of_range_witness :
  0 <= EncryptedAreaStart (example_header 1000 0) /\
  5 < to_sectors x86_64_build (EncryptedAreaStart (example_header 1000 0)) /\
  exists w',
    update_blocks_in_volume_header x86_64_build
      (good_firmware (example_header 1000 0)) 5 true
      (example_world (example_header 1000 0))
    = Returned (EFI_VOLUME_CORRUPTED x86_64_build) w' /\
    crypto_info w' = example_header 1000 0 /\
    trace w' = [EvUpdateBlocksInVolumeHeader 5 (example_header 1000 0) true] /\
    count is_update_volume_header (trace w') = 0%nat.
Proof.
  split; [vm_compute; congruence |]. split; [reflexivity |].
  apply (update_blocks_out_of_range_is_volume_corrupted x86_64_build
           x86_64_build_ok (good_firmware (example_header 1000 0)) 5 true
           (example_world (example_header 1000 0))).
  - vm_compute; congruence.
  - left; reflexivity.
Defined.

(** C7 on the fresh volume of 1000 sectors. *)
Lemma header_invariant_witness :
  wf_header (example_header 1000 0) /\
  header_inv (example_header 1000 0) /\
  (forall processedLba encrypt,
     let w' := world_of (update_blocks_in_volume_header x86_64_build
                           (good_firmware (example_header 1000 0))
                           processedLba encrypt
                           (example_world (example_header 1000 0))) in
     header_inv (crypto_info w') /\ Forall persistence_inv (trace w')) /\
  (forall parentBlockIo childBlockIo encrypt,
     let w' := world_of (do_encrypt_decrypt_media x86_64_build
                           (good_firmware (example_header 1000 0))
                           parentBlockIo childBlockIo encrypt
                           (example_world (example_header 1000 0))) in
     header_inv (crypto_info w') /\ Forall persistence_inv (trace w')).
Proof.
  assert (H : 0 <= 0 <= 1000) by lia.
  destruct (example_header_wf 1000 0 H eq_refl) as [Hwf Hinv].
  split; [exact Hwf |]. split; [exact Hinv |].
  apply (header_invariant_around_persistence x86_64_build x86_64_build_ok
           (good_firmware (example_header 1000 0))
           (example_world (example_header 1000 0)) Hwf Hinv).
  constructor.
Defined.

(** C10 on a volume that is already encrypted to its end. *)
Lemma zero_sectors_witness :
  EncryptedAreaLength (example_header 1000 1000)
  = VolumeSize (example_header 1000 1000) /\
  do_encrypt_decrypt_media x86_64_build
    (good_firmware (example_header 1000 1000)) 101 201 true
    (example_world (example_header 1000 1000))
  = UninitRead
      {| crypto_info := example_header 1000 1000;
         trace := [EvFreePool 900; EvAllocatePool 40960 (Some 900);
                   EvResetInput] |}.
Proof.
  split; [reflexivity |].
  apply (zero_sectors_read_of_unassigned_status x86_64_build x86_64_build_ok
           (good_firmware (example_header 1000 1000)) 101 201 true
           (example_world (example_header 1000 1000)) 900);
    reflexivity.
Defined.

(** C1 as stated fails when a transfer fails: the first ReadBlocks of the
    fresh volume answers EFI_DEVICE_ERROR. The buffer was allocated and is
    freed, the error is returned, and update_blocks_in_volume_header was not
    entered at all. *)
Lemma failed_read_skips_persistence_step :
  fw_AllocatePool (failing_read_firmware (example_header 1000 0))
    [EvResetInput] 40960 = Some 900 /\
  do_encrypt_decrypt_media x86_64_build
    (failing_read_firmware (example_header 1000 0)) 101 201 true
    (example_world (example_header 1000 0))
  = Returned EFI_DEVICE_ERROR_64
      {| crypto_info := example_header 1000 0;
         trace := [EvFreePool 900;
                   EvReadBlocks 201 1 0 40960 EFI_DEVICE_ERROR_64;
                   EvAllocatePool 40960 (Some 900); EvResetInput] |} /\
  count is_update_blocks_call
    (trace (world_of
       (do_encrypt_decrypt_media x86_64_build
          (failing_read_firmware (example_header 1000 0)) 101 201 true
          (example_world (example_header 1000 0))))) <> 1%nat.
Proof.
  split; [reflexivity |]. split; [vm_compute; reflexivity |].
  vm_compute. discriminate.
Qed.

(** C1, as amended, on the fresh volume with working transfers. *)
Lemma persistence_step_witness :
  (sectorsInVolume x86_64_build (example_header 1000 0)
   <? numberEncryptedSectors x86_64_build (example_header 1000 0)) = false /\
  0 < numberSectors (setup_locals x86_64_build true (example_header 1000 0)) /\
  exists l' w2 e,
    copy_loop x86_64_build (good_firmware (example_header 1000 0))
      (loop_bound x86_64_build
         (setup_locals x86_64_build true (example_header 1000 0)))
      true 201 101 0 (sectorsInVolume x86_64_build (example_header 1000 0))
      (setup_locals x86_64_build true (example_header 1000 0))
      (log (EvAllocatePool 40960 (Some 900))
         (log EvResetInput (example_world (example_header 1000 0))))
    = Returned l' w2 /\
    error l' = Some e /\
    last_transfer_status (trace w2) = Some e /\
    if EFI_ERROR x86_64_build e
    then do_encrypt_decrypt_media x86_64_build
           (good_firmware (example_header 1000 0)) 101 201 true
           (example_world (example_header 1000 0))
         = Returned e (log (EvFreePool 900) w2) /\
         count is_update_blocks_call
           (trace (world_of
              (do_encrypt_decrypt_media x86_64_build
                 (good_firmware (example_header 1000 0)) 101 201 true
                 (example_world (example_header 1000 0))))) = 0%nat
    else do_encrypt_decrypt_media x86_64_build
           (good_firmware (example_header 1000 0)) 101 201 true
           (example_world (example_header 1000 0))
         = update_blocks_in_volume_header x86_64_build
             (good_firmware (example_header 1000 0))
             (processed_lba x86_64_build true (example_header 1000 0) l')
             true (log (EvFreePool 900) w2) /\
         count is_update_blocks_call
           (trace (world_of
              (do_encrypt_decrypt_media x86_64_build
                 (good_firmware (example_header 1000 0)) 101 201 true
                 (example_world (example_header 1000 0))))) = 1%nat.
Proof.
  split; [reflexivity |]. split; [reflexivity |].
  apply (persistence_step_after_copy_loop x86_64_build x86_64_build_ok
           (good_firmware (example_header 1000 0)) 101 201 true
           (example_world (example_header 1000 0)) 900);
    reflexivity.
Defined.

(** C2 as stated fails: after the escape key the decision handed back is
    CS_UI_SERVICE_MENU, not CS_UI_ESC_PRESSED. *)
Lemma escape_decision_is_service_menu :
  encrypt_decrypt_media x86_64_build (escape_firmware (example_header 1000 0))
    1 1 example_options true empty_password
    (example_world (example_header 1000 0))
  = Returned (EFI_SUCCESS, CS_UI_SERVICE_MENU,
              {| Text := [112; 119; 0]; Length := 0 |})
      {| crypto_info := example_header 1000 0;
         trace := [EvGetInput true EFI_SUCCESS 23; EvAskForPwd false EFI_SUCCESS;
                   EvOutputString STR_CRLF_LF_SPACE EFI_SUCCESS] |} /\
  decision_of
    (encrypt_decrypt_media x86_64_build (escape_firmware (example_header 1000 0))
       1 1 example_options true empty_password
       (example_world (example_header 1000 0)))
  <> Some CS_UI_ESC_PRESSED.
Proof.
  split; [vm_compute; reflexivity |]. vm_compute. discriminate.
Qed.

(** C2, as amended, with the same firmware. *)
Lemma escape_at_first_prompt_witness :
  EFI_ERROR x86_64_build EFI_SUCCESS = false /\
  fw_get_input (escape_firmware (example_header 1000 0))
    [EvAskForPwd false EFI_SUCCESS;
     EvOutputString STR_CRLF_LF_SPACE EFI_SUCCESS] true
  = (EFI_SUCCESS, 23, [112; 119; 0]) /\
  encrypt_decrypt_media x86_64_build (escape_firmware (example_header 1000 0))
    1 1 example_options true empty_password
    (example_world (example_header 1000 0))
  = Returned (EFI_SUCCESS, CS_UI_SERVICE_MENU,
              {| Text := [112; 119; 0]; Length := 0 |})
      {| crypto_info := example_header 1000 0;
         trace := [EvGetInput true EFI_SUCCESS 23; EvAskForPwd false EFI_SUCCESS;
                   EvOutputString STR_CRLF_LF_SPACE EFI_SUCCESS] |}.
Proof.
  split; [reflexivity |]. split; [reflexivity |].
  apply (escape_at_first_prompt x86_64_build
           (escape_firmware (example_header 1000 0)) 0 1 example_options true
           empty_password (example_world (example_header 1000 0))
           EFI_SUCCESS [112; 119; 0]);
    intros; reflexivity.
Defined.

(** C9 on the boot partition of the examples, with a HandleProtocol consumer
    whose entry has a NULL controller handle: that entry is passed over, the
    unrelated filter driver's child (150) is probed and turned down, the
    CipherShed child (200) is taken. *)
Lemma get_cs_child_witness :
  fw_OpenProtocolInformation
    (boot_partition_firmware (example_header 1000 0) never_esc) [] 100
  = (EFI_SUCCESS, Some (500, boot_partition_entries)) /\
  Forall (fun e => ControllerHandle e <> NULL)
    (filter is_child_controller boot_partition_entries) /\
  get_cs_child x86_64_build
    (boot_partition_firmware (example_header 1000 0) never_esc) 100
    (example_world (example_header 1000 0))
  = Returned (EFI_SUCCESS, 200)
      {| crypto_info := example_header 1000 0;
         trace := [EvFreePool 500; EvIsCsChildDevice 100 200 true;
                   EvIsCsChildDevice 100 150 false;
                   EvOpenProtocolInformation 100 EFI_SUCCESS] |}.
Proof.
  assert (Hnn : Forall (fun e => ControllerHandle e <> NULL)
                  (filter is_child_controller boot_partition_entries))
    by (repeat constructor; discriminate).
  split; [reflexivity |]. split; [exact Hnn |].
  apply (get_cs_child_first_match x86_64_build
           (boot_partition_firmware (example_header 1000 0) never_esc)
           example_probe 100
           (example_world (example_header 1000 0)) EFI_SUCCESS
           (Some (500, boot_partition_entries)));
    try (intros; reflexivity). exact Hnn.
Defined.

(** C9 when only the unrelated filter driver is attached: a child controller
    is there, the probe turns it down, the result is EFI_NO_MEDIA and the
    buffer is freed. *)
Example get_cs_child_no_match :
  get_cs_child x86_64_build
    (example_firmware (example_header 1000 0) key_return EFI_SUCCESS
       (firstn 2 example_entries) never_esc) 100
    (example_world (example_header 1000 0))
  = Returned (EFI_NO_MEDIA x86_64_build, NULL)
      {| crypto_info := example_header 1000 0;
         trace := [EvFreePool 500; EvIsCsChildDevice 100 150 false;
                   EvOpenProtocolInformation 100 EFI_SUCCESS] |}.
Proof. vm_compute. reflexivity. Qed.

(** C3 with 512-byte sectors on x86_64, on the boot partition with the
    HandleProtocol consumer. *)
Lemma whole_volume_witness :
  fresh_1000_sectors x86_64_build (example_header 1000 0) /\
  CS_SERVICE_NUMBER_SECTORS x86_64_build = 80 /\
  exists w',
    encrypt_decrypt_media x86_64_build
      (boot_partition_firmware (example_header 1000 0) never_esc)
      1 1 example_options true empty_password
      (example_world (example_header 1000 0))
    = Returned (EFI_SUCCESS, CS_UI_REBOOT,
                {| Text := [112; 119; 0]; Length := 2 |}) w' /\
    EncryptedAreaLength (crypto_info w') = 1000 * 512 /\
    read_requests (trace w') = chunk_requests x86_64_build chunks_1000_by_80 /\
    write_requests (trace w') = chunk_requests x86_64_build chunks_1000_by_80 /\
    length (read_requests (trace w')) = 13%nat /\
    count is_poll (trace w') = 13%nat /\
    count is_update_volume_header (trace w') = 1%nat /\
    filter is_update_volume_header (trace w')
    = [EvUpdateVolumeHeader (example_header 1000 1000) EFI_SUCCESS] /\
    crypto_info w' = example_header 1000 1000.
Proof.
  split; [exact example_header_fresh |]. split; [reflexivity |].
  apply (whole_volume_converted_in_thirteen_chunks x86_64_build x86_64_build_ok
           (boot_partition_firmware (example_header 1000 0) never_esc)
           ltac:(intros; reflexivity) ltac:(intros; reflexivity) eq_refl 900
           ltac:(intros; reflexivity) ltac:(intros; reflexivity)
           (example_header 1000 0) 100 200 key_return [112; 119; 0] 500
           boot_partition_entries example_probe example_io 0 1 example_options
           empty_password (example_world (example_header 1000 0))).
  - intros; reflexivity.
  - apply boot_partition_reaches_conversion.
  - exact example_header_fresh.
  - reflexivity.
Defined.

(** C5 with 512-byte sectors on x86_64, on the same boot partition. *)
Lemma cancelled_after_third_chunk_witness :
  (forall t, fw_check_for_ESC
               (boot_partition_firmware (example_header 1000 0) esc_at_third_poll) t
             = Nat.eqb (count is_poll t) 2) /\
  exists w',
    encrypt_decrypt_media x86_64_build
      (boot_partition_firmware (example_header 1000 0) esc_at_third_poll)
      1 1 example_options true empty_password
      (example_world (example_header 1000 0))
    = Returned (EFI_SUCCESS, CS_UI_REBOOT,
                {| Text := [112; 119; 0]; Length := 2 |}) w' /\
    EncryptedAreaLength (crypto_info w') = 240 * 512 /\
    read_requests (trace w')
    = chunk_requests x86_64_build (firstn 3 chunks_1000_by_80) /\
    write_requests (trace w')
    = chunk_requests x86_64_build (firstn 3 chunks_1000_by_80) /\
    filter is_poll (trace w')
    = [EvCheckForESC true; EvCheckForESC false; EvCheckForESC false] /\
    count is_update_volume_header (trace w') = 1%nat /\
    filter is_update_volume_header (trace w')
    = [EvUpdateVolumeHeader (example_header 1000 240) EFI_SUCCESS] /\
    crypto_info w' = example_header 1000 240.
Proof.
  split; [intros; reflexivity |].
  apply (cancelled_after_third_chunk x86_64_build x86_64_build_ok
           (boot_partition_firmware (example_header 1000 0) esc_at_third_poll)
           ltac:(intros; reflexivity) ltac:(intros; reflexivity) eq_refl 900
           ltac:(intros; reflexivity) ltac:(intros; reflexivity)
           (example_header 1000 0) 100 200 key_return [112; 119; 0] 500
           boot_partition_entries example_probe example_io 0 1 example_options
           empty_password (example_world (example_header 1000 0))).
  - intros; reflexivity.
  - apply boot_partition_reaches_conversion.
  - exact example_header_fresh.
  - reflexivity.
Defined.

(** C6 on a volume of 160 sectors: two chunks forward, two chunks back. *)
Lemma round_trip_witness :
  do_encrypt_decrypt_media x86_64_build (good_firmware (example_header 160 0))
    101 201 true (example_world (example_header 160 0))
  = Returned EFI_SUCCESS
      (world_of (do_encrypt_decrypt_media x86_64_build
                   (good_firmware (example_header 160 0))
                   101 201 true (example_world (example_header 160 0)))) /\
  do_encrypt_decrypt_media x86_64_build (good_firmware (example_header 160 0))
    101 201 false
    (world_of (do_encrypt_decrypt_media x86_64_build
                 (good_firmware (example_header 160 0))
                 101 201 true (example_world (example_header 160 0))))
  = Returned EFI_SUCCESS
      (world_of
         (do_encrypt_decrypt_media x86_64_build
            (good_firmware (example_header 160 0)) 101 201 false
            (world_of (do_encrypt_decrypt_media x86_64_build
                         (good_firmware (example_header 160 0))
                         101 201 true (example_world (example_header 160 0)))))) /\
  EncryptedAreaLength
    (crypto_info
       (world_of (do_encrypt_decrypt_media x86_64_build
                    (good_firmware (example_header 160 0))
                    101 201 true (example_world (example_header 160 0)))))
  = 160 * 512 /\
  EncryptedAreaLength
    (crypto_info
       (world_of
          (do_encrypt_decrypt_media x86_64_build
             (good_firmware (example_header 160 0)) 101 201 false
             (world_of (do_encrypt_decrypt_media x86_64_build
                          (good_firmware (example_header 160 0))
                          101 201 true (example_world (example_header 160 0)))))))
  = EncryptedAreaLength (example_header 160 0).
Proof.
  assert (H1 :
    do_encrypt_decrypt_media x86_64_build (good_firmware (example_header 160 0))
      101 201 true (example_world (example_header 160 0))
    = Returned EFI_SUCCESS
        (world_of (do_encrypt_decrypt_media x86_64_build
                     (good_firmware (example_header 160 0))
                     101 201 true (example_world (example_header 160 0)))))
    by (vm_compute; reflexivity).
  assert (H2 :
    do_encrypt_decrypt_media x86_64_build (good_firmware (example_header 160 0))
      101 201 false
      (world_of (do_encrypt_decrypt_media x86_64_build
                   (good_firmware (example_header 160 0))
                   101 201 true (example_world (example_header 160 0))))
    = Returned EFI_SUCCESS
        (world_of
           (do_encrypt_decrypt_media x86_64_build
              (good_firmware (example_header 160 0)) 101 201 false
              (world_of (do_encrypt_decrypt_media x86_64_build
                           (good_firmware (example_header 160 0))
                           101 201 true
                           (example_world (example_header 160 0)))))))
    by (vm_compute; reflexivity).
  assert (Hb : 0 <= 0 <= 160) by lia.
  destruct (encrypt_then_decrypt_round_trip x86_64_build x86_64_build_ok
              (good_firmware (example_header 160 0)) 101 201
              (example_world (example_header 160 0)) _ _ EFI_SUCCESS EFI_SUCCESS
              ltac:(intros; reflexivity)
              (proj1 (example_header_wf 160 0 Hb eq_refl)) eq_refl
              H1 eq_refl H2 eq_refl) as (_ & Hfull & Hback).
  split; [exact H1 |]. split; [exact H2 |].
  split; [apply Hfull; reflexivity | exact Hback].
Defined.

(** * Further properties of the code *)

(** ** The copy loop, event by event *)

Section LoopTrace.

Variable cfg : Build.
Variable env : Firmware.

(** Induction over the passes of the loop: a relation between the state the
    loop is entered in, the events it logs (newest first) and the state it
    returns holds of every returning run when it holds of a loop that is not
    entered, of a pass that ends in a failed read, in a failed write or in
    the ESC key, and is kept by a pass that goes on. *)
Lemma copy_loop_trace (R : Locals -> list Event -> Locals -> Prop)
    encrypt source dest startSector V :
  (forall l, (0 <? numberSectors l) = false -> R l [] l) ->
  (forall l e, 0 < numberSectors l -> EFI_ERROR cfg e = true ->
     R l [EvReadBlocks source (fw_MediaId env source) (lba l) (bytesToRead l) e]
       (set_error e l)) ->
  (forall l e e', 0 < numberSectors l ->
     EFI_ERROR cfg e = false -> EFI_ERROR cfg e' = true ->
     R l [EvWriteBlocks dest (fw_MediaId env dest) (lba l) (bytesToRead l) e';
          EvReadBlocks source (fw_MediaId env source) (lba l) (bytesToRead l) e]
       (set_error e' (set_error e l))) ->
  (forall l e e', 0 < numberSectors l ->
     EFI_ERROR cfg e = false -> EFI_ERROR cfg e' = false ->
     R l (chunk_events env encrypt source dest startSector V l
            (advance cfg encrypt (set_error e' (set_error e l))) e e' true)
       (advance cfg encrypt (set_error e' (set_error e l)))) ->
  (forall l e e' rest l', 0 < numberSectors l ->
     EFI_ERROR cfg e = false -> EFI_ERROR cfg e' = false ->
     R (advance cfg encrypt (set_error e' (set_error e l))) rest l' ->
     R l (rest ++ chunk_events env encrypt source dest startSector V l
                    (advance cfg encrypt (set_error e' (set_error e l)))
                    e e' false) l') ->
  forall fuel l w l' w',
    copy_loop cfg env fuel encrypt source dest startSector V l w = Returned l' w' ->
    crypto_info w' = crypto_info w /\
    exists new, trace w' = new ++ trace w /\ R l new l'.
Proof.
  intros Hbase Hread Hwrite Hesc Hstep.
  induction fuel as [| fuel IH]; intros l w l' w'; cbn [copy_loop];
    destruct (0 <? numberSectors l) eqn:Hpos; cbn;
    try discriminate;
    try (intros [= <- <-]; split; [reflexivity |]; exists []; split;
         [reflexivity | apply Hbase, Hpos]).
  apply Z.ltb_lt in Hpos.
  unfold bind, ReadBlocks, WriteBlocks, check_for_ESC, dump_per_cent, call, ret.
  cbn.
  destruct (EFI_ERROR cfg (fw_ReadBlocks _ _ _ _ _ _)) eqn:Hr; cbn.
  { intros [= <- <-]. split; [reflexivity |]. eexists [_]. split; [reflexivity |].
    apply Hread; assumption. }
  destruct (EFI_ERROR cfg (fw_WriteBlocks _ _ _ _ _ _)) eqn:Hw; cbn.
  { intros [= <- <-]. split; [reflexivity |]. eexists [_; _].
    split; [reflexivity |]. apply Hwrite; assumption. }
  destruct (0 <? V) eqn:HV; cbn.
  - destruct (fw_check_for_ESC _ _) eqn:Hkey; cbn.
    + intros [= <- <-]. split; [reflexivity |].
      eexists. split; [| eapply (Hesc _ _ _ Hpos Hr Hw)].
      unfold chunk_events. rewrite HV. reflexivity.
    + intros Hrec. destruct (IH _ _ _ _ Hrec) as (Hc & rest & Ht & HR).
      split; [rewrite Hc; reflexivity |].
      eexists. split; [| eapply (Hstep _ _ _ _ _ Hpos Hr Hw HR)].
      rewrite Ht. unfold chunk_events. rewrite HV, <- app_assoc. reflexivity.
  - destruct (fw_check_for_ESC _ _) eqn:Hkey; cbn.
    + intros [= <- <-]. split; [reflexivity |].
      eexists. split; [| eapply (Hesc _ _ _ Hpos Hr Hw)].
      unfold chunk_events. rewrite HV. reflexivity.
    + intros Hrec. destruct (IH _ _ _ _ Hrec) as (Hc & rest & Ht & HR).
      split; [rewrite Hc; reflexivity |].
      eexists. split; [| eapply (Hstep _ _ _ _ _ Hpos Hr Hw HR)].
      rewrite Ht. unfold chunk_events. rewrite HV, <- app_assoc. reflexivity.
Qed.

End LoopTrace.

(** ** What the copy loop asks of the two devices *)

Section LoopLog.

Variable cfg : Build.
Hypothesis Hcfg : build_ok cfg.
Variable env : Firmware.

Lemma transfers_app a b : transfers (a ++ b) = transfers b ++ transfers a.
Proof. unfold transfers. rewrite rev_app_distr, filter_app. reflexivity. Qed.

Lemma transfers_chunk encrypt source dest startSector V l l1 e e' esc :
  transfers (chunk_events env encrypt source dest startSector V l l1 e e' esc)
  = [EvReadBlocks source (fw_MediaId env source) (lba l) (bytesToRead l) e;
     EvWriteBlocks dest (fw_MediaId env dest) (lba l) (bytesToRead l) e'].
Proof. unfold chunk_events, transfers. destruct (0 <? V); reflexivity. Qed.

Lemma read_requests_chunk encrypt source dest startSector V l l1 e e' esc :
  read_requests (chunk_events env encrypt source dest startSector V l l1 e e' esc)
  = [(lba l, bytesToRead l)].
Proof. unfold chunk_events, read_requests. destruct (0 <? V); reflexivity. Qed.

Lemma write_requests_chunk encrypt source dest startSector V l l1 e e' esc :
  write_requests (chunk_events env encrypt source dest startSector V l l1 e e' esc)
  = [(lba l, bytesToRead l)].
Proof. unfold chunk_events, write_requests. destruct (0 <? V); reflexivity. Qed.

Lemma Forall_chunk (P : Event -> Prop) encrypt source dest startSector V l l1
    e e' esc :
  (0 < V -> P (EvDumpPerCent (per_mille encrypt startSector V l1))) ->
  P (EvCheckForESC esc) ->
  P (EvWriteBlocks dest (fw_MediaId env dest) (lba l) (bytesToRead l) e') ->
  P (EvReadBlocks source (fw_MediaId env source) (lba l) (bytesToRead l) e) ->
  Forall P (chunk_events env encrypt source dest startSector V l l1 e e' esc).
Proof.
  intros Hd He Hw Hr. unfold chunk_events.
  destruct (Z.ltb_spec 0 V); repeat constructor; auto.
Qed.

Lemma transfer_within_widen lo hi lo' hi' e :
  lo' <= lo -> hi <= hi' ->
  transfer_within cfg lo hi e -> transfer_within cfg lo' hi' e.
Proof.
  intros Hlo Hhi. destruct e; cbn; try exact (fun H => H);
    intros (s & Hs & Hb & H1 & H2); exists s; repeat split; try assumption; lia.
Qed.

(** Reads go to the source and writes to the destination. *)
Lemma copy_loop_one_way encrypt source dest startSector V fuel l w l' w' :
  copy_loop cfg env fuel encrypt source dest startSector V l w = Returned l' w' ->
  exists new, trace w' = new ++ trace w /\
              Forall (one_way env source dest) new.
Proof.
  intros Hloop.
  apply (copy_loop_trace cfg env (fun _ new _ => Forall (one_way env source dest) new))
    in Hloop; [exact (proj2 Hloop) | ..].
  - constructor.
  - intros; repeat constructor.
  - intros; repeat constructor.
  - intros. apply Forall_chunk; cbn; auto.
  - intros x e e' rest x' _ _ _ Hrest. apply Forall_app; split; [exact Hrest |].
    apply Forall_chunk; cbn; auto.
Qed.

(** Every write repeats the read before it, and a failed transfer is the
    last one. *)
Lemma copy_loop_well_paired encrypt source dest startSector V fuel l w l' w' :
  copy_loop cfg env fuel encrypt source dest startSector V l w = Returned l' w' ->
  exists new, trace w' = new ++ trace w /\ well_paired cfg (transfers new).
Proof.
  intros Hloop.
  apply (copy_loop_trace cfg env (fun _ new _ => well_paired cfg (transfers new)))
    in Hloop; [exact (proj2 Hloop) | ..].
  - intros; exact I.
  - intros x e _ He. exact He.
  - intros x e e' _ He He'. cbn. auto.
  - intros x e e' _ He He'. rewrite transfers_chunk. cbn.
    repeat split; auto; congruence.
  - intros x e e' rest x' _ He He' Hrest.
    rewrite transfers_app, transfers_chunk. cbn.
    repeat split; auto; congruence.
Qed.

End LoopLog.

(** ** The two sweeps *)

Section Sweeps.

Variable cfg : Build.
Hypothesis Hcfg : build_ok cfg.
Variable env : Firmware.

Lemma advance_encrypt_inv E V l e e' :
  0 <= E -> V < 2 ^ UINTN_BITS cfg ->
  encrypt_inv cfg E V l -> 0 < numberSectors l ->
  let l1 := advance cfg true (set_error e' (set_error e l)) in
  encrypt_inv cfg E V l1 /\ lba l1 = lba l + bufferSectors l /\
  error l1 = Some e'.
Proof.
  intros HE HV (Hlo & Hsum & Hn & Hb & Hcap & Hmin & Hbytes) Hpos.
  pose proof (UINTN_modulus_le cfg Hcfg) as HM.
  destruct Hb as [Hz | Hb]; [lia |].
  unfold encrypt_inv, advance, set_error; cbn.
  rewrite (UINT64_small (lba l + bufferSectors l)) by lia.
  rewrite (UINTN_small cfg (numberSectors l - bufferSectors l)) by lia.
  destruct (Z.ltb_spec (numberSectors l - bufferSectors l) (bufferSectors l));
    repeat split; try lia; try assumption.
Qed.

Lemma advance_decrypt_inv E l e e' :
  E < 2 ^ UINTN_BITS cfg ->
  decrypt_inv cfg E l -> 0 < numberSectors l ->
  let l1 := advance cfg false (set_error e' (set_error e l)) in
  decrypt_inv cfg E l1 /\
  numberSectors l1 = numberSectors l - bufferSectors l /\
  error l1 = Some e'.
Proof.
  intros HE (Hlba & Hb & Hn & Hgo & Hcap & Hmin & Hbytes) Hpos.
  pose proof (UINTN_modulus_le cfg Hcfg) as HM.
  destruct Hgo as [Hz | Hgo]; [lia |].
  unfold decrypt_inv, advance, set_error; cbn.
  rewrite (UINTN_small cfg (numberSectors l - bufferSectors l)) by lia.
  destruct (Z.ltb_spec (numberSectors l - bufferSectors l) (bufferSectors l));
    rewrite UINT64_small by lia; repeat split; try lia; try assumption.
Qed.

Lemma transfer_within_chunk lo hi this MediaId l st (read : bool) :
  bytesToRead l = UINTN cfg (to_bytes cfg (bufferSectors l)) ->
  0 < bufferSectors l -> lo <= lba l -> lba l + bufferSectors l <= hi ->
  transfer_within cfg lo hi
    (if read then EvReadBlocks this MediaId (lba l) (bytesToRead l) st
     else EvWriteBlocks this MediaId (lba l) (bytesToRead l) st).
Proof.
  intros Hbytes Hb Hlo Hhi.
  destruct read; cbn; exists (bufferSectors l); auto.
Qed.

(** The forward sweep: every request lies between the cursor and the end of
    the volume; when the loop is left after a transfer that did not fail,
    the chunks read and written lie end to end from where the cursor was to
    where it is. *)
Lemma copy_loop_encrypt_sweep E V source dest startSector V' fuel l w l' w' :
  0 <= E -> V < 2 ^ UINTN_BITS cfg ->
  encrypt_inv cfg E V l ->
  copy_loop cfg env fuel true source dest startSector V' l w = Returned l' w' ->
  exists new,
    trace w' = new ++ trace w /\
    encrypt_inv cfg E V l' /\ lba l <= lba l' /\
    Forall (transfer_within cfg (lba l) V) new /\
    ((new = [] /\ l' = l) \/
     exists e, error l' = Some e /\
       (EFI_ERROR cfg e = false ->
        exists sizes,
          sizes <> [] /\ Forall (fits_buffer cfg) sizes /\
          greedy (CS_SERVICE_NUMBER_SECTORS cfg) (numberSectors l) sizes /\
          read_requests new = chunk_requests cfg (ascending (lba l) sizes) /\
          write_requests new = chunk_requests cfg (ascending (lba l) sizes) /\
          lba l' = lba l + total sizes)).
Proof.
  intros HE HV Hinv Hloop.
  apply (copy_loop_trace cfg env
           (fun l new l' =>
              encrypt_inv cfg E V l ->
              encrypt_inv cfg E V l' /\ lba l <= lba l' /\
              Forall (transfer_within cfg (lba l) V) new /\
              ((new = [] /\ l' = l) \/
               exists e, error l' = Some e /\
                 (EFI_ERROR cfg e = false ->
                  exists sizes,
                    sizes <> [] /\ Forall (fits_buffer cfg) sizes /\
                    greedy (CS_SERVICE_NUMBER_SECTORS cfg) (numberSectors l)
                      sizes /\
                    read_requests new
                    = chunk_requests cfg (ascending (lba l) sizes) /\
                    write_requests new
                    = chunk_requests cfg (ascending (lba l) sizes) /\
                    lba l' = lba l + total sizes))))
    in Hloop.
  - destruct Hloop as (_ & new & Ht & HR). exists new. split; [exact Ht |].
    apply HR, Hinv.
  - intros x _ Hx. repeat split; try apply Hx; try lia; auto.
  - intros x e Hpos He Hx.
    assert (Hx' := Hx). destruct Hx' as (Hlo & Hsum & Hn & Hb & Hcap & Hmin & Hbytes).
    destruct Hb as [Hz | Hb]; [lia |].
    split; [exact Hx |]. split; [cbn; lia |]. split.
    + repeat constructor.
      apply (transfer_within_chunk _ _ source _ x e true); auto; lia.
    + right. exists e. split; [reflexivity | congruence].
  - intros x e e' Hpos He He' Hx.
    assert (Hx' := Hx). destruct Hx' as (Hlo & Hsum & Hn & Hb & Hcap & Hmin & Hbytes).
    destruct Hb as [Hz | Hb]; [lia |].
    split; [exact Hx |]. split; [cbn; lia |]. split.
    + repeat constructor.
      * apply (transfer_within_chunk _ _ dest _ x e' false); auto; lia.
      * apply (transfer_within_chunk _ _ source _ x e true); auto; lia.
    + right. exists e'. split; [reflexivity | congruence].
  - intros x e e' Hpos He He' Hx.
    destruct (advance_encrypt_inv E V x e e' HE HV Hx Hpos) as (Hx1 & Hlba1 & Herr1).
    assert (Hx' := Hx). destruct Hx' as (Hlo & Hsum & Hn & Hb & Hcap & Hmin & Hbytes).
    destruct Hb as [Hz | Hb]; [lia |].
    split; [exact Hx1 |]. split; [lia |]. split.
    + apply Forall_chunk; [intros; exact I | exact I | |].
      * apply (transfer_within_chunk _ _ dest _ x e' false); auto; lia.
      * apply (transfer_within_chunk _ _ source _ x e true); auto; lia.
    + right. exists e'. split; [exact Herr1 |]. intros _.
      destruct Hmin as [Hz | Hmin]; [lia |].
      exists [bufferSectors x]. rewrite read_requests_chunk, write_requests_chunk.
      rewrite Hbytes, Hlba1. cbn.
      repeat split; try discriminate; try (unfold total; lia).
      repeat constructor; unfold fits_buffer; lia.
  - intros x e e' rest x' Hpos He He' Hrest Hx.
    destruct (advance_encrypt_inv E V x e e' HE HV Hx Hpos) as (Hx1 & Hlba1 & Herr1).
    assert (Hx' := Hx). destruct Hx' as (Hlo & Hsum & Hn & Hb & Hcap & Hmin & Hbytes).
    destruct Hb as [Hz | Hb]; [lia |].
    destruct (Hrest Hx1) as (Hinv' & Hle & Hall & Hend).
    split; [exact Hinv' |]. split; [lia |]. split.
    + apply Forall_app; split.
      * revert Hall. apply Forall_impl. intros ev.
        apply transfer_within_widen; lia.
      * apply Forall_chunk; [intros; exact I | exact I | |].
        -- apply (transfer_within_chunk _ _ dest _ x e' false); auto; lia.
        -- apply (transfer_within_chunk _ _ source _ x e true); auto; lia.
    + right. rewrite read_requests_app, write_requests_app,
        read_requests_chunk, write_requests_chunk, Hbytes.
      destruct Hmin as [Hz | Hmin]; [lia |].
      assert (Hn1 : numberSectors (advance cfg true (set_error e' (set_error e x)))
                    = numberSectors x - bufferSectors x)
        by (destruct Hx1 as (_ & Hsum1 & _); lia).
      destruct Hend as [(-> & ->) | (e2 & He2 & Hsizes)].
      * exists e'. split; [exact Herr1 |]. intros _.
        exists [bufferSectors x]. rewrite Hlba1. cbn.
        repeat split; try discriminate; try (unfold total; lia).
        repeat constructor; unfold fits_buffer; lia.
      * exists e2. split; [exact He2 |]. intros Hok.
        destruct (Hsizes Hok) as (sizes & _ & Hfit & Hgr & Hr & Hw & Hl').
        rewrite Hn1 in Hgr.
        exists (bufferSectors x :: sizes). rewrite Hr, Hw, Hl', Hlba1. cbn.
        split; [discriminate |].
        split; [constructor; [unfold fits_buffer; lia | exact Hfit] |].
        split; [split; [exact Hmin | exact Hgr] |].
        repeat split. unfold total; cbn; lia.
Qed.

(** The backward sweep: every request lies below the sectors that remain;
    when the loop is left after a transfer that did not fail, the chunks
    read and written lie end to end downwards from the old count of
    remaining sectors to the new one. *)
Lemma copy_loop_decrypt_sweep E source dest startSector V' fuel l w l' w' :
  E < 2 ^ UINTN_BITS cfg ->
  decrypt_inv cfg E l ->
  copy_loop cfg env fuel false source dest startSector V' l w = Returned l' w' ->
  exists new,
    trace w' = new ++ trace w /\
    decrypt_inv cfg E l' /\ numberSectors l' <= numberSectors l /\
    Forall (transfer_within cfg 0 (numberSectors l)) new /\
    ((new = [] /\ l' = l) \/
     exists e, error l' = Some e /\
       (EFI_ERROR cfg e = false ->
        exists sizes,
          sizes <> [] /\ Forall (fits_buffer cfg) sizes /\
          greedy (CS_SERVICE_NUMBER_SECTORS cfg) (numberSectors l) sizes /\
          read_requests new
          = chunk_requests cfg (descending (numberSectors l) sizes) /\
          write_requests new
          = chunk_requests cfg (descending (numberSectors l) sizes) /\
          numberSectors l' = numberSectors l - total sizes)).
Proof.
  intros HE Hinv Hloop.
  apply (copy_loop_trace cfg env
           (fun l new l' =>
              decrypt_inv cfg E l ->
              decrypt_inv cfg E l' /\ numberSectors l' <= numberSectors l /\
              Forall (transfer_within cfg 0 (numberSectors l)) new /\
              ((new = [] /\ l' = l) \/
               exists e, error l' = Some e /\
                 (EFI_ERROR cfg e = false ->
                  exists sizes,
                    sizes <> [] /\ Forall (fits_buffer cfg) sizes /\
                    greedy (CS_SERVICE_NUMBER_SECTORS cfg) (numberSectors l)
                      sizes /\
                    read_requests new
                    = chunk_requests cfg (descending (numberSectors l) sizes) /\
                    write_requests new
                    = chunk_requests cfg (descending (numberSectors l) sizes) /\
                    numberSectors l' = numberSectors l - total sizes))))
    in Hloop.
  - destruct Hloop as (_ & new & Ht & HR). exists new. split; [exact Ht |].
    apply HR, Hinv.
  - intros x _ Hx. repeat split; try apply Hx; try lia; auto.
  - intros x e Hpos He Hx.
    assert (Hx' := Hx). destruct Hx' as (Hlba & Hb & Hn & Hgo & Hcap & Hmin & Hbytes).
    destruct Hgo as [Hz | Hgo]; [lia |].
    split; [exact Hx |]. split; [cbn; lia |]. split.
    + repeat constructor.
      apply (transfer_within_chunk _ _ source _ x e true); auto; lia.
    + right. exists e. split; [reflexivity | congruence].
  - intros x e e' Hpos He He' Hx.
    assert (Hx' := Hx). destruct Hx' as (Hlba & Hb & Hn & Hgo & Hcap & Hmin & Hbytes).
    destruct Hgo as [Hz | Hgo]; [lia |].
    split; [exact Hx |]. split; [cbn; lia |]. split.
    + repeat constructor.
      * apply (transfer_within_chunk _ _ dest _ x e' false); auto; lia.
      * apply (transfer_within_chunk _ _ source _ x e true); auto; lia.
    + right. exists e'. split; [reflexivity | congruence].
  - intros x e e' Hpos He He' Hx.
    destruct (advance_decrypt_inv E x e e' HE Hx Hpos) as (Hx1 & Hn1 & Herr1).
    assert (Hx' := Hx). destruct Hx' as (Hlba & Hb & Hn & Hgo & Hcap & Hmin & Hbytes).
    destruct Hgo as [Hz | Hgo]; [lia |].
    split; [exact Hx1 |]. split; [lia |]. split.
    + apply Forall_chunk; [intros; exact I | exact I | |].
      * apply (transfer_within_chunk _ _ dest _ x e' false); auto; lia.
      * apply (transfer_within_chunk _ _ source _ x e true); auto; lia.
    + right. exists e'. split; [exact Herr1 |]. intros _.
      destruct Hmin as [Hz | Hmin]; [lia |].
      exists [bufferSectors x]. rewrite read_requests_chunk, write_requests_chunk.
      rewrite Hbytes, Hn1, Hlba. cbn.
      repeat split; try discriminate; try (unfold total; lia).
      repeat constructor; unfold fits_buffer; lia.
  - intros x e e' rest x' Hpos He He' Hrest Hx.
    destruct (advance_decrypt_inv E x e e' HE Hx Hpos) as (Hx1 & Hn1 & Herr1).
    assert (Hx' := Hx). destruct Hx' as (Hlba & Hb & Hn & Hgo & Hcap & Hmin & Hbytes).
    destruct Hgo as [Hz | Hgo]; [lia |].
    destruct (Hrest Hx1) as (Hinv' & Hle & Hall & Hend).
    split; [exact Hinv' |]. split; [lia |]. split.
    + apply Forall_app; split.
      * revert Hall. apply Forall_impl. intros ev.
        apply transfer_within_widen; lia.
      * apply Forall_chunk; [intros; exact I | exact I | |].
        -- apply (transfer_within_chunk _ _ dest _ x e' false); auto; lia.
        -- apply (transfer_within_chunk _ _ source _ x e true); auto; lia.
    + right. rewrite read_requests_app, write_requests_app,
        read_requests_chunk, write_requests_chunk, Hbytes.
      destruct Hmin as [Hz | Hmin]; [lia |].
      destruct Hend as [(-> & ->) | (e2 & He2 & Hsizes)].
      * exists e'. split; [exact Herr1 |]. intros _.
        exists [bufferSectors x]. rewrite Hn1, Hlba. cbn.
        repeat split; try discriminate; try (unfold total; lia).
        repeat constructor; unfold fits_buffer; lia.
      * exists e2. split; [exact He2 |]. intros Hok.
        destruct (Hsizes Hok) as (sizes & _ & Hfit & Hgr & Hr & Hw & Hl').
        rewrite Hn1 in Hgr.
        exists (bufferSectors x :: sizes). rewrite Hr, Hw, Hl', Hn1, Hlba. cbn.
        split; [discriminate |].
        split; [constructor; [unfold fits_buffer; lia | exact Hfit] |].
        split; [split; [exact Hmin | exact Hgr] |].
        repeat split. unfold total; cbn; lia.
Qed.

End Sweeps.

(** ** A whole run of do_encrypt_decrypt_media *)

Section Runs.

Variable cfg : Build.
Hypothesis Hcfg : build_ok cfg.
Variable env : Firmware.

Lemma update_blocks_log processedLba encrypt w :
  exists upd,
    trace (world_of (update_blocks_in_volume_header cfg env processedLba encrypt w))
    = upd ++ trace w /\
    Forall (fun e => is_persistence_event e = true) upd.
Proof.
  unfold update_blocks_in_volume_header, bind, call, get_crypto_info,
    put_crypto_info, update_volume_header, ret; cbn.
  destruct (_ || _); cbn.
  - eexists [_]. split; [reflexivity | repeat constructor].
  - eexists [_; _]. split; [reflexivity | repeat constructor].
Qed.

(** The three ways through the function. *)
Lemma run_outcomes p c encrypt w :
  let info := crypto_info w in
  let size := UINTN cfg (to_bytes cfg (CS_SERVICE_NUMBER_SECTORS cfg)) in
  let l0 := setup_locals cfg encrypt info in
  (sectorsInVolume cfg info < numberEncryptedSectors cfg info /\
   do_encrypt_decrypt_media cfg env p c encrypt w
   = Returned (EFI_VOLUME_CORRUPTED cfg) w) \/
  (numberEncryptedSectors cfg info <= sectorsInVolume cfg info /\
   fw_AllocatePool env (EvResetInput :: trace w) size = None /\
   do_encrypt_decrypt_media cfg env p c encrypt w
   = Returned (EFI_OUT_OF_RESOURCES cfg)
       (log (EvAllocatePool size None) (log EvResetInput w))) \/
  (numberEncryptedSectors cfg info <= sectorsInVolume cfg info /\
   exists buffer l' w2 upd,
     fw_AllocatePool env (EvResetInput :: trace w) size = Some buffer /\
     copy_loop cfg env (loop_bound cfg l0) encrypt
       (if encrypt then c else p) (if encrypt then p else c)
       0 (sectorsInVolume cfg info) l0
       (log (EvAllocatePool size (Some buffer)) (log EvResetInput w))
     = Returned l' w2 /\
     crypto_info w2 = info /\
     do_encrypt_decrypt_media cfg env p c encrypt w
     = match error l' with
       | None => UninitRead (log (EvFreePool buffer) w2)
       | Some e =>
         if EFI_ERROR cfg e then Returned e (log (EvFreePool buffer) w2)
         else update_blocks_in_volume_header cfg env
                (processed_lba cfg encrypt info l') encrypt
                (log (EvFreePool buffer) w2)
       end /\
     trace (world_of (do_encrypt_decrypt_media cfg env p c encrypt w))
     = upd ++ EvFreePool buffer :: trace w2 /\
     Forall (fun e => is_persistence_event e = true) upd).
Proof.
  intros info size l0.
  destruct (sectorsInVolume cfg info <? numberEncryptedSectors cfg info) eqn:Hchk.
  { left. split; [apply Z.ltb_lt, Hchk |].
    apply do_encrypt_decrypt_media_inconsistent; assumption. }
  right. assert (Hle := Hchk). apply Z.ltb_ge in Hle.
  destruct (fw_AllocatePool env (EvResetInput :: trace w) size)
    as [buffer |] eqn:Halloc.
  2:{ left. split; [exact Hle |]. split; [reflexivity |].
      apply do_encrypt_decrypt_media_no_buffer; assumption. }
  right. split; [exact Hle |].
  destruct (do_encrypt_decrypt_media_run cfg Hcfg env p c encrypt w buffer
              Hchk Halloc) as (l' & w2 & Hloop & Hci & _ & Hrun).
  exists buffer, l', w2.
  destruct (error l') as [e |] eqn:He.
  - destruct (EFI_ERROR cfg e) eqn:Hee.
    + exists []. repeat split; try assumption; [rewrite Hrun; reflexivity | constructor].
    + destruct (update_blocks_log (processed_lba cfg encrypt info l') encrypt
                  (log (EvFreePool buffer) w2)) as (upd & Ht & Hupd).
      exists upd. repeat split; try assumption. rewrite Hrun. exact Ht.
  - exists []. repeat split; try assumption; [rewrite Hrun; reflexivity | constructor].
Qed.

Lemma setup_encrypt_inv info :
  let E := numberEncryptedSectors cfg info in
  let V := sectorsInVolume cfg info in
  E <= V -> ~ 0 < V - E < CS_SERVICE_NUMBER_SECTORS cfg ->
  encrypt_inv cfg E V (setup_locals cfg true info) /\
  lba (setup_locals cfg true info) = E /\
  error (setup_locals cfg true info) = None /\
  0 <= E /\ V < 2 ^ UINTN_BITS cfg.
Proof.
  intros E V Hle Hfull.
  pose proof (UINTN_range cfg Hcfg (to_sectors cfg (VolumeSize info))) as HV.
  pose proof (UINTN_range cfg Hcfg (to_sectors cfg (EncryptedAreaLength info))) as HE.
  fold (sectorsInVolume cfg info) in HV.
  fold (numberEncryptedSectors cfg info) in HE. fold V in HV. fold E in HE.
  pose proof (UINTN_modulus_le cfg Hcfg) as HM.
  destruct Hcfg as (_ & _ & Hcap).
  unfold encrypt_inv, setup_locals; cbn. fold E V.
  rewrite (UINT64_small E), (UINTN_small cfg (V - E)),
    (UINTN_small cfg (CS_SERVICE_NUMBER_SECTORS cfg)) by lia.
  repeat split; try lia.
Qed.

Lemma setup_decrypt_inv info :
  let E := numberEncryptedSectors cfg info in
  decrypt_inv cfg E (setup_locals cfg false info) /\
  numberSectors (setup_locals cfg false info) = E /\
  error (setup_locals cfg false info) = None /\
  0 <= E < 2 ^ UINTN_BITS cfg.
Proof.
  intros E.
  pose proof (UINTN_range cfg Hcfg (to_sectors cfg (EncryptedAreaLength info))) as HE.
  fold (numberEncryptedSectors cfg info) in HE. fold E in HE.
  pose proof (UINTN_modulus_le cfg Hcfg) as HM.
  destruct Hcfg as (_ & _ & Hcap).
  unfold decrypt_inv, setup_locals; cbn. fold E.
  rewrite (UINTN_small cfg (CS_SERVICE_NUMBER_SECTORS cfg)) by lia.
  destruct (Z.ltb_spec E (CS_SERVICE_NUMBER_SECTORS cfg));
    rewrite UINT64_small by lia; repeat split; try lia.
Qed.

End Runs.

(** ** Properties of the conversion engine *)

Section EngineProperties.

Variable cfg : Build.
Hypothesis Hcfg : build_ok cfg.
Variable env : Firmware.

Lemma transfers_quiet l :
  Forall (fun e => is_transfer e = false) l -> transfers l = [].
Proof.
  intros H. unfold transfers.
  apply Forall_rev in H. induction H as [| e r He _ IH]; [reflexivity |].
  cbn. rewrite He. exact IH.
Qed.

Lemma persistence_not_transfer upd :
  Forall (fun e => is_persistence_event e = true) upd ->
  Forall (fun e => is_transfer e = false) upd.
Proof. apply Forall_impl. intros [] H; try discriminate H; reflexivity. Qed.

Lemma read_requests_quiet l :
  Forall (fun e => is_transfer e = false) l -> read_requests l = [].
Proof.
  intros H. unfold read_requests.
  apply Forall_rev in H. induction H as [| e r He _ IH]; [reflexivity |].
  cbn. rewrite IH. destruct e; try discriminate He; reflexivity.
Qed.

Lemma write_requests_quiet l :
  Forall (fun e => is_transfer e = false) l -> write_requests l = [].
Proof.
  intros H. unfold write_requests.
  apply Forall_rev in H. induction H as [| e r He _ IH]; [reflexivity |].
  cbn. rewrite IH. destruct e; try discriminate He; reflexivity.
Qed.

Lemma total_pos sizes :
  sizes <> [] -> Forall (fits_buffer cfg) sizes -> 0 < total sizes.
Proof.
  intros Hne Hall. destruct Hall as [| s r Hs Hr]; [congruence |].
  assert (H0 : 0 <= total r).
  { clear Hne Hs. induction Hr as [| s' r' Hs' _ IH]; cbn; [lia |].
    unfold fits_buffer in Hs'. unfold total in *. cbn. lia. }
  unfold fits_buffer in Hs. unfold total in *. cbn. lia.
Qed.

(** The log of a whole run, around the log of its loop. *)
Lemma run_log_shape p c encrypt w :
  let size := UINTN cfg (to_bytes cfg (CS_SERVICE_NUMBER_SECTORS cfg)) in
  let w' := world_of (do_encrypt_decrypt_media cfg env p c encrypt w) in
  trace w' = trace w \/
  trace w' = [EvAllocatePool size None; EvResetInput] ++ trace w \/
  exists buffer l' w2 during upd,
    copy_loop cfg env (loop_bound cfg (setup_locals cfg encrypt (crypto_info w)))
      encrypt (if encrypt then c else p) (if encrypt then p else c)
      0 (sectorsInVolume cfg (crypto_info w))
      (setup_locals cfg encrypt (crypto_info w))
      (log (EvAllocatePool size (Some buffer)) (log EvResetInput w))
    = Returned l' w2 /\
    numberEncryptedSectors cfg (crypto_info w)
    <= sectorsInVolume cfg (crypto_info w) /\
    trace w2 = during ++ EvAllocatePool size (Some buffer) :: EvResetInput :: trace w /\
    Forall (fun e => is_persistence_event e = true) upd /\
    trace w'
    = (upd ++ [EvFreePool buffer]) ++ during
      ++ [EvAllocatePool size (Some buffer); EvResetInput] ++ trace w.
Proof.
  intros size w'. subst w'.
  destruct (run_outcomes cfg Hcfg env p c encrypt w)
    as [(_ & Hrun) | [(_ & _ & Hrun) | (Hle & buffer & l' & w2 & upd & Halloc
                                         & Hloop & Hci & Hrun & Ht & Hupd)]].
  - left. rewrite Hrun. reflexivity.
  - right; left. rewrite Hrun. reflexivity.
  - right; right.
    destruct (copy_loop_one_way cfg env _ _ _ _ _ _ _ _ _ _ Hloop)
      as (during & Hd & _).
    exists buffer, l', w2, during, upd.
    repeat split; try assumption.
    rewrite Ht, Hd. cbn [trace log]. rewrite <- !app_assoc. reflexivity.
Qed.

(** X1: with a header whose encrypted area is longer than the volume
    (counted in sectors), do_encrypt_decrypt_media returns
    EFI_VOLUME_CORRUPTED, an error status, before it calls anything: the
    keyboard is not reset, no buffer is asked for, no block is read or
    written and the header is not touched. The direction does not matter. *)
Theorem inconsistent_header_aborts_before_any_call
    (parentBlockIo childBlockIo : EFI_BLOCK_IO) (encrypt : bool) (w : World) :
  sectorsInVolume cfg (crypto_info w)
  < numberEncryptedSectors cfg (crypto_info w) ->
  do_encrypt_decrypt_media cfg env parentBlockIo childBlockIo encrypt w
  = Returned (EFI_VOLUME_CORRUPTED cfg) w /\
  EFI_ERROR cfg (EFI_VOLUME_CORRUPTED cfg) = true.
Proof.
  intros Hlt. split.
  - apply do_encrypt_decrypt_media_inconsistent; [exact Hcfg |].
    apply Z.ltb_lt, Hlt.
  - apply EFI_ERROR_EFIERR, Hcfg.
Qed.

(** X2: when AllocatePool answers NULL, do_encrypt_decrypt_media returns
    EFI_OUT_OF_RESOURCES, an error status; the only calls made are
    reset_input and AllocatePool, so no block is transferred, nothing is
    freed and the header stays as it was, in memory and on disk. *)
Theorem allocation_failure_is_out_of_resources
    (parentBlockIo childBlockIo : EFI_BLOCK_IO) (encrypt : bool) (w : World) :
  let size := UINTN cfg (to_bytes cfg (CS_SERVICE_NUMBER_SECTORS cfg)) in
  numberEncryptedSectors cfg (crypto_info w)
  <= sectorsInVolume cfg (crypto_info w) ->
  fw_AllocatePool env (EvResetInput :: trace w) size = None ->
  exists w',
    do_encrypt_decrypt_media cfg env parentBlockIo childBlockIo encrypt w
    = Returned (EFI_OUT_OF_RESOURCES cfg) w' /\
    EFI_ERROR cfg (EFI_OUT_OF_RESOURCES cfg) = true /\
    crypto_info w' = crypto_info w /\
    trace w' = [EvAllocatePool size None; EvResetInput] ++ trace w.
Proof.
  intros size Hle Halloc. eexists. split.
  - apply do_encrypt_decrypt_media_no_buffer; [exact Hcfg | | exact Halloc].
    apply Z.ltb_ge, Hle.
  - split; [apply EFI_ERROR_EFIERR, Hcfg |]. split; reflexivity.
Qed.

(** X3: when the header is consistent and AllocatePool hands out a buffer,
    that buffer is freed exactly once in every outcome of
    do_encrypt_decrypt_media (a return with or without error, or the read of
    the unassigned status): the log of the run is reset_input, AllocatePool,
    the events of the copy loop, FreePool of that buffer, and then at most
    the events of update_blocks_in_volume_header. *)
Theorem buffer_is_freed_exactly_once
    (parentBlockIo childBlockIo : EFI_BLOCK_IO) (encrypt : bool) (w : World)
    (buffer : Z) :
  let size := UINTN cfg (to_bytes cfg (CS_SERVICE_NUMBER_SECTORS cfg)) in
  numberEncryptedSectors cfg (crypto_info w)
  <= sectorsInVolume cfg (crypto_info w) ->
  fw_AllocatePool env (EvResetInput :: trace w) size = Some buffer ->
  exists during after,
    trace (world_of (do_encrypt_decrypt_media cfg env parentBlockIo
                       childBlockIo encrypt w))
    = after ++ EvFreePool buffer :: during
      ++ EvAllocatePool size (Some buffer) :: EvResetInput :: trace w /\
    Forall (fun e => is_loop_event e = true) during /\
    Forall (fun e => is_persistence_event e = true) after /\
    count is_free_pool (after ++ EvFreePool buffer :: during) = 1%nat.
Proof.
  intros size Hle Halloc.
  assert (Hchk : (sectorsInVolume cfg (crypto_info w)
                  <? numberEncryptedSectors cfg (crypto_info w)) = false)
    by (apply Z.ltb_ge, Hle).
  destruct (do_encrypt_decrypt_media_run cfg Hcfg env parentBlockIo childBlockIo
              encrypt w buffer Hchk Halloc)
    as (l' & w2 & Hloop & Hci & (during & Hd & Hall) & Hrun).
  assert (Hafter : exists after,
             trace (world_of (do_encrypt_decrypt_media cfg env parentBlockIo
                                childBlockIo encrypt w))
             = after ++ EvFreePool buffer :: trace w2 /\
             Forall (fun e => is_persistence_event e = true) after).
  { rewrite Hrun. destruct (error l') as [e |].
    - destruct (EFI_ERROR cfg e).
      + exists []. split; [reflexivity | constructor].
      + apply (update_blocks_log cfg env).
    - exists []. split; [reflexivity | constructor]. }
  destruct Hafter as (after & Ht & Hupd).
  exists during, after. rewrite Ht, Hd. cbn [trace log].
  repeat split; try assumption.
  unfold count. rewrite filter_app, length_app. cbn [filter is_free_pool length].
  assert (H1 : filter is_free_pool after = []).
  { clear Ht. induction Hupd as [| e r He _ IH]; [reflexivity |].
    cbn. destruct e; try discriminate He; exact IH. }
  assert (H2 : filter is_free_pool during = []).
  { clear Hd. induction Hall as [| e r He _ IH]; [reflexivity |].
    cbn. destruct e; try discriminate He; exact IH. }
  rewrite H1, H2. reflexivity.
Qed.

(** X4: in every outcome of do_encrypt_decrypt_media, whatever the firmware
    answers, blocks are only read from the source device and only written to
    the destination device, each with the media id of that device: when
    encrypting the source is the child (crypto) device and the destination
    the parent, when decrypting the other way round. *)
Theorem transfers_go_one_way
    (parentBlockIo childBlockIo : EFI_BLOCK_IO) (encrypt : bool) (w : World) :
  exists new,
    trace (world_of (do_encrypt_decrypt_media cfg env parentBlockIo
                       childBlockIo encrypt w))
    = new ++ trace w /\
    Forall (one_way env
              (if encrypt then childBlockIo else parentBlockIo)
              (if encrypt then parentBlockIo else childBlockIo)) new.
Proof.
  destruct (run_log_shape parentBlockIo childBlockIo encrypt w)
    as [Ht | [Ht | (buffer & l' & w2 & during & upd & Hloop & _ & Hd & Hupd & Ht)]].
  - exists []. split; [exact Ht | constructor].
  - eexists. split; [exact Ht | repeat constructor].
  - destruct (copy_loop_one_way cfg env _ _ _ _ _ _ _ _ _ _ Hloop)
      as (new & Hnew & Hall).
    cbn [trace log] in Hnew. rewrite Hd in Hnew.
    apply app_inv_tail in Hnew. subst new.
    eexists. split; [rewrite Ht, !app_assoc; reflexivity |].
    repeat (apply Forall_app; split); try exact Hall;
      try (repeat constructor).
    revert Hupd. apply Forall_impl. intros [] H; try discriminate H; exact I.
Qed.

(** X5: in every outcome of do_encrypt_decrypt_media the transfers come in
    pairs: a write is only issued after a read that was answered without
    error and asks for the same first sector and the same number of bytes; a
    read or a write that is answered with an error is the last transfer of
    the run. *)
Theorem every_write_repeats_its_read
    (parentBlockIo childBlockIo : EFI_BLOCK_IO) (encrypt : bool) (w : World) :
  exists new,
    trace (world_of (do_encrypt_decrypt_media cfg env parentBlockIo
                       childBlockIo encrypt w))
    = new ++ trace w /\
    well_paired cfg (transfers new).
Proof.
  destruct (run_log_shape parentBlockIo childBlockIo encrypt w)
    as [Ht | [Ht | (buffer & l' & w2 & during & upd & Hloop & _ & Hd & Hupd & Ht)]].
  - exists []. split; [exact Ht | exact I].
  - eexists. split; [exact Ht | exact I].
  - destruct (copy_loop_well_paired cfg env _ _ _ _ _ _ _ _ _ _ Hloop)
      as (new & Hnew & Hpairs).
    cbn [trace log] in Hnew. rewrite Hd in Hnew.
    apply app_inv_tail in Hnew. subst new.
    eexists. split; [rewrite Ht, !app_assoc; reflexivity |].
    rewrite !transfers_app.
    rewrite (transfers_quiet upd) by (apply persistence_not_transfer, Hupd).
    cbn. rewrite app_nil_r. exact Hpairs.
Qed.

End EngineProperties.

(** ** Which sectors a run converts *)

Section SweepProperties.

Variable cfg : Build.
Hypothesis Hcfg : build_ok cfg.
Variable env : Firmware.

Lemma Forall_transfer_within_quiet lo hi l :
  Forall (fun e => is_transfer e = false) l ->
  Forall (transfer_within cfg lo hi) l.
Proof. apply Forall_impl. intros [] H; try discriminate H; exact I. Qed.

(** A run that returns without error went through the loop, left it after a
    transfer that did not fail, and had its cursor accepted by
    update_blocks_in_volume_header. *)
Lemma run_without_error_log p c encrypt w st w' :
  0 <= EncryptedAreaStart (crypto_info w) ->
  do_encrypt_decrypt_media cfg env p c encrypt w = Returned st w' ->
  EFI_ERROR cfg st = false ->
  let info := crypto_info w in
  let size := UINTN cfg (to_bytes cfg (CS_SERVICE_NUMBER_SECTORS cfg)) in
  exists buffer l' w2 during upd e,
    copy_loop cfg env (loop_bound cfg (setup_locals cfg encrypt info))
      encrypt (if encrypt then c else p) (if encrypt then p else c)
      0 (sectorsInVolume cfg info) (setup_locals cfg encrypt info)
      (log (EvAllocatePool size (Some buffer)) (log EvResetInput w))
    = Returned l' w2 /\
    numberEncryptedSectors cfg info <= sectorsInVolume cfg info /\
    trace w2 = during ++ EvAllocatePool size (Some buffer) :: EvResetInput :: trace w /\
    Forall (fun e => is_persistence_event e = true) upd /\
    trace w'
    = (upd ++ [EvFreePool buffer]) ++ during
      ++ [EvAllocatePool size (Some buffer); EvResetInput] ++ trace w /\
    error l' = Some e /\ EFI_ERROR cfg e = false /\
    0 <= processed_lba cfg encrypt info l'
         - to_sectors cfg (EncryptedAreaStart info)
      <= sectorsInVolume cfg info /\
    crypto_info w'
    = set_EncryptedAreaLength
        (UINTN cfg (to_bytes cfg
           (UINTN cfg (processed_lba cfg encrypt info l'
                       - to_sectors cfg (EncryptedAreaStart info)))))
        info.
Proof.
  intros Hstart Hrun Hok info size.
  destruct (run_outcomes cfg Hcfg env p c encrypt w)
    as [(_ & Hr) | [(_ & _ & Hr) | (Hle & buffer & l' & w2 & upd & Halloc
                                     & Hloop & Hci & Hr & Ht & Hupd)]].
  { rewrite Hr in Hrun. injection Hrun as <- <-.
    unfold EFI_VOLUME_CORRUPTED in Hok.
    rewrite EFI_ERROR_EFIERR in Hok by exact Hcfg. discriminate. }
  { rewrite Hr in Hrun. injection Hrun as <- <-.
    unfold EFI_OUT_OF_RESOURCES in Hok.
    rewrite EFI_ERROR_EFIERR in Hok by exact Hcfg. discriminate. }
  destruct (copy_loop_one_way cfg env _ _ _ _ _ _ _ _ _ _ Hloop)
    as (during & Hd & _).
  rewrite Hrun in Ht. cbn [world_of] in Ht.
  rewrite Hr in Hrun.
  destruct (error l') as [e |] eqn:He; [| discriminate].
  destruct (EFI_ERROR cfg e) eqn:Hee.
  { injection Hrun as <- <-. congruence. }
  apply (update_blocks_no_error cfg Hcfg env) in Hrun;
    [| cbn [crypto_info log]; rewrite Hci; exact Hstart | exact Hok].
  cbn [crypto_info log] in Hrun. rewrite Hci in Hrun. fold info in Hrun.
  destruct Hrun as [Hrange Hnew].
  exists buffer, l', w2, during, upd, e.
  repeat split; try assumption; try apply Hrange.
  rewrite Ht, Hd. cbn [trace log]. rewrite <- !app_assoc. reflexivity.
Qed.

(** X6: when encrypting a volume on which the sectors still to be encrypted
    are none or at least a buffer full (CS_SERVICE_NUMBER_SECTORS), every
    read and every write of the run, in every outcome, asks for a whole,
    non-empty number of sectors that lie between the end of the encrypted
    area and the end of the volume: nothing that is already encrypted is
    converted again and nothing beyond the volume is touched. *)
Theorem encrypt_stays_in_unencrypted_area
    (parentBlockIo childBlockIo : EFI_BLOCK_IO) (w : World) :
  let E := numberEncryptedSectors cfg (crypto_info w) in
  let V := sectorsInVolume cfg (crypto_info w) in
  ~ 0 < V - E < CS_SERVICE_NUMBER_SECTORS cfg ->
  exists new,
    trace (world_of (do_encrypt_decrypt_media cfg env parentBlockIo
                       childBlockIo true w))
    = new ++ trace w /\
    Forall (transfer_within cfg E V) new.
Proof.
  intros E V Hfull.
  destruct (run_log_shape cfg Hcfg env parentBlockIo childBlockIo true w)
    as [Ht | [Ht | (buffer & l' & w2 & during & upd & Hloop & Hle & Hd & Hupd & Ht)]].
  - exists []. split; [exact Ht | constructor].
  - eexists. split; [exact Ht | repeat constructor].
  - fold E V in Hle.
    destruct (setup_encrypt_inv cfg Hcfg (crypto_info w) Hle Hfull)
      as (Hinv & Hlba & _ & HE & HV).
    fold E V in Hinv, Hlba.
    destruct (copy_loop_encrypt_sweep cfg Hcfg env E V _ _ _ _ _ _ _ _ _
                HE HV Hinv Hloop) as (new & Hnew & _ & _ & Hall & _).
    cbn [trace log] in Hnew. rewrite Hd in Hnew.
    apply app_inv_tail in Hnew. subst new. rewrite Hlba in Hall.
    eexists. split; [rewrite Ht, !app_assoc; reflexivity |].
    repeat (apply Forall_app; split); try exact Hall;
      try (repeat constructor).
    apply Forall_transfer_within_quiet, persistence_not_transfer, Hupd.
Qed.

(** The forward sweep of a whole run. *)
Lemma encrypt_run_tiling
    (parentBlockIo childBlockIo : EFI_BLOCK_IO) (w w' : World)
    (st : EFI_STATUS) :
  let E := numberEncryptedSectors cfg (crypto_info w) in
  let V := sectorsInVolume cfg (crypto_info w) in
  wf_header (crypto_info w) ->
  ~ 0 < V - E < CS_SERVICE_NUMBER_SECTORS cfg ->
  do_encrypt_decrypt_media cfg env parentBlockIo childBlockIo true w
  = Returned st w' ->
  EFI_ERROR cfg st = false ->
  exists sizes new,
    sizes <> [] /\ Forall (fits_buffer cfg) sizes /\
    greedy (CS_SERVICE_NUMBER_SECTORS cfg) (V - E) sizes /\
    E < E + total sizes <= V /\
    trace w' = new ++ trace w /\
    read_requests new = chunk_requests cfg (ascending E sizes) /\
    write_requests new = chunk_requests cfg (ascending E sizes) /\
    crypto_info w'
    = set_EncryptedAreaLength (UINTN cfg (to_bytes cfg (E + total sizes)))
        (crypto_info w).
Proof.
  intros E V (Hstart & _ & _) Hfull Hrun Hok.
  destruct (run_without_error_log _ _ _ _ _ _ (proj1 Hstart) Hrun Hok)
    as (buffer & l' & w2 & during & upd & e & Hloop & Hle & Hd & Hupd & Ht
        & He & Hee & Hrange & Hnew).
  fold E V in Hle.
  destruct (setup_encrypt_inv cfg Hcfg (crypto_info w) Hle Hfull)
    as (Hinv & Hlba & Herr0 & HE & HV).
  fold E V in Hinv, Hlba.
  destruct (copy_loop_encrypt_sweep cfg Hcfg env E V _ _ _ _ _ _ _ _ _
              HE HV Hinv Hloop) as (new & Hn & Hinv' & _ & _ & Hend).
  cbn [trace log] in Hn. rewrite Hd in Hn.
  apply app_inv_tail in Hn. subst new.
  destruct Hend as [(_ & ->) | (e2 & He2 & Hsizes)]; [congruence |].
  assert (e2 = e) by congruence. subst e2.
  destruct (Hsizes Hee) as (sizes & Hne & Hfit & Hgr & Hr & Hw & Hl').
  rewrite Hlba in Hr, Hw, Hl'.
  assert (Hn0 : numberSectors (setup_locals cfg true (crypto_info w)) = V - E)
    by (destruct Hinv as (_ & Hsum0 & _); lia).
  rewrite Hn0 in Hgr.
  pose proof (total_pos cfg sizes Hne Hfit) as Hpos.
  destruct Hinv' as (_ & Hsum & Hn' & _).
  pose proof (UINTN_modulus_le cfg Hcfg) as HM.
  set (a := to_sectors cfg (EncryptedAreaStart (crypto_info w))) in *.
  assert (Ha : 0 <= a < 2 ^ 64).
  { split; [apply to_sectors_nonneg; [exact Hcfg | lia] |].
    pose proof (to_sectors_le cfg Hcfg (EncryptedAreaStart (crypto_info w))
                  (proj1 Hstart)) as Hale.
    fold a in Hale. lia. }
  assert (Hd' : processed_lba cfg true (crypto_info w) l' - a = E + total sizes).
  { unfold processed_lba in Hrange |- *. fold a in Hrange |- *.
    destruct (UINT64_wrap_once (lba l' + a)) as [Hp | Hp]; [lia | |];
      rewrite Hp in Hrange |- *; lia. }
  rewrite Hd' in Hnew. rewrite (UINTN_small cfg (E + total sizes)) in Hnew by lia.
  exists sizes. eexists.
  split; [exact Hne |]. split; [exact Hfit |]. split; [exact Hgr |].
  split; [lia |].
  split; [rewrite Ht, !app_assoc; reflexivity |].
  split; [| split; [| exact Hnew]].
  - rewrite !read_requests_app.
    rewrite (read_requests_quiet upd) by (apply persistence_not_transfer, Hupd).
    cbn. rewrite app_nil_r. exact Hr.
  - rewrite !write_requests_app.
    rewrite (write_requests_quiet upd) by (apply persistence_not_transfer, Hupd).
    cbn. rewrite app_nil_r. exact Hw.
Qed.

(** X7: under the same condition, an encrypting run that returns without
    error has made progress and has recorded exactly what it converted: the
    chunks it read, and likewise the chunks it wrote, lie end to end upwards
    from the old end of the encrypted area E, each one a buffer full
    (CS_SERVICE_NUMBER_SECTORS sectors) or all that was left when that was
    less, up to a sector d with E < d <= V, and the header now holds d
    sectors (in bytes, cut to UINTN) as EncryptedAreaLength. This covers a
    run stopped by the ESC key. *)
Theorem encrypt_records_what_it_converted
    (parentBlockIo childBlockIo : EFI_BLOCK_IO) (w w' : World)
    (st : EFI_STATUS) :
  let E := numberEncryptedSectors cfg (crypto_info w) in
  let V := sectorsInVolume cfg (crypto_info w) in
  wf_header (crypto_info w) ->
  ~ 0 < V - E < CS_SERVICE_NUMBER_SECTORS cfg ->
  do_encrypt_decrypt_media cfg env parentBlockIo childBlockIo true w
  = Returned st w' ->
  EFI_ERROR cfg st = false ->
  exists sizes new,
    sizes <> [] /\ Forall (fits_buffer cfg) sizes /\
    greedy (CS_SERVICE_NUMBER_SECTORS cfg) (V - E) sizes /\
    E < E + total sizes <= V /\
    trace w' = new ++ trace w /\
    read_requests new = chunk_requests cfg (ascending E sizes) /\
    write_requests new = chunk_requests cfg (ascending E sizes) /\
    crypto_info w'
    = set_EncryptedAreaLength (UINTN cfg (to_bytes cfg (E + total sizes)))
        (crypto_info w).
Proof.
  intros E V Hwf Hfull Hrun Hok.
  exact (encrypt_run_tiling parentBlockIo childBlockIo w w' st Hwf Hfull Hrun Hok).
Qed.

(** X8: when decrypting, every read and every write of the run, in every
    outcome and for every header, asks for a whole, non-empty number of
    sectors inside the encrypted area (sectors 0 up to the encrypted
    length): plain sectors behind it are never touched. *)
Theorem decrypt_stays_in_encrypted_area
    (parentBlockIo childBlockIo : EFI_BLOCK_IO) (w : World) :
  exists new,
    trace (world_of (do_encrypt_decrypt_media cfg env parentBlockIo
                       childBlockIo false w))
    = new ++ trace w /\
    Forall (transfer_within cfg 0 (numberEncryptedSectors cfg (crypto_info w)))
      new.
Proof.
  set (E := numberEncryptedSectors cfg (crypto_info w)).
  destruct (run_log_shape cfg Hcfg env parentBlockIo childBlockIo false w)
    as [Ht | [Ht | (buffer & l' & w2 & during & upd & Hloop & Hle & Hd & Hupd & Ht)]].
  - exists []. split; [exact Ht | constructor].
  - eexists. split; [exact Ht | repeat constructor].
  - destruct (setup_decrypt_inv cfg Hcfg (crypto_info w))
      as (Hinv & Hn0 & _ & HE).
    fold E in Hinv, Hn0, HE.
    destruct (copy_loop_decrypt_sweep cfg Hcfg env E _ _ _ _ _ _ _ _ _
                (proj2 HE) Hinv Hloop) as (new & Hnew & _ & _ & Hall & _).
    cbn [trace log] in Hnew. rewrite Hd in Hnew.
    apply app_inv_tail in Hnew. subst new. rewrite Hn0 in Hall.
    eexists. split; [rewrite Ht, !app_assoc; reflexivity |].
    repeat (apply Forall_app; split); try exact Hall;
      try (repeat constructor).
    apply Forall_transfer_within_quiet, persistence_not_transfer, Hupd.
Qed.

(** The backward sweep of a whole run. *)
Lemma decrypt_run_tiling
    (parentBlockIo childBlockIo : EFI_BLOCK_IO) (w w' : World)
    (st : EFI_STATUS) :
  let E := numberEncryptedSectors cfg (crypto_info w) in
  wf_header (crypto_info w) ->
  do_encrypt_decrypt_media cfg env parentBlockIo childBlockIo false w
  = Returned st w' ->
  EFI_ERROR cfg st = false ->
  exists sizes new,
    sizes <> [] /\ Forall (fits_buffer cfg) sizes /\
    greedy (CS_SERVICE_NUMBER_SECTORS cfg) E sizes /\
    0 <= E - total sizes < E /\
    trace w' = new ++ trace w /\
    read_requests new = chunk_requests cfg (descending E sizes) /\
    write_requests new = chunk_requests cfg (descending E sizes) /\
    crypto_info w'
    = set_EncryptedAreaLength (UINTN cfg (to_bytes cfg (E - total sizes)))
        (crypto_info w).
Proof.
  intros E (Hstart & _ & _) Hrun Hok.
  destruct (run_without_error_log _ _ _ _ _ _ (proj1 Hstart) Hrun Hok)
    as (buffer & l' & w2 & during & upd & e & Hloop & Hle & Hd & Hupd & Ht
        & He & Hee & Hrange & Hnew).
  destruct (setup_decrypt_inv cfg Hcfg (crypto_info w))
    as (Hinv & Hn0 & Herr0 & HE).
  fold E in Hinv, Hn0, HE.
  destruct (copy_loop_decrypt_sweep cfg Hcfg env E _ _ _ _ _ _ _ _ _
              (proj2 HE) Hinv Hloop) as (new & Hn & Hinv' & _ & _ & Hend).
  cbn [trace log] in Hn. rewrite Hd in Hn.
  apply app_inv_tail in Hn. subst new.
  destruct Hend as [(_ & ->) | (e2 & He2 & Hsizes)]; [congruence |].
  assert (e2 = e) by congruence. subst e2.
  destruct (Hsizes Hee) as (sizes & Hne & Hfit & Hgr & Hr & Hw & Hl').
  rewrite Hn0 in Hgr, Hr, Hw, Hl'.
  pose proof (total_pos cfg sizes Hne Hfit) as Hpos.
  destruct Hinv' as (Hlba' & Hb' & Hn' & _).
  pose proof (UINTN_modulus_le cfg Hcfg) as HM.
  set (a := to_sectors cfg (EncryptedAreaStart (crypto_info w))) in *.
  assert (Ha : 0 <= a < 2 ^ 64).
  { split; [apply to_sectors_nonneg; [exact Hcfg | lia] |].
    pose proof (to_sectors_le cfg Hcfg (EncryptedAreaStart (crypto_info w))
                  (proj1 Hstart)) as Hale.
    fold a in Hale. lia. }
  assert (Hd' : processed_lba cfg false (crypto_info w) l' - a = E - total sizes).
  { unfold processed_lba in Hrange |- *. fold a in Hrange |- *.
    pose proof (UINT64_range (lba l' + a)) as Hrg.
    destruct (UINT64_wrap_once (lba l' + a)) as [Hp | Hp]; [lia | |];
      rewrite Hp in Hrange, Hrg |- *;
      match goal with
      | |- context [UINT64 ?x] =>
        destruct (UINT64_wrap_once x) as [Hq | Hq]; [lia | |];
          rewrite Hq in Hrange |- *; lia
      end. }
  rewrite Hd' in Hnew. rewrite (UINTN_small cfg (E - total sizes)) in Hnew by lia.
  exists sizes. eexists.
  split; [exact Hne |]. split; [exact Hfit |]. split; [exact Hgr |].
  split; [lia |].
  split; [rewrite Ht, !app_assoc; reflexivity |].
  split; [| split; [| exact Hnew]].
  - rewrite !read_requests_app.
    rewrite (read_requests_quiet upd) by (apply persistence_not_transfer, Hupd).
    cbn. rewrite app_nil_r. exact Hr.
  - rewrite !write_requests_app.
    rewrite (write_requests_quiet upd) by (apply persistence_not_transfer, Hupd).
    cbn. rewrite app_nil_r. exact Hw.
Qed.

(** X9: a decrypting run that returns without error has made progress and
    has recorded exactly what it converted: the chunks it read, and likewise
    the chunks it wrote, lie end to end downwards from the old end of the
    encrypted area E, each one a buffer full (CS_SERVICE_NUMBER_SECTORS
    sectors) or all that was left when that was less, down to a sector d
    with 0 <= d < E, and the header now holds d sectors (in bytes, cut to
    UINTN) as EncryptedAreaLength. This covers a run stopped by the ESC
    key. *)
Theorem decrypt_records_what_it_converted
    (parentBlockIo childBlockIo : EFI_BLOCK_IO) (w w' : World)
    (st : EFI_STATUS) :
  let E := numberEncryptedSectors cfg (crypto_info w) in
  wf_header (crypto_info w) ->
  do_encrypt_decrypt_media cfg env parentBlockIo childBlockIo false w
  = Returned st w' ->
  EFI_ERROR cfg st = false ->
  exists sizes new,
    sizes <> [] /\ Forall (fits_buffer cfg) sizes /\
    greedy (CS_SERVICE_NUMBER_SECTORS cfg) E sizes /\
    0 <= E - total sizes < E /\
    trace w' = new ++ trace w /\
    read_requests new = chunk_requests cfg (descending E sizes) /\
    write_requests new = chunk_requests cfg (descending E sizes) /\
    crypto_info w'
    = set_EncryptedAreaLength (UINTN cfg (to_bytes cfg (E - total sizes)))
        (crypto_info w).
Proof.
  intros E Hwf Hrun Hok.
  exact (decrypt_run_tiling parentBlockIo childBlockIo w w' st Hwf Hrun Hok).
Qed.

End SweepProperties.

(** ** The first request, and what the progress display shows *)

Section Display.

Variable cfg : Build.
Hypothesis Hcfg : build_ok cfg.
Variable env : Firmware.

Lemma chunk_events_first encrypt source dest startSector V l l1 e e' esc :
  chunk_events env encrypt source dest startSector V l l1 e e' esc
  = (EvCheckForESC esc
     :: (if 0 <? V
         then [EvDumpPerCent (per_mille encrypt startSector V l1)] else [])
     ++ [EvWriteBlocks dest (fw_MediaId env dest) (lba l) (bytesToRead l) e'])
    ++ [EvReadBlocks source (fw_MediaId env source) (lba l) (bytesToRead l) e].
Proof. unfold chunk_events. destruct (0 <? V); reflexivity. Qed.

(** A loop that is entered starts with a read at the cursor. *)
Lemma copy_loop_first_read encrypt source dest startSector V fuel l w l' w' :
  0 < numberSectors l ->
  copy_loop cfg env fuel encrypt source dest startSector V l w = Returned l' w' ->
  exists later st,
    trace w'
    = later ++ EvReadBlocks source (fw_MediaId env source) (lba l)
                 (bytesToRead l) st :: trace w.
Proof.
  intros Hpos Hloop.
  apply (copy_loop_trace cfg env
           (fun l new _ =>
              0 < numberSectors l ->
              exists later st,
                new = later ++ [EvReadBlocks source (fw_MediaId env source)
                                  (lba l) (bytesToRead l) st]))
    in Hloop.
  - destruct Hloop as (_ & new & Ht & HR).
    destruct (HR Hpos) as (later & st & ->).
    exists later, st. rewrite Ht, <- app_assoc. reflexivity.
  - intros x Hx Hp. apply Z.ltb_ge in Hx. lia.
  - intros x e _ _ _. exists [], e. reflexivity.
  - intros x e e' _ _ _ _. eexists [_], e. reflexivity.
  - intros x e e' _ _ _ _. rewrite chunk_events_first.
    eexists _, e. reflexivity.
  - intros x e e' rest x' _ _ _ _ _. rewrite chunk_events_first, app_assoc.
    eexists _, e. reflexivity.
Qed.

Lemma per_mille_encrypt_range V l :
  0 < V -> 1000 * V < 2 ^ 64 ->
  0 <= lba l -> 0 <= bufferSectors l -> lba l + bufferSectors l <= V ->
  0 <= per_mille true 0 V l <= 1000.
Proof.
  intros HV Hfit Hl Hb Hsum. unfold per_mille.
  rewrite UINT64_small by nia.
  split; [apply Z.div_pos; nia |].
  apply Z.div_le_upper_bound; nia.
Qed.

Lemma per_mille_decrypt_range V l :
  0 < V -> 1000 * V < 2 ^ 64 -> 0 <= lba l <= V ->
  0 <= per_mille false 0 V l <= 1000.
Proof.
  intros HV Hfit Hl. unfold per_mille.
  rewrite (UINT64_small (1000 * (lba l - 0))) by nia.
  assert (Hq : 0 <= 1000 * (lba l - 0) / V <= 1000).
  { split; [apply Z.div_pos; nia |]. apply Z.div_le_upper_bound; nia. }
  rewrite UINT64_small by lia. lia.
Qed.

Lemma advance_encrypt_buffer E V l e e' :
  0 <= E -> V < 2 ^ UINTN_BITS cfg ->
  encrypt_inv cfg E V l -> 0 < numberSectors l ->
  let l1 := advance cfg true (set_error e' (set_error e l)) in
  0 <= bufferSectors l1 <= numberSectors l1.
Proof.
  intros HE HV (Hlo & Hsum & Hn & Hb & Hcap & Hmin & Hbytes) Hpos.
  destruct Hb as [Hz | Hb]; [lia |].
  unfold advance, set_error; cbn.
  rewrite (UINTN_small cfg (numberSectors l - bufferSectors l)) by lia.
  destruct (Z.ltb_spec (numberSectors l - bufferSectors l) (bufferSectors l));
    lia.
Qed.

Lemma copy_loop_encrypt_display E V source dest fuel l w l' w' :
  0 <= E -> V < 2 ^ UINTN_BITS cfg -> 1000 * V < 2 ^ 64 ->
  encrypt_inv cfg E V l ->
  copy_loop cfg env fuel true source dest 0 V l w = Returned l' w' ->
  exists new, trace w' = new ++ trace w /\ Forall progress_in_range new.
Proof.
  intros HE HV Hfit Hinv Hloop.
  apply (copy_loop_trace cfg env
           (fun l new _ => encrypt_inv cfg E V l -> Forall progress_in_range new))
    in Hloop.
  - destruct Hloop as (_ & new & Ht & HR). exists new. auto.
  - constructor.
  - intros; repeat constructor.
  - intros; repeat constructor.
  - intros x e e' Hpos _ _ Hx.
    destruct (advance_encrypt_inv cfg Hcfg E V x e e' HE HV Hx Hpos)
      as ((Hlo & Hsum & Hn & _) & _ & _).
    pose proof (advance_encrypt_buffer E V x e e' HE HV Hx Hpos) as Hb.
    cbv zeta in Hb.
    apply Forall_chunk; try exact I. intros HVpos.
    apply per_mille_encrypt_range; try assumption; try lia.
  - intros x e e' rest x' Hpos _ _ Hrest Hx.
    destruct (advance_encrypt_inv cfg Hcfg E V x e e' HE HV Hx Hpos)
      as (Hx1 & _ & _).
    apply Forall_app; split; [apply Hrest, Hx1 |].
    destruct Hx1 as (Hlo & Hsum & Hn & _).
    pose proof (advance_encrypt_buffer E V x e e' HE HV Hx Hpos) as Hb.
    cbv zeta in Hb.
    apply Forall_chunk; try exact I. intros HVpos.
    apply per_mille_encrypt_range; try assumption; try lia.
Qed.

Lemma copy_loop_decrypt_display E V source dest fuel l w l' w' :
  E <= V -> E < 2 ^ UINTN_BITS cfg -> 1000 * V < 2 ^ 64 ->
  decrypt_inv cfg E l ->
  copy_loop cfg env fuel false source dest 0 V l w = Returned l' w' ->
  exists new, trace w' = new ++ trace w /\ Forall progress_in_range new.
Proof.
  intros HEV HE Hfit Hinv Hloop.
  apply (copy_loop_trace cfg env
           (fun l new _ => decrypt_inv cfg E l -> Forall progress_in_range new))
    in Hloop.
  - destruct Hloop as (_ & new & Ht & HR). exists new. auto.
  - constructor.
  - intros; repeat constructor.
  - intros; repeat constructor.
  - intros x e e' Hpos _ _ Hx.
    destruct (advance_decrypt_inv cfg Hcfg E x e e' HE Hx Hpos)
      as ((Hlba & Hb & Hn & _) & _ & _).
    apply Forall_chunk; try exact I. intros HVpos.
    apply per_mille_decrypt_range; try assumption; lia.
  - intros x e e' rest x' Hpos _ _ Hrest Hx.
    destruct (advance_decrypt_inv cfg Hcfg E x e e' HE Hx Hpos)
      as (Hx1 & _ & _).
    apply Forall_app; split; [apply Hrest, Hx1 |].
    destruct Hx1 as (Hlba & Hb & Hn & _).
    apply Forall_chunk; try exact I. intros HVpos.
    apply per_mille_decrypt_range; try assumption; lia.
Qed.

(** X10: when encrypting with fewer sectors left than the buffer holds (for
    instance when a run that was stopped close to the end is resumed), the
    first read still asks for a full buffer of CS_SERVICE_NUMBER_SECTORS
    sectors at the end E of the encrypted area, although E plus that many
    sectors lies beyond the end of the volume: the chunk size is only cut
    down after the first chunk. *)
Theorem encrypt_first_chunk_ignores_volume_end
    (parentBlockIo childBlockIo : EFI_BLOCK_IO) (w : World) (buffer : Z) :
  let E := numberEncryptedSectors cfg (crypto_info w) in
  let V := sectorsInVolume cfg (crypto_info w) in
  let size := UINTN cfg (to_bytes cfg (CS_SERVICE_NUMBER_SECTORS cfg)) in
  0 < V - E < CS_SERVICE_NUMBER_SECTORS cfg ->
  fw_AllocatePool env (EvResetInput :: trace w) size = Some buffer ->
  exists later st,
    trace (world_of (do_encrypt_decrypt_media cfg env parentBlockIo
                       childBlockIo true w))
    = later
      ++ EvReadBlocks childBlockIo (fw_MediaId env childBlockIo) E
           (UINTN cfg (to_bytes cfg (CS_SERVICE_NUMBER_SECTORS cfg))) st
      :: EvAllocatePool size (Some buffer) :: EvResetInput :: trace w /\
    V < E + CS_SERVICE_NUMBER_SECTORS cfg.
Proof.
  intros E V size Hpart Halloc.
  destruct (run_outcomes cfg Hcfg env parentBlockIo childBlockIo true w)
    as [(Hlt & _) | [(_ & Hnone & _) | (_ & b & l' & w2 & upd & Hb & Hloop
                                        & _ & _ & Ht & _)]].
  { fold E V in Hlt. lia. }
  { fold size in Hnone. congruence. }
  fold size in Hb, Hloop. rewrite Halloc in Hb. injection Hb as <-.
  pose proof (UINTN_range cfg Hcfg (to_sectors cfg (VolumeSize (crypto_info w)))) as HV.
  pose proof (UINTN_range cfg Hcfg
                (to_sectors cfg (EncryptedAreaLength (crypto_info w)))) as HE.
  fold (sectorsInVolume cfg (crypto_info w)) in HV.
  fold (numberEncryptedSectors cfg (crypto_info w)) in HE.
  fold V in HV. fold E in HE.
  pose proof (UINTN_modulus_le cfg Hcfg) as HM.
  assert (Hn0 : numberSectors (setup_locals cfg true (crypto_info w)) = V - E).
  { unfold setup_locals; cbn. fold E V. apply UINTN_small. lia. }
  assert (Hl0 : lba (setup_locals cfg true (crypto_info w)) = E).
  { unfold setup_locals; cbn. fold E. apply UINT64_small. lia. }
  assert (Hb0 : bytesToRead (setup_locals cfg true (crypto_info w)) = size).
  { unfold setup_locals; cbn. destruct Hcfg as (_ & _ & Hcap).
    rewrite (UINTN_small cfg (CS_SERVICE_NUMBER_SECTORS cfg)) by lia.
    reflexivity. }
  assert (Hpos : 0 < numberSectors (setup_locals cfg true (crypto_info w)))
    by (rewrite Hn0; lia).
  destruct (copy_loop_first_read _ _ _ _ _ _ _ _ _ _ Hpos Hloop)
    as (later & st & Hfirst).
  rewrite Hl0, Hb0 in Hfirst. cbn [trace log] in Hfirst.
  exists (upd ++ EvFreePool buffer :: later), st. split; [| lia].
  rewrite Ht, Hfirst, <- app_assoc. reflexivity.
Qed.

(** X11: the values that a run hands to dump_per_cent are per-mille values
    between 0 and 1000, in both directions and in every outcome, for a
    volume of fewer than 2^32 sectors (the sector count is the divisor
    handed to __div64_32, and 1000 times the cursor is computed in UINT64)
    on which, when encrypting, the sectors left are none or at least a
    buffer full. *)
Theorem progress_display_is_per_mille
    (parentBlockIo childBlockIo : EFI_BLOCK_IO) (encrypt : bool) (w : World) :
  let E := numberEncryptedSectors cfg (crypto_info w) in
  let V := sectorsInVolume cfg (crypto_info w) in
  V < 2 ^ 32 ->
  (encrypt = true -> ~ 0 < V - E < CS_SERVICE_NUMBER_SECTORS cfg) ->
  exists new,
    trace (world_of (do_encrypt_decrypt_media cfg env parentBlockIo
                       childBlockIo encrypt w))
    = new ++ trace w /\
    Forall progress_in_range new.
Proof.
  intros E V Hsmall Hfull.
  assert (Hfit : 1000 * V < 2 ^ 64).
  { assert (1000 * 2 ^ 32 < 2 ^ 64) by reflexivity. lia. }
  destruct (run_log_shape cfg Hcfg env parentBlockIo childBlockIo encrypt w)
    as [Ht | [Ht | (buffer & l' & w2 & during & upd & Hloop & Hle & Hd & Hupd & Ht)]].
  - exists []. split; [exact Ht | constructor].
  - eexists. split; [exact Ht | repeat constructor].
  - fold E V in Hle, Hloop.
    assert (Hall : Forall progress_in_range during).
    { destruct encrypt.
      - destruct (setup_encrypt_inv cfg Hcfg (crypto_info w) Hle (Hfull eq_refl))
          as (Hinv & _ & _ & HE & HV).
        fold E V in Hinv, HE, HV.
        destruct (copy_loop_encrypt_display E V _ _ _ _ _ _ _ HE HV Hfit Hinv Hloop)
          as (new & Hnew & Hall).
        cbn [trace log] in Hnew. rewrite Hd in Hnew.
        apply app_inv_tail in Hnew. subst new. exact Hall.
      - destruct (setup_decrypt_inv cfg Hcfg (crypto_info w))
          as (Hinv & _ & _ & HE).
        fold E in Hinv, HE.
        destruct (copy_loop_decrypt_display E V _ _ _ _ _ _ _ Hle (proj2 HE)
                    Hfit Hinv Hloop) as (new & Hnew & Hall).
        cbn [trace log] in Hnew. rewrite Hd in Hnew.
        apply app_inv_tail in Hnew. subst new. exact Hall. }
    eexists. split; [rewrite Ht, !app_assoc; reflexivity |].
    repeat (apply Forall_app; split); try exact Hall;
      try (repeat constructor).
    revert Hupd. apply Forall_impl. intros [] H; try discriminate H; exact I.
Qed.

End Display.

(** ** Recording the progress in the header *)

Section Recording.

Variable cfg : Build.
Hypothesis Hcfg : build_ok cfg.
Variable env : Firmware.

(** X12: for a processedLba from the first sector of the volume up to its
    end, update_blocks_in_volume_header sets EncryptedAreaLength to the
    distance from the first sector in bytes (cut to UINTN), hands the
    changed header to update_volume_header exactly once and returns the
    status of that call. The header in memory keeps the new length also
    when update_volume_header answers with an error: nothing is rolled
    back. The flag encrypt has no influence. *)
Theorem update_blocks_in_range_sets_length
    (processedLba : Z) (encrypt : bool) (w : World) :
  let info := crypto_info w in
  let startSector := to_sectors cfg (EncryptedAreaStart info) in
  let info' :=
    set_EncryptedAreaLength
      (UINTN cfg (to_bytes cfg (processedLba - startSector))) info in
  let entry := EvUpdateBlocksInVolumeHeader processedLba info encrypt in
  let st := fw_update_volume_header env (entry :: trace w) info' in
  0 <= EncryptedAreaStart info ->
  startSector + sectorsInVolume cfg info < 2 ^ 64 ->
  startSector <= processedLba <= startSector + sectorsInVolume cfg info ->
  update_blocks_in_volume_header cfg env processedLba encrypt w
  = Returned st
      {| crypto_info := info';
         trace := EvUpdateVolumeHeader info' st :: entry :: trace w |}.
Proof.
  intros info startSector info' entry st Hstart Hfit Hrange.
  pose proof (to_sectors_nonneg cfg Hcfg _ Hstart) as Ha.
  fold info startSector in Ha.
  pose proof (UINTN_range cfg Hcfg (to_sectors cfg (VolumeSize info))) as HV.
  fold (sectorsInVolume cfg info) in HV.
  unfold update_blocks_in_volume_header, bind, call, get_crypto_info,
    put_crypto_info, update_volume_header, ret.
  cbn [crypto_info trace log set_crypto_info]. fold info startSector.
  fold (sectorsInVolume cfg info).
  rewrite (UINT64_small (startSector + sectorsInVolume cfg info)) by lia.
  destruct (Z.ltb_spec processedLba startSector); [lia |].
  destruct (Z.ltb_spec (startSector + sectorsInVolume cfg info) processedLba);
    [lia |].
  cbn [orb].
  rewrite (UINTN_small cfg (processedLba - startSector)) by lia.
  reflexivity.
Qed.

(** X13: after update_blocks_in_volume_header has returned without error
    for a processedLba whose distance d from the first sector of the volume
    is less than 2^UINTN_BITS in bytes, the header says that d sectors are
    encrypted, so the next run takes up the work at sector d: an encrypting
    run sets its cursor to d, a decrypting run has d sectors to go. *)
Theorem next_run_resumes_at_recorded_sector
    (processedLba : Z) (encrypt : bool) (w w' : World) (st : EFI_STATUS) :
  let d := processedLba - to_sectors cfg (EncryptedAreaStart (crypto_info w)) in
  0 <= EncryptedAreaStart (crypto_info w) ->
  update_blocks_in_volume_header cfg env processedLba encrypt w
  = Returned st w' ->
  EFI_ERROR cfg st = false ->
  to_bytes cfg d < 2 ^ UINTN_BITS cfg ->
  numberEncryptedSectors cfg (crypto_info w') = d /\
  lba (setup_locals cfg true (crypto_info w')) = d /\
  numberSectors (setup_locals cfg false (crypto_info w')) = d.
Proof.
  intros d Hstart Hrun Hok Hfit.
  destruct (update_blocks_no_error cfg Hcfg env _ _ _ _ _ Hstart Hrun Hok)
    as (Hrange & Hnew).
  fold d in Hrange, Hnew.
  pose proof (UINTN_range cfg Hcfg (to_sectors cfg (VolumeSize (crypto_info w)))) as HV.
  fold (sectorsInVolume cfg (crypto_info w)) in HV.
  pose proof (UINTN_modulus_le cfg Hcfg) as HM.
  assert (Hd : numberEncryptedSectors cfg (crypto_info w') = d).
  { rewrite Hnew. unfold numberEncryptedSectors; cbn.
    rewrite (UINTN_small cfg d) by lia.
    pose proof (to_bytes_nonneg cfg Hcfg d (proj1 Hrange)).
    rewrite (UINTN_small cfg (to_bytes cfg d)) by lia.
    rewrite to_sectors_to_bytes by exact Hcfg.
    apply UINTN_small. lia. }
  split; [exact Hd |]. unfold setup_locals; cbn. rewrite Hd.
  split; [apply UINT64_small; lia | reflexivity].
Qed.

End Recording.

(** ** Properties of get_cs_child *)

Section Discovery.

Variable cfg : Build.
Hypothesis Hcfg : build_ok cfg.
Variable env : Firmware.

Lemma get_cs_child_loop_probe_run parent entries : forall w,
  exists child probes,
    get_cs_child_loop env parent entries w
    = Returned child
        {| crypto_info := crypto_info w; trace := probes ++ trace w |} /\
    Forall (fun e => is_probe e = true) probes /\
    probe_run parent (map ControllerHandle (filter is_child_controller entries))
      (rev probes) child.
Proof.
  induction entries as [| e rest IH]; intros w.
  - exists NULL, []. destruct w. repeat split. constructor.
  - cbn [get_cs_child_loop filter].
    change (Z.land (Attributes e) EFI_OPEN_PROTOCOL_BY_CHILD_CONTROLLER
            =? EFI_OPEN_PROTOCOL_BY_CHILD_CONTROLLER)
      with (is_child_controller e).
    destruct (is_child_controller e); [| apply IH].
    unfold bind, is_cs_child_device, call, ret.
    destruct (fw_is_cs_child_device env (trace w) parent (ControllerHandle e))
      eqn:Hanswer.
    + exists (ControllerHandle e), [EvIsCsChildDevice parent (ControllerHandle e) true].
      split; [reflexivity |]. split; [repeat constructor |].
      cbn. repeat split.
    + destruct (IH (log (EvIsCsChildDevice parent (ControllerHandle e) false) w))
        as (child & probes & Hrun & Hall & Hlog).
      exists child, (probes ++ [EvIsCsChildDevice parent (ControllerHandle e) false]).
      split; [rewrite Hrun; cbn [log trace crypto_info];
              rewrite <- app_assoc; reflexivity |].
      split; [apply Forall_app; split; [exact Hall | repeat constructor] |].
      rewrite rev_app_distr. cbn. repeat split. exact Hlog.
Qed.

(** get_cs_child after an enumeration that did not fail. *)
Lemma get_cs_child_after_enumeration parent w st OpenInfo :
  fw_OpenProtocolInformation env (trace w) parent = (st, OpenInfo) ->
  EFI_ERROR cfg st = false ->
  let entries := match OpenInfo with Some (_, es) => es | None => [] end in
  let freed := match OpenInfo with
               | Some (buffer, _) => [EvFreePool buffer]
               | None => []
               end in
  exists child probes,
    get_cs_child cfg env parent w
    = Returned (if child =? NULL then EFI_NO_MEDIA cfg else st, child)
        {| crypto_info := crypto_info w;
           trace := freed ++ probes
                    ++ EvOpenProtocolInformation parent st :: trace w |} /\
    Forall (fun e => is_probe e = true) probes /\
    probe_run parent (map ControllerHandle (filter is_child_controller entries))
      (rev probes) child.
Proof.
  intros Hinfo Hst entries freed.
  destruct (get_cs_child_loop_probe_run parent entries
              (log (EvOpenProtocolInformation parent st) w))
    as (child & probes & Hrun & Hall & Hlog).
  exists child, probes. split; [| split; assumption].
  unfold get_cs_child, bind at 1, OpenProtocolInformation, call.
  rewrite Hinfo. cbn [fst snd]. rewrite Hst.
  unfold bind at 1. fold entries. rewrite Hrun.
  subst freed. destruct OpenInfo as [[buffer es] |];
    unfold bind, FreePool, call, ret; cbn [log trace crypto_info];
    destruct (child =? NULL); reflexivity.
Qed.

(** X14: get_cs_child always returns, and it returns a NULL child handle
    exactly when it returns an error status, whatever the firmware answers
    (also when an enumerated controller handle is NULL and passes the
    probe): after a status that is no error the caller holds a child handle
    that is not NULL. The header is not touched. *)
Theorem get_cs_child_null_iff_error (ParentHandle : EFI_HANDLE) (w : World) :
  exists st child w',
    get_cs_child cfg env ParentHandle w = Returned (st, child) w' /\
    (child = NULL <-> EFI_ERROR cfg st = true) /\
    crypto_info w' = crypto_info w.
Proof.
  destruct (fw_OpenProtocolInformation env (trace w) ParentHandle)
    as [st OpenInfo] eqn:Hinfo.
  destruct (EFI_ERROR cfg st) eqn:Hst.
  - exists st, NULL, (log (EvOpenProtocolInformation ParentHandle st) w).
    split; [| split; [tauto | reflexivity]].
    unfold get_cs_child, bind at 1, OpenProtocolInformation, call.
    rewrite Hinfo. cbn [fst snd]. rewrite Hst. reflexivity.
  - destruct (get_cs_child_after_enumeration ParentHandle w st OpenInfo Hinfo Hst)
      as (child & probes & Hrun & _ & _).
    do 3 eexists. split; [exact Hrun |]. split; [| reflexivity].
    destruct (Z.eqb_spec child NULL) as [Heq | Hne].
    + split; [intros _; apply EFI_ERROR_EFIERR, Hcfg | intros _; exact Heq].
    + split; [intros Heq; contradiction | intros Herr; congruence].
Qed.

(** X15: after an enumeration that did not fail, and whatever the probe
    answers from call to call, get_cs_child probes the child-controller
    entries in the order of the enumeration and nothing else, stops at the
    first probe that answers TRUE and returns that controller; when the
    entries run out it returns NULL. The status is EFI_NO_MEDIA when the
    returned handle is NULL and the status of the enumeration otherwise; the
    enumeration buffer, when there is one, is freed once, after the last
    probe. *)
Theorem get_cs_child_probes_in_order
    (ParentHandle : EFI_HANDLE) (w : World) (st : EFI_STATUS)
    (OpenInfo : option (Z * list EFI_OPEN_PROTOCOL_INFORMATION_ENTRY)) :
  fw_OpenProtocolInformation env (trace w) ParentHandle = (st, OpenInfo) ->
  EFI_ERROR cfg st = false ->
  let entries := match OpenInfo with Some (_, es) => es | None => [] end in
  let freed := match OpenInfo with
               | Some (buffer, _) => [EvFreePool buffer]
               | None => []
               end in
  exists child probes,
    get_cs_child cfg env ParentHandle w
    = Returned (if child =? NULL then EFI_NO_MEDIA cfg else st, child)
        {| crypto_info := crypto_info w;
           trace := freed ++ probes
                    ++ EvOpenProtocolInformation ParentHandle st :: trace w |} /\
    probe_run ParentHandle
      (map ControllerHandle (filter is_child_controller entries))
      (rev probes) child.
Proof.
  intros Hinfo Hst entries freed.
  destruct (get_cs_child_after_enumeration ParentHandle w st OpenInfo Hinfo Hst)
    as (child & probes & Hrun & _ & Hlog).
  exists child, probes. split; assumption.
Qed.

End Discovery.

(** ** Properties of check_user_password *)

Section PasswordDialogue.

Variable cfg : Build.
Hypothesis Hcfg : build_ok cfg.
Variable env : Firmware.

Lemma prompts_app a b : prompts (a ++ b) = prompts b ++ prompts a.
Proof. unfold prompts. rewrite rev_app_distr, flat_map_app. reflexivity. Qed.

Lemma count_app f a b : (count f (a ++ b) = count f a + count f b)%nat.
Proof. unfold count. rewrite filter_app, length_app. reflexivity. Qed.

Lemma password_exit_app d st d' p' new t :
  new <> [] ->
  password_exit cfg d st d' p' new ->
  password_exit cfg d st d' p' (new ++ t).
Proof.
  intros Hne. destruct new as [| e r]; [congruence |].
  destruct e; exact (fun H => H).
Qed.

Lemma password_exit_nonempty d st d' p' new :
  password_exit cfg d st d' p' new -> new <> [].
Proof. destruct new; [intros [] | discriminate]. Qed.

Lemma password_exit_decision d st d' p' new :
  password_exit cfg d st d' p' new ->
  (d' = d) \/ (d' = CS_UI_ESC_PRESSED /\ st = EFI_SUCCESS).
Proof.
  destruct new as [| e r]; [intros [] |].
  destruct e; cbn; try tauto.
Qed.

(** The prompt loop, from any state of its flag. *)
Lemma check_user_password_loop_log options :
  forall fuel showWrongPwd d p w st d' p' w',
    check_user_password_loop cfg env fuel options showWrongPwd d p w
    = Returned (st, d', p') w' ->
    exists new,
      trace w' = new ++ trace w /\
      Forall (fun e => is_password_event e = true) new /\
      Forall (fun e => honours options e /\
                       forall s x, e <> EvOutputString s x) new /\
      prompts new = showWrongPwd :: repeat true (count (is_denied cfg) new) /\
      password_exit cfg d st d' p' new /\
      Forall (denied_attempt cfg) (tl new).
Proof.
  induction fuel as [| fuel IH]; intros swp d p w st d' p' w';
    cbn [check_user_password_loop]; [discriminate |].
  unfold bind at 1, ask_for_pwd, call.
  destruct (EFI_ERROR cfg (fw_ask_for_pwd env (trace w) swp)) eqn:Hask.
  { unfold ret. intros [= <- <- <- <-].
    eexists [_]. split; [reflexivity |].
    split; [repeat constructor |].
    split; [repeat constructor; discriminate |].
    split; [reflexivity |]. split; [cbn; auto | constructor]. }
  unfold bind at 1, get_input, call.
  destruct (fw_get_input env _ _) as [[gst ScanCode] text] eqn:Hin.
  cbn [fst snd].
  destruct (EFI_ERROR cfg gst) eqn:Hgst.
  { unfold ret. intros [= <- <- <- <-].
    eexists [_; _]. split; [reflexivity |].
    split; [repeat constructor |].
    split; [repeat constructor; discriminate |].
    split; [reflexivity |]. split; [cbn; auto |].
    repeat constructor. intros H; discriminate H. }
  destruct (ScanCode =? 23) eqn:Hkey.
  { apply Z.eqb_eq in Hkey. unfold ret. intros [= <- <- <- <-].
    eexists [_; _]. split; [reflexivity |].
    split; [repeat constructor |].
    split; [repeat constructor; discriminate |].
    split; [reflexivity |]. split; [cbn; right; auto |].
    repeat constructor. intros H; discriminate H. }
  unfold bind at 1, decrypt_volume_header, bind, call, put_crypto_info, ret.
  cbn [fst snd].
  destruct (fst (fw_decrypt_volume_header env _) =? EFI_ACCESS_DENIED cfg)
    eqn:Hden.
  - cbn [trace log] in Hden.
    intros Hrec. apply IH in Hrec.
    destruct Hrec as (rest & Ht & Hall & Hhon & Hpr & Hexit & Hatt).
    cbn [trace set_crypto_info log] in Ht.
    eexists (rest ++ [_; _; _]). split; [rewrite Ht, <- app_assoc; reflexivity |].
    split; [apply Forall_app; split; [exact Hall | repeat constructor] |].
    split; [apply Forall_app; split;
            [exact Hhon | repeat constructor; discriminate] |].
    split.
    { rewrite prompts_app, count_app, Hpr. cbn [count filter is_denied length].
      rewrite Hden. cbn. rewrite Nat.add_comm. reflexivity. }
    split; [apply password_exit_app;
            [eapply password_exit_nonempty; exact Hexit | exact Hexit] |].
    destruct rest as [| e r]; [destruct Hexit |].
    cbn [tl app]. apply Forall_app; split; [exact Hatt |].
    repeat constructor; try (intros H; discriminate H).
    intros _. exact Hden.
  - cbn [trace log] in Hden.
    intros [= <- <- <- <-].
    eexists [_; _; _]. split; [reflexivity |].
    split; [repeat constructor |].
    split; [repeat constructor; discriminate |].
    split; [cbn [count filter is_denied length prompts rev app flat_map];
            rewrite Hden; reflexivity |].
    split.
    + cbn. repeat split. apply Z.eqb_neq, Hden.
    + repeat constructor; intros H; discriminate H.
Qed.

(** The same for the whole function, with the line feed before the first
    prompt. *)
Lemma check_user_password_log fuel options d p w st d' p' w' :
  check_user_password cfg env fuel options d p w = Returned (st, d', p') w' ->
  exists new,
    trace w' = new ++ trace w /\
    Forall (fun e => is_password_event e = true) new /\
    Forall (honours options) new /\
    ((exists st0, new = [EvOutputString STR_CRLF_LF_SPACE st0] /\
                  EFI_ERROR cfg st0 = true) \/
     prompts new = false :: repeat true (count (is_denied cfg) new)) /\
    password_exit cfg d st d' p' new /\
    Forall (denied_attempt cfg) (tl new).
Proof.
  unfold check_user_password.
  destruct (silent options) eqn:Hsilent; cbn [negb].
  - intros Hrun. apply check_user_password_loop_log in Hrun.
    destruct Hrun as (new & Ht & Hall & Hhon & Hpr & Hexit & Hatt).
    exists new. repeat split; auto.
    revert Hhon. apply Forall_impl. intros e (H & _). exact H.
  - unfold bind at 1, OutputString, call.
    destruct (EFI_ERROR cfg (fw_OutputString env (trace w) STR_CRLF_LF_SPACE))
      eqn:Hout.
    + unfold ret. intros [= <- <- <- <-].
      eexists [_]. split; [reflexivity |].
      split; [repeat constructor |].
      split; [repeat constructor; assumption |].
      split; [left; eexists; split; [reflexivity | exact Hout] |].
      split; [cbn; auto | constructor].
    + intros Hrun. apply check_user_password_loop_log in Hrun.
      destruct Hrun as (new & Ht & Hall & Hhon & Hpr & Hexit & Hatt).
      cbn [trace log] in Ht.
      eexists (new ++ [_]). split; [rewrite Ht, <- app_assoc; reflexivity |].
      split; [apply Forall_app; split; [exact Hall | repeat constructor] |].
      split.
      { apply Forall_app; split.
        - revert Hhon. apply Forall_impl. intros e (H & _). exact H.
        - repeat constructor; assumption. }
      split.
      { right. rewrite prompts_app, count_app, Hpr. cbn.
        rewrite Nat.add_0_r. reflexivity. }
      split; [apply password_exit_app;
              [eapply password_exit_nonempty; exact Hexit | exact Hexit] |].
      destruct new as [| e r]; [destruct Hexit |].
      cbn [tl app]. apply Forall_app; split; [exact Hatt |].
      repeat constructor. intros H; discriminate H.
Qed.

(** X16: in a dialogue of check_user_password the first password prompt is
    shown without the wrong-password notice and every later prompt with it,
    and there is one later prompt for each decrypt_volume_header call that
    answered EFI_ACCESS_DENIED. The only dialogue without a prompt is the one
    in which writing the line feed failed. *)
Theorem wrong_password_notice_from_second_prompt
    (fuel : nat) (options : cs_option_flags) (d d' : cs_enum_user_decision)
    (p p' : Password) (w w' : World) (st : EFI_STATUS) :
  check_user_password cfg env fuel options d p w = Returned (st, d', p') w' ->
  exists new,
    trace w' = new ++ trace w /\
    ((exists st0, new = [EvOutputString STR_CRLF_LF_SPACE st0] /\
                  EFI_ERROR cfg st0 = true) \/
     prompts new = false :: repeat true (count (is_denied cfg) new)).
Proof.
  intros Hrun.
  destruct (check_user_password_log _ _ _ _ _ _ _ _ _ Hrun)
    as (new & Ht & _ & _ & Hpr & _).
  exists new. split; assumption.
Qed.

(** X17: how check_user_password is left can be read from its newest call.
    After a failed OutputString, ask_for_pwd or get_input the status of that
    call is returned and *user_decision is as it was. After an input that
    ended with the key of scan code 0x17 the status is EFI_SUCCESS and
    *user_decision is CS_UI_ESC_PRESSED. After a decrypt_volume_header call
    its status is returned, it is not EFI_ACCESS_DENIED, *user_decision is as
    it was and passwd->Length is the strlena of passwd->Text. Every
    decrypt_volume_header call before the newest call of the dialogue was
    answered EFI_ACCESS_DENIED. *)
Theorem check_user_password_exit
    (fuel : nat) (options : cs_option_flags) (d d' : cs_enum_user_decision)
    (p p' : Password) (w w' : World) (st : EFI_STATUS) :
  check_user_password cfg env fuel options d p w = Returned (st, d', p') w' ->
  exists new,
    trace w' = new ++ trace w /\
    password_exit cfg d st d' p' new /\
    Forall (denied_attempt cfg) (tl new).
Proof.
  intros Hrun.
  destruct (check_user_password_log _ _ _ _ _ _ _ _ _ Hrun)
    as (new & Ht & _ & _ & _ & Hexit & Hatt).
  exists new. repeat split; assumption.
Qed.

(** X18: check_user_password only uses the console and
    decrypt_volume_header, and it follows the options: OutputString is only
    called when the loader is not silent (with the line feed string), and
    every get_input call echoes the input exactly when
    enable_password_asterisk is set. *)
Theorem check_user_password_follows_options
    (fuel : nat) (options : cs_option_flags) (d d' : cs_enum_user_decision)
    (p p' : Password) (w w' : World) (st : EFI_STATUS) :
  check_user_password cfg env fuel options d p w = Returned (st, d', p') w' ->
  exists new,
    trace w' = new ++ trace w /\
    Forall (fun e => is_password_event e = true) new /\
    Forall (honours options) new.
Proof.
  intros Hrun.
  destruct (check_user_password_log _ _ _ _ _ _ _ _ _ Hrun)
    as (new & Ht & Hall & Hhon & _).
  exists new. repeat split; assumption.
Qed.

End PasswordDialogue.

(** ** Properties of encrypt_decrypt_media *)

Section Paths.

Variable cfg : Build.
Hypothesis Hcfg : build_ok cfg.
Variable env : Firmware.

Lemma password_is_preparation l :
  Forall (fun e => is_password_event e = true) l ->
  Forall (fun e => is_preparation_event e = true) l.
Proof.
  apply Forall_impl. intros e H. unfold is_preparation_event.
  rewrite H. reflexivity.
Qed.

Lemma discovery_is_preparation l :
  Forall (fun e => is_discovery_event e = true) l ->
  Forall (fun e => is_preparation_event e = true) l.
Proof.
  apply Forall_impl. intros e H. unfold is_preparation_event.
  rewrite H, orb_true_r. reflexivity.
Qed.

(** The log of get_cs_child. *)
Lemma get_cs_child_log parent w :
  exists st child disc,
    get_cs_child cfg env parent w
    = Returned (st, child)
        {| crypto_info := crypto_info w; trace := disc ++ trace w |} /\
    Forall (fun e => is_discovery_event e = true) disc.
Proof.
  destruct (fw_OpenProtocolInformation env (trace w) parent)
    as [st OpenInfo] eqn:Hinfo.
  destruct (EFI_ERROR cfg st) eqn:Hst.
  - exists st, NULL, [EvOpenProtocolInformation parent st].
    split; [| repeat constructor].
    unfold get_cs_child, bind at 1, OpenProtocolInformation, call.
    rewrite Hinfo. cbn [fst snd]. rewrite Hst. reflexivity.
  - destruct (get_cs_child_after_enumeration cfg env parent w st OpenInfo Hinfo Hst)
      as (child & probes & Hrun & Hall & _).
    do 2 eexists.
    exists (match OpenInfo with
            | Some (buffer, _) => [EvFreePool buffer]
            | None => []
            end ++ probes ++ [EvOpenProtocolInformation parent st]).
    split; [rewrite Hrun, <- !app_assoc; reflexivity |].
    apply Forall_app; split; [destruct OpenInfo as [[b es] |]; repeat constructor |].
    apply Forall_app; split; [| repeat constructor].
    revert Hall. apply Forall_impl. intros [] H; try discriminate H; reflexivity.
Qed.

(** The three ways through open_blockio_protocols. *)
Lemma open_blockio_protocols_cases parent child w :
  exists st iop ioc opened,
    open_blockio_protocols cfg env parent child w
    = Returned (st, iop, ioc)
        {| crypto_info := crypto_info w; trace := opened ++ trace w |} /\
    ((EFI_ERROR cfg st = true /\ opened = [EvOpenProtocol parent st iop]) \/
     (EFI_ERROR cfg st = true /\
      exists stp st2,
        EFI_ERROR cfg stp = false /\
        opened = [EvCloseProtocol parent st2; EvOpenProtocol child st ioc;
                  EvOpenProtocol parent stp iop]) \/
     (EFI_ERROR cfg st = false /\
      exists stp,
        EFI_ERROR cfg stp = false /\
        opened = [EvOpenProtocol child st ioc; EvOpenProtocol parent stp iop])).
Proof.
  unfold open_blockio_protocols, open_blockio_protocol, close_blockio_protocol,
    bind at 1, OpenProtocol, call.
  destruct (fw_OpenProtocol env (trace w) parent) as [stp iop] eqn:Hp.
  cbn [fst snd].
  destruct (EFI_ERROR cfg stp) eqn:Hstp; cbn [negb].
  - exists stp, iop, NULL, [EvOpenProtocol parent stp iop].
    split; [reflexivity | left; auto].
  - unfold bind at 1. cbn [trace log].
    destruct (fw_OpenProtocol env _ child) as [stc ioc] eqn:Hc.
    cbn [fst snd].
    destruct (EFI_ERROR cfg stc) eqn:Hstc.
    + unfold bind, CloseProtocol, call, ret. cbn [trace log crypto_info].
      exists stc, iop, ioc. eexists [_; _; _].
      split; [reflexivity |]. right; left. split; [exact Hstc |].
      do 2 eexists. split; [exact Hstp | reflexivity].
    + exists stc, iop, ioc. eexists [_; _].
      split; [reflexivity |]. right; right. split; [exact Hstc |].
      eexists. split; [exact Hstp | reflexivity].
Qed.

(** The log of a run of the engine. *)
Lemma run_engine_events p c encrypt w :
  exists new,
    trace (world_of (do_encrypt_decrypt_media cfg env p c encrypt w))
    = new ++ trace w /\
    Forall (fun e => is_engine_event e = true) new.
Proof.
  destruct (run_outcomes cfg Hcfg env p c encrypt w)
    as [(_ & Hrun) | [(_ & _ & Hrun) | (_ & buffer & l' & w2 & upd & _
                                         & Hloop & _ & _ & Ht & Hupd)]].
  - exists []. rewrite Hrun. split; [reflexivity | constructor].
  - eexists [_; _]. rewrite Hrun. split; [reflexivity | repeat constructor].
  - pose proof (copy_loop_world cfg env
                  (loop_bound cfg (setup_locals cfg encrypt (crypto_info w)))
                  encrypt (if encrypt then c else p) (if encrypt then p else c)
                  0 (sectorsInVolume cfg (crypto_info w))
                  (setup_locals cfg encrypt (crypto_info w))
                  (log (EvAllocatePool
                          (UINTN cfg (to_bytes cfg (CS_SERVICE_NUMBER_SECTORS cfg)))
                          (Some buffer)) (log EvResetInput w))) as Hw.
    cbn zeta in Hw. rewrite Hloop in Hw. cbn [world_of] in Hw.
    destruct Hw as (_ & during & Hd & Hall).
    exists (upd ++ EvFreePool buffer :: during
            ++ [EvAllocatePool
                  (UINTN cfg (to_bytes cfg (CS_SERVICE_NUMBER_SECTORS cfg)))
                  (Some buffer); EvResetInput]).
    rewrite Ht, Hd. cbn [trace log].
    split; [rewrite <- app_assoc; cbn [app]; rewrite <- app_assoc; reflexivity |].
    apply Forall_app; split.
    { revert Hupd. apply Forall_impl. intros e H. unfold is_engine_event.
      rewrite H, orb_true_r. reflexivity. }
    constructor; [reflexivity |].
    apply Forall_app; split; [| repeat constructor].
    revert Hall. apply Forall_impl. intros e H. unfold is_engine_event.
    rewrite H. reflexivity.
Qed.

(** The ways through encrypt_decrypt_media, told by its log: the session
    ends before any interface is opened, or with a failed OpenProtocol on
    the parent, or with a failed OpenProtocol on the child after which the
    parent is closed, or with the conversion between two OpenProtocol and
    two CloseProtocol calls. *)
Lemma encrypt_decrypt_media_paths fuel ImageHandle options encrypt passwd w
    st d p' w' :
  encrypt_decrypt_media cfg env fuel ImageHandle options encrypt passwd w
  = Returned (st, d, p') w' ->
  exists pre,
    Forall (fun e => is_preparation_event e = true) pre /\
    ((d = CS_UI_SERVICE_MENU /\ trace w' = pre ++ trace w) \/
     (d = CS_UI_SERVICE_MENU /\
      exists hp iop,
        EFI_ERROR cfg st = true /\
        trace w' = EvOpenProtocol hp st iop :: pre ++ trace w) \/
     (d = CS_UI_SERVICE_MENU /\
      exists hp stp iop hc ioc st2,
        EFI_ERROR cfg stp = false /\ EFI_ERROR cfg st = true /\
        trace w'
        = EvCloseProtocol hp st2 :: EvOpenProtocol hc st ioc
          :: EvOpenProtocol hp stp iop :: pre ++ trace w) \/
     (d = CS_UI_REBOOT /\
      exists hp stp iop hc stc ioc out conv st1 st2 wa wb,
        EFI_ERROR cfg stp = false /\ EFI_ERROR cfg stc = false /\
        trace wa = out ++ EvOpenProtocol hc stc ioc
                   :: EvOpenProtocol hp stp iop :: pre ++ trace w /\
        Forall (fun e => is_engine_event e = true) out /\
        ((silent options = true /\ out = []) \/
         (silent options = false /\
          exists x, out = [EvOutputString STR_CRLF_LF x])) /\
        do_encrypt_decrypt_media cfg env iop ioc encrypt wa = Returned st wb /\
        trace wb = conv ++ trace wa /\
        Forall (fun e => is_engine_event e = true) conv /\
        w' = log (EvCloseProtocol hc st2) (log (EvCloseProtocol hp st1) wb))).
Proof.
  unfold encrypt_decrypt_media. unfold bind at 1.
  destruct (check_user_password cfg env fuel options CS_UI_SERVICE_MENU passwd w)
    as [[[st0 d0] p0] w0 | w0 | w0] eqn:Hpw; try discriminate.
  destruct (check_user_password_log cfg env _ _ _ _ _ _ _ _ _ Hpw)
    as (pw & Htpw & Hallpw & _ & _ & Hexit & _).
  apply password_is_preparation in Hallpw.
  pose proof (password_exit_decision cfg _ _ _ _ _ Hexit) as Hdec.
  destruct (EFI_ERROR cfg st0) eqn:Hst0.
  { intros [= <- <- <- <-]. exists pw. split; [exact Hallpw |]. left.
    split; [| exact Htpw].
    destruct Hdec as [Hd | (_ & Hs)]; [exact Hd |].
    rewrite Hs, EFI_ERROR_EFI_SUCCESS in Hst0. discriminate. }
  destruct d0.
  2:{ intros [= <- <- <- <-]. exists pw. split; [exact Hallpw |]. left.
      split; [reflexivity | exact Htpw]. }
  2:{ destruct Hdec as [Hd | (Hd & _)]; discriminate. }
  unfold bind at 1, check_really_do, call.
  destruct (fw_check_really_do env (trace w0)) eqn:Hreally; cbn [negb].
  2:{ intros [= <- <- <- <-]. exists (EvCheckReallyDo false :: pw).
      split; [constructor; [reflexivity | exact Hallpw] |]. left.
      split; [reflexivity |]. cbn [trace log]. rewrite Htpw. reflexivity. }
  unfold bind at 1, start_connect_fake_crypto_driver, call.
  destruct (EFI_ERROR cfg (fw_start_connect_fake_crypto_driver env _ ImageHandle))
    eqn:Hdrv.
  { intros [= <- <- <- <-]. eexists (_ :: EvCheckReallyDo true :: pw).
    split.
    2:{ left. split; [reflexivity |]. cbn [trace log]. rewrite Htpw.
        reflexivity. }
    constructor; [reflexivity |]. constructor; [reflexivity | exact Hallpw]. }
  unfold bind at 1, get_boot_partition_handle, call.
  unfold bind at 1.
  match goal with
  | |- context [get_cs_child cfg env ?h ?w1] =>
    destruct (get_cs_child_log h w1) as (stg & child & disc & Hg & Hdisc);
      rewrite Hg; cbn [trace log crypto_info] in *
  end.
  apply discovery_is_preparation in Hdisc.
  match goal with
  | |- context [disc ++ ?e1 :: ?e2 :: ?e3 :: trace w0] =>
    assert (Hpre : Forall (fun e => is_preparation_event e = true)
                     (disc ++ e1 :: e2 :: e3 :: pw))
      by (apply Forall_app; split; [exact Hdisc |];
          repeat (constructor; [reflexivity |]); exact Hallpw);
      assert (Hpre_t : disc ++ e1 :: e2 :: e3 :: trace w0
                       = (disc ++ e1 :: e2 :: e3 :: pw) ++ trace w)
        by (rewrite Htpw, <- app_assoc; reflexivity);
      rewrite Hpre_t; clear Hpre_t;
      set (pre := disc ++ e1 :: e2 :: e3 :: pw) in *
  end.
  destruct (EFI_ERROR cfg stg) eqn:Hstg.
  { intros [= <- <- <- <-]. exists pre. split; [exact Hpre |]. left.
    split; reflexivity. }
  unfold bind at 1.
  match goal with
  | |- context [open_blockio_protocols cfg env ?hp ?hc ?w1] =>
    destruct (open_blockio_protocols_cases hp hc w1)
      as (sto & iop & ioc & opened & Ho & Hcases);
      rewrite Ho; cbn [trace log crypto_info] in *
  end.
  destruct Hcases as [(Herr & ->) | [(Herr & stp & st2 & Hstp & ->)
                                     | (Hok & stp & Hstp & ->)]].
  - rewrite Herr. cbn [negb]. intros [= <- <- <- <-].
    exists pre. split; [exact Hpre |]. right; left.
    split; [reflexivity |]. do 2 eexists. split; [exact Herr | reflexivity].
  - rewrite Herr. cbn [negb]. intros [= <- <- <- <-].
    exists pre. split; [exact Hpre |]. right; right; left.
    split; [reflexivity |]. do 6 eexists.
    split; [exact Hstp |]. split; [exact Herr | reflexivity].
  - rewrite Hok. cbn [negb].
    unfold bind at 1.
    set (line := if negb (silent options) then OutputString env STR_CRLF_LF
                 else ret sto).
    assert (Hline : exists out x,
               line {| crypto_info := crypto_info w0;
                       trace := [EvOpenProtocol child sto ioc;
                                 EvOpenProtocol
                                   (fw_get_boot_partition_handle env
                                      (EvStartConnectFakeCryptoDriver ImageHandle
                                         (fw_start_connect_fake_crypto_driver env
                                            (EvCheckReallyDo true :: trace w0)
                                            ImageHandle)
                                       :: EvCheckReallyDo true :: trace w0))
                                   stp iop] ++ pre ++ trace w |}
               = Returned x
                   {| crypto_info := crypto_info w0;
                      trace := out ++ [EvOpenProtocol child sto ioc;
                                       EvOpenProtocol
                                         (fw_get_boot_partition_handle env
                                            (EvStartConnectFakeCryptoDriver
                                               ImageHandle
                                               (fw_start_connect_fake_crypto_driver
                                                  env
                                                  (EvCheckReallyDo true :: trace w0)
                                                  ImageHandle)
                                             :: EvCheckReallyDo true :: trace w0))
                                         stp iop] ++ pre ++ trace w |} /\
               Forall (fun e => is_engine_event e = true) out /\
               ((silent options = true /\ out = []) \/
                (silent options = false /\
                 exists x, out = [EvOutputString STR_CRLF_LF x]))).
    { subst line. destruct (silent options); cbn [negb].
      - exists [], sto. split; [reflexivity |]. split; [constructor | auto].
      - eexists [_], _. split; [reflexivity |].
        split; [repeat constructor |]. right. split; [reflexivity |].
        eexists; reflexivity. }
    destruct Hline as (out & x & Hline & Hout & Hfeed). rewrite Hline.
    unfold bind at 1.
    match goal with
    | |- context [do_encrypt_decrypt_media cfg env iop ioc encrypt ?wa] =>
      destruct (run_engine_events iop ioc encrypt wa) as (new & Hnew & Hall);
        destruct (do_encrypt_decrypt_media cfg env iop ioc encrypt wa)
          as [ste wb | wb | wb] eqn:Hrun; try discriminate
    end.
    cbn [world_of trace] in Hnew.
    unfold close_blockio_protocol, bind, CloseProtocol, call, ret.
    intros [= <- <- <- <-].
    exists pre. split; [exact Hpre |]. right; right; right.
    split; [reflexivity |].
    do 6 eexists. exists out, new. do 2 eexists.
    match type of Hrun with
    | do_encrypt_decrypt_media _ _ _ _ _ ?wa0 = _ => exists wa0, wb
    end.
    split; [exact Hstp |]. split; [exact Hok |].
    split; [cbn [trace app]; reflexivity |].
    split; [exact Hout |].
    split; [exact Hfeed |].
    split; [exact Hrun |].
    split; [exact Hnew |].
    split; [exact Hall | reflexivity].
Qed.

Lemma outstanding_app a b : forall held,
  outstanding cfg (a ++ b) held = outstanding cfg b (outstanding cfg a held).
Proof.
  induction a as [| e a IH]; intros held; [reflexivity |].
  destruct e; cbn [app outstanding]; apply IH.
Qed.

Lemma outstanding_quiet l : forall held,
  Forall (fun e => is_protocol_event e = false) l ->
  outstanding cfg l held = held.
Proof.
  induction l as [| e l IH]; intros held Hall; [reflexivity |].
  inversion Hall as [| e' l' He Hl]; subst.
  destruct e; try discriminate He; cbn [outstanding]; apply IH, Hl.
Qed.

Lemma preparation_quiet l :
  Forall (fun e => is_preparation_event e = true) l ->
  Forall (fun e => is_protocol_event e = false) (rev l) /\
  Forall (fun e => is_conversion_event e = false) l.
Proof.
  intros H. split.
  - apply Forall_rev. revert H. apply Forall_impl.
    intros [] He; try discriminate He; reflexivity.
  - revert H. apply Forall_impl.
    intros [] He; try discriminate He; reflexivity.
Qed.

Lemma engine_quiet l :
  Forall (fun e => is_engine_event e = true) l ->
  Forall (fun e => is_protocol_event e = false) (rev l).
Proof.
  intros H. apply Forall_rev. revert H. apply Forall_impl.
  intros [] He; try discriminate He; reflexivity.
Qed.

(** X19: a session of encrypt_decrypt_media that ends with
    *user_decision = CS_UI_SERVICE_MENU has not touched the disk: no block
    was read or written, no progress was shown, the ESC key was not polled
    and the header was not written back. The only other decision a session
    can end with is CS_UI_REBOOT: the CS_UI_ESC_PRESSED of
    check_user_password never reaches the caller. *)
Theorem disk_is_untouched_unless_reboot
    (fuel : nat) (ImageHandle : EFI_HANDLE) (options : cs_option_flags)
    (encrypt : bool) (passwd p' : Password) (w w' : World)
    (st : EFI_STATUS) (d : cs_enum_user_decision) :
  encrypt_decrypt_media cfg env fuel ImageHandle options encrypt passwd w
  = Returned (st, d, p') w' ->
  d = CS_UI_REBOOT \/
  (d = CS_UI_SERVICE_MENU /\
   exists new,
     trace w' = new ++ trace w /\
     Forall (fun e => is_conversion_event e = false) new).
Proof.
  intros Hrun.
  destruct (encrypt_decrypt_media_paths _ _ _ _ _ _ _ _ _ _ Hrun)
    as (pre & Hpre & Hpaths).
  apply preparation_quiet in Hpre. destruct Hpre as [_ Hpre].
  destruct Hpaths as [(Hd & Ht) | [(Hd & hp & iop & _ & Ht)
    | [(Hd & hp & stp & iop & hc & ioc & st2 & _ & _ & Ht) | (Hd & _)]]].
  - right. split; [exact Hd |]. exists pre. split; assumption.
  - right. split; [exact Hd |]. eexists (_ :: pre).
    split; [exact Ht |]. constructor; [reflexivity | exact Hpre].
  - right. split; [exact Hd |]. eexists (_ :: _ :: _ :: pre).
    split; [exact Ht |]. repeat (constructor; [reflexivity |]). exact Hpre.
  - left. exact Hd.
Qed.

(** X20: when encrypt_decrypt_media returns, no Block I/O interface that it
    opened is left open: for every handle on which OpenProtocol succeeded
    during the session a CloseProtocol call on that handle followed. This
    holds on every path, also when the child could not be opened and when
    the conversion ended with an error. *)
Theorem no_interface_is_left_open
    (fuel : nat) (ImageHandle : EFI_HANDLE) (options : cs_option_flags)
    (encrypt : bool) (passwd p' : Password) (w w' : World)
    (st : EFI_STATUS) (d : cs_enum_user_decision) :
  encrypt_decrypt_media cfg env fuel ImageHandle options encrypt passwd w
  = Returned (st, d, p') w' ->
  exists new,
    trace w' = new ++ trace w /\
    outstanding cfg (rev new) [] = [].
Proof.
  intros Hrun.
  destruct (encrypt_decrypt_media_paths _ _ _ _ _ _ _ _ _ _ Hrun)
    as (pre & Hpre & Hpaths).
  apply preparation_quiet in Hpre. destruct Hpre as [Hpre _].
  destruct Hpaths as [(Hd & Ht) | [(Hd & hp & iop & Herr & Ht)
    | [(Hd & hp & stp & iop & hc & ioc & st2 & Hstp & Herr & Ht)
      | (Hd & hp & stp & iop & hc & stc & ioc & out & conv & st1 & st2 & wa
         & wb & Hstp & Hstc & Hwa & Hout & _ & _ & Hwb & Hconv & ->)]]].
  - exists pre. split; [exact Ht |]. apply outstanding_quiet, Hpre.
  - eexists (_ :: pre). split; [exact Ht |].
    cbn [rev]. rewrite outstanding_app, (outstanding_quiet _ _ Hpre).
    cbn [outstanding]. rewrite Herr. reflexivity.
  - eexists (_ :: _ :: _ :: pre). split; [exact Ht |].
    cbn [rev]. rewrite <- !app_assoc. cbn [app].
    rewrite outstanding_app, (outstanding_quiet _ _ Hpre).
    cbn [outstanding]. rewrite Hstp, Herr. cbn [filter].
    rewrite Z.eqb_refl. reflexivity.
  - apply engine_quiet in Hout, Hconv.
    exists (EvCloseProtocol hc st2 :: EvCloseProtocol hp st1
            :: conv ++ out ++ EvOpenProtocol hc stc ioc
            :: EvOpenProtocol hp stp iop :: pre).
    split.
    { cbn [trace log]. rewrite Hwb, Hwa.
      repeat (progress (cbn [app]; rewrite <- ?app_assoc)). reflexivity. }
    cbn [rev]. rewrite !rev_app_distr. cbn [rev]. rewrite <- !app_assoc.
    cbn [app].
    rewrite outstanding_app, (outstanding_quiet _ _ Hpre).
    cbn [outstanding]. rewrite Hstp, Hstc.
    rewrite outstanding_app, (outstanding_quiet _ _ Hout).
    rewrite outstanding_app, (outstanding_quiet _ _ Hconv).
    cbn [outstanding filter]. rewrite Z.eqb_refl. cbn [negb].
    destruct (hc =? hp); cbn [negb filter]; [reflexivity |].
    rewrite Z.eqb_refl. reflexivity.
Qed.

(** X21: a session that ends with *user_decision = CS_UI_REBOOT has opened
    the Block I/O interface of the parent and then of the child without
    error, has run do_encrypt_decrypt_media on these two interfaces, and has
    then called CloseProtocol on the parent and on the child, in this order.
    The status it returns is the status of do_encrypt_decrypt_media, also
    when that is an error, and whatever the two CloseProtocol calls and the
    OutputString call for the line feed (made only when the loader is not
    silent) answered. *)
Theorem reboot_follows_the_conversion
    (fuel : nat) (ImageHandle : EFI_HANDLE) (options : cs_option_flags)
    (encrypt : bool) (passwd p' : Password) (w w' : World)
    (st : EFI_STATUS) :
  encrypt_decrypt_media cfg env fuel ImageHandle options encrypt passwd w
  = Returned (st, CS_UI_REBOOT, p') w' ->
  exists hp stp iop hc stc ioc earlier feed st1 st2 wa wb,
    EFI_ERROR cfg stp = false /\ EFI_ERROR cfg stc = false /\
    Forall (fun e => is_preparation_event e = true) earlier /\
    ((silent options = true /\ feed = []) \/
     (silent options = false /\
      exists x, feed = [EvOutputString STR_CRLF_LF x])) /\
    trace wa = feed ++ EvOpenProtocol hc stc ioc
               :: EvOpenProtocol hp stp iop :: earlier ++ trace w /\
    do_encrypt_decrypt_media cfg env iop ioc encrypt wa = Returned st wb /\
    w' = log (EvCloseProtocol hc st2) (log (EvCloseProtocol hp st1) wb).
Proof.
  intros Hrun.
  destruct (encrypt_decrypt_media_paths _ _ _ _ _ _ _ _ _ _ Hrun)
    as (pre & Hpre & Hpaths).
  destruct Hpaths as [(Hd & _) | [(Hd & _) | [(Hd & _)
      | (Hd & hp & stp & iop & hc & stc & ioc & out & conv & st1 & st2 & wa
         & wb & Hstp & Hstc & Hwa & Hout & Hfeed & Hdo & Hwb & Hconv & ->)]]];
    try discriminate Hd.
  exists hp, stp, iop, hc, stc, ioc, pre, out, st1, st2, wa, wb.
  repeat split; assumption.
Qed.

(** X22: when the password dialogue ended without error and without the ESC
    key and the user then declines the confirmation (check_really_do
    answers FALSE), encrypt_decrypt_media returns EFI_SUCCESS with
    *user_decision = CS_UI_SERVICE_MENU right after that answer: the crypto
    driver is not started and nothing else is called. The status is
    EFI_SUCCESS whatever non-error status the dialogue ended with. *)
Theorem declined_confirmation_returns_to_menu
    (fuel : nat) (ImageHandle : EFI_HANDLE) (options : cs_option_flags)
    (encrypt : bool) (passwd p0 : Password) (w w0 : World)
    (st0 : EFI_STATUS) (d0 : cs_enum_user_decision) :
  check_user_password cfg env fuel options CS_UI_SERVICE_MENU passwd w
  = Returned (st0, d0, p0) w0 ->
  EFI_ERROR cfg st0 = false ->
  d0 <> CS_UI_ESC_PRESSED ->
  fw_check_really_do env (trace w0) = false ->
  encrypt_decrypt_media cfg env fuel ImageHandle options encrypt passwd w
  = Returned (EFI_SUCCESS, CS_UI_SERVICE_MENU, p0)
      (log (EvCheckReallyDo false) w0).
Proof.
  intros Hpw Hst0 Hesc Hno.
  destruct (check_user_password_log cfg env _ _ _ _ _ _ _ _ _ Hpw)
    as (pw & _ & _ & _ & _ & Hexit & _).
  destruct (password_exit_decision cfg _ _ _ _ _ Hexit) as [-> | (-> & _)];
    [| congruence].
  unfold encrypt_decrypt_media. unfold bind at 1. rewrite Hpw, Hst0.
  unfold bind at 1, check_really_do, call. rewrite Hno. reflexivity.
Qed.

End Paths.

(** ** A run that nothing interrupts *)

Section UninterruptedRuns.

Variable cfg : Build.
Hypothesis Hcfg : build_ok cfg.
Hypothesis HW : UINTN_BITS cfg = 64.
Variable env : Firmware.

Hypothesis Hread : forall t this MediaId lba bytes,
    fw_ReadBlocks env t this MediaId lba bytes = EFI_SUCCESS.
Hypothesis Hwrite : forall t this MediaId lba bytes,
    fw_WriteBlocks env t this MediaId lba bytes = EFI_SUCCESS.
Hypothesis Hesc : forall t, fw_check_for_ESC env t = false.
Variable buffer : Z.
Hypothesis Halloc : forall t size, fw_AllocatePool env t size = Some buffer.
Hypothesis Hpersist : forall t info,
    fw_update_volume_header env t info = EFI_SUCCESS.

(** X23: on a build with a UINTN of 64 bits, with a firmware that hands out
    a buffer, answers every ReadBlocks, WriteBlocks and update_volume_header
    call with EFI_SUCCESS and never reports the ESC key, a run on a
    consistent header with work to do returns EFI_SUCCESS and leaves the
    header with the whole volume encrypted (its sector count in bytes) when
    encrypting, and with EncryptedAreaLength 0 when decrypting. When
    encrypting, the sectors left are taken to be at least a buffer full. *)
Theorem uninterrupted_run_converts_everything
    (parentBlockIo childBlockIo : EFI_BLOCK_IO) (encrypt : bool) (w : World) :
  let E := numberEncryptedSectors cfg (crypto_info w) in
  let V := sectorsInVolume cfg (crypto_info w) in
  wf_header (crypto_info w) ->
  E <= V ->
  0 < (if encrypt then V - E else E) ->
  (encrypt = true -> CS_SERVICE_NUMBER_SECTORS cfg <= V - E) ->
  to_sectors cfg (EncryptedAreaStart (crypto_info w)) + V < 2 ^ 64 ->
  exists w',
    do_encrypt_decrypt_media cfg env parentBlockIo childBlockIo encrypt w
    = Returned EFI_SUCCESS w' /\
    crypto_info w'
    = set_EncryptedAreaLength
        (if encrypt then UINTN cfg (to_bytes cfg V) else 0) (crypto_info w).
Proof.
  intros E V Hwf Hle Hwork _ Hfit.
  apply (run_completes cfg Hcfg HW env Hread Hwrite Hesc buffer Halloc Hpersist);
    try assumption.
  pose proof (UINTN_range cfg Hcfg (to_sectors cfg (VolumeSize (crypto_info w)))) as HV.
  pose proof (UINTN_range cfg Hcfg
                (to_sectors cfg (EncryptedAreaLength (crypto_info w)))) as HE.
  fold (sectorsInVolume cfg (crypto_info w)) in HV.
  fold (numberEncryptedSectors cfg (crypto_info w)) in HE.
  fold V in HV. fold E in HE.
  unfold setup_locals; cbn. fold E V.
  destruct encrypt; [rewrite UINTN_small by lia |]; exact Hwork.
Qed.

End UninterruptedRuns.

(** ** Taking up an interrupted conversion *)

Section Resumption.

Variable cfg : Build.
Hypothesis Hcfg : build_ok cfg.
Hypothesis HW : UINTN_BITS cfg = 64.
Variable env : Firmware.

(** A run with work to do starts with a read at the cursor of line 311 or
    321. *)
Lemma run_first_read p c encrypt w buffer :
  let info := crypto_info w in
  let size := UINTN cfg (to_bytes cfg (CS_SERVICE_NUMBER_SECTORS cfg)) in
  let l0 := setup_locals cfg encrypt info in
  numberEncryptedSectors cfg info <= sectorsInVolume cfg info ->
  fw_AllocatePool env (EvResetInput :: trace w) size = Some buffer ->
  0 < numberSectors l0 ->
  exists later st,
    trace (world_of (do_encrypt_decrypt_media cfg env p c encrypt w))
    = later
      ++ EvReadBlocks (if encrypt then c else p)
           (fw_MediaId env (if encrypt then c else p))
           (lba l0) (bytesToRead l0) st
      :: EvAllocatePool size (Some buffer) :: EvResetInput :: trace w.
Proof.
  intros info size l0 Hle Halloc Hpos.
  destruct (run_outcomes cfg Hcfg env p c encrypt w)
    as [(Hlt & _) | [(_ & Hnone & _) | (_ & b & l' & w2 & upd & Hb & Hloop
                                        & _ & _ & Ht & _)]].
  { fold info in Hlt. lia. }
  { fold size in Hnone. congruence. }
  fold size in Hb, Hloop. rewrite Halloc in Hb. injection Hb as <-.
  destruct (copy_loop_first_read cfg env _ _ _ _ _ _ _ _ _ _ Hpos Hloop)
    as (later & st & Hfirst).
  cbn [trace log] in Hfirst.
  exists (upd ++ EvFreePool buffer :: later), st.
  rewrite Ht, Hfirst, <- app_assoc. reflexivity.
Qed.

(** The sector count that a run left in the header is read back as it was
    written. *)
Lemma recorded_sectors_read_back info d :
  wf_header info -> 0 <= d <= sectorsInVolume cfg info ->
  let info' := set_EncryptedAreaLength (UINTN cfg (to_bytes cfg d)) info in
  numberEncryptedSectors cfg info' = d /\
  sectorsInVolume cfg info' = sectorsInVolume cfg info.
Proof.
  intros (_ & _ & Hv) Hd info'. split; [| reflexivity].
  assert (Hmod : 2 ^ UINTN_BITS cfg = 2 ^ 64) by (rewrite HW; reflexivity).
  pose proof (to_sectors_nonneg cfg Hcfg _ (proj1 Hv)) as HV0.
  pose proof (to_sectors_le cfg Hcfg _ (proj1 Hv)) as HV1.
  assert (HV : sectorsInVolume cfg info = to_sectors cfg (VolumeSize info))
    by (apply UINTN_small; lia).
  assert (Hb : 0 <= to_bytes cfg d <= VolumeSize info).
  { split; [apply to_bytes_nonneg; [exact Hcfg | lia] |].
    transitivity (to_bytes cfg (to_sectors cfg (VolumeSize info)));
      [apply to_bytes_mono; [exact Hcfg | lia]
      | apply to_bytes_to_sectors_le; [exact Hcfg | lia]]. }
  unfold numberEncryptedSectors; cbn.
  rewrite (UINTN_small cfg (to_bytes cfg d)) by lia.
  rewrite to_sectors_to_bytes by exact Hcfg.
  apply UINTN_small. lia.
Qed.

(** X24: on a build with a UINTN of 64 bits, an encrypting run that
    returned without error (for instance one stopped by the ESC key) leaves
    a header from which the next encrypting run takes up the work where the
    first one stopped: the encrypted sector count d read from the header is
    the end of the last chunk the first run converted, and when sectors are
    left the first read of the next run is at sector d, so that no sector is
    left out or converted twice between the two runs. The first run is
    taken to start with none or at least a buffer full of sectors to
    encrypt. *)
Theorem resumed_encryption_continues_where_it_stopped
    (parentBlockIo childBlockIo : EFI_BLOCK_IO) (w w1 : World)
    (st : EFI_STATUS) (buffer : Z) :
  let E := numberEncryptedSectors cfg (crypto_info w) in
  let V := sectorsInVolume cfg (crypto_info w) in
  let size := UINTN cfg (to_bytes cfg (CS_SERVICE_NUMBER_SECTORS cfg)) in
  wf_header (crypto_info w) ->
  ~ 0 < V - E < CS_SERVICE_NUMBER_SECTORS cfg ->
  do_encrypt_decrypt_media cfg env parentBlockIo childBlockIo true w
  = Returned st w1 ->
  EFI_ERROR cfg st = false ->
  fw_AllocatePool env (EvResetInput :: trace w1) size = Some buffer ->
  exists sizes new,
    trace w1 = new ++ trace w /\
    write_requests new = chunk_requests cfg (ascending E sizes) /\
    let d := E + total sizes in
    E < d <= V /\
    numberEncryptedSectors cfg (crypto_info w1) = d /\
    (d < V ->
     exists later st',
       trace (world_of (do_encrypt_decrypt_media cfg env parentBlockIo
                          childBlockIo true w1))
       = later
         ++ EvReadBlocks childBlockIo (fw_MediaId env childBlockIo) d size st'
         :: EvAllocatePool size (Some buffer) :: EvResetInput :: trace w1).
Proof.
  intros E V size Hwf Hfull Hrun Hok Halloc.
  destruct (encrypt_run_tiling cfg Hcfg env parentBlockIo childBlockIo w w1 st
              Hwf Hfull Hrun Hok)
    as (sizes & new & _ & _ & _ & Hd & Ht & _ & Hw & Hnew).
  fold E V in Hd, Hw, Hnew.
  exists sizes, new. split; [exact Ht |]. split; [exact Hw |].
  intros d. fold d in Hd, Hnew.
  pose proof (UINTN_range cfg Hcfg
                (to_sectors cfg (EncryptedAreaLength (crypto_info w)))) as HE.
  fold (numberEncryptedSectors cfg (crypto_info w)) in HE. fold E in HE.
  destruct (recorded_sectors_read_back (crypto_info w) d Hwf ltac:(fold V; lia))
    as (Hd1 & HV1).
  cbv zeta in Hd1, HV1. rewrite <- Hnew in Hd1, HV1. fold V in HV1.
  split; [exact Hd |]. split; [exact Hd1 |].
  intros Hleft.
  pose proof (UINTN_modulus_le cfg Hcfg) as HM.
  pose proof (UINTN_range cfg Hcfg
                (to_sectors cfg (VolumeSize (crypto_info w)))) as HVr.
  fold (sectorsInVolume cfg (crypto_info w)) in HVr. fold V in HVr.
  destruct (run_first_read parentBlockIo childBlockIo true w1 buffer)
    as (later & st' & Hfirst).
  - rewrite Hd1, HV1. lia.
  - exact Halloc.
  - unfold setup_locals; cbn. rewrite Hd1, HV1, UINTN_small by lia. lia.
  - assert (Hl : lba (setup_locals cfg true (crypto_info w1)) = d).
    { unfold setup_locals; cbn. rewrite Hd1. apply UINT64_small. lia. }
    assert (Hb : bytesToRead (setup_locals cfg true (crypto_info w1)) = size).
    { unfold setup_locals; cbn. destruct Hcfg as (_ & _ & Hcap).
      rewrite (UINTN_small cfg (CS_SERVICE_NUMBER_SECTORS cfg)) by lia.
      reflexivity. }
    exists later, st'. rewrite Hfirst, Hl, Hb. reflexivity.
Qed.

(** X25: the same for decrypting: a decrypting run that returned without
    error leaves a header from which the next decrypting run takes up the
    work where the first one stopped. The encrypted sector count d read
    from the header is the first sector of the last chunk the first run
    converted, and when d is not 0 the first read of the next run asks for
    the chunk that ends at sector d: min(d, CS_SERVICE_NUMBER_SECTORS)
    sectors from sector d less that number. *)
Theorem resumed_decryption_continues_where_it_stopped
    (parentBlockIo childBlockIo : EFI_BLOCK_IO) (w w1 : World)
    (st : EFI_STATUS) (buffer : Z) :
  let E := numberEncryptedSectors cfg (crypto_info w) in
  let size := UINTN cfg (to_bytes cfg (CS_SERVICE_NUMBER_SECTORS cfg)) in
  wf_header (crypto_info w) ->
  do_encrypt_decrypt_media cfg env parentBlockIo childBlockIo false w
  = Returned st w1 ->
  EFI_ERROR cfg st = false ->
  fw_AllocatePool env (EvResetInput :: trace w1) size = Some buffer ->
  exists sizes new,
    trace w1 = new ++ trace w /\
    write_requests new = chunk_requests cfg (descending E sizes) /\
    let d := E - total sizes in
    let chunk := Z.min d (CS_SERVICE_NUMBER_SECTORS cfg) in
    0 <= d < E /\
    numberEncryptedSectors cfg (crypto_info w1) = d /\
    (0 < d ->
     exists later st',
       trace (world_of (do_encrypt_decrypt_media cfg env parentBlockIo
                          childBlockIo false w1))
       = later
         ++ EvReadBlocks parentBlockIo (fw_MediaId env parentBlockIo)
              (d - chunk) (UINTN cfg (to_bytes cfg chunk)) st'
         :: EvAllocatePool size (Some buffer) :: EvResetInput :: trace w1).
Proof.
  intros E size Hwf Hrun Hok Halloc.
  destruct (decrypt_run_tiling cfg Hcfg env parentBlockIo childBlockIo w w1 st
              Hwf Hrun Hok)
    as (sizes & new & _ & _ & _ & Hd & Ht & _ & Hw & Hnew).
  fold E in Hd, Hw, Hnew.
  destruct (run_without_error_log cfg Hcfg env _ _ _ _ _ _
              (proj1 (proj1 Hwf)) Hrun Hok)
    as (_ & _ & _ & _ & _ & _ & _ & Hle & _).
  fold E in Hle.
  exists sizes, new. split; [exact Ht |]. split; [exact Hw |].
  intros d chunk. fold d in Hd, Hnew.
  destruct (recorded_sectors_read_back (crypto_info w) d Hwf ltac:(lia))
    as (Hd1 & HV1).
  cbv zeta in Hd1, HV1. rewrite <- Hnew in Hd1, HV1.
  split; [exact Hd |]. split; [exact Hd1 |].
  intros Hleft.
  pose proof (UINTN_modulus_le cfg Hcfg) as HM.
  pose proof (UINTN_range cfg Hcfg
                (to_sectors cfg (EncryptedAreaLength (crypto_info w)))) as HE.
  fold (numberEncryptedSectors cfg (crypto_info w)) in HE. fold E in HE.
  destruct (run_first_read parentBlockIo childBlockIo false w1 buffer)
    as (later & st' & Hfirst).
  - rewrite Hd1, HV1. lia.
  - exact Halloc.
  - unfold setup_locals; cbn. rewrite Hd1. lia.
  - assert (Hcap : 0 < CS_SERVICE_NUMBER_SECTORS cfg < 2 ^ UINTN_BITS cfg)
      by apply Hcfg.
    assert (Hb : bufferSectors (setup_locals cfg false (crypto_info w1)) = chunk).
    { unfold setup_locals; cbn. rewrite Hd1.
      rewrite (UINTN_small cfg (CS_SERVICE_NUMBER_SECTORS cfg)) by lia.
      subst chunk.
      destruct (Z.ltb_spec d (CS_SERVICE_NUMBER_SECTORS cfg)); lia. }
    assert (Hl : lba (setup_locals cfg false (crypto_info w1)) = d - chunk).
    { unfold setup_locals in Hb |- *; cbn in Hb |- *. rewrite Hb, Hd1.
      apply UINT64_small. subst chunk. lia. }
    assert (Hy : bytesToRead (setup_locals cfg false (crypto_info w1))
                 = UINTN cfg (to_bytes cfg chunk)).
    { unfold setup_locals in Hb |- *; cbn in Hb |- *. rewrite Hb. reflexivity. }
    exists later, st'. rewrite Hfirst, Hl, Hy. reflexivity.
Qed.

End Resumption.

(** ** The further properties on the examples *)

(** X1 on a header that claims 2000 encrypted sectors on 1000. *)
Lemma inconsistent_header_witness :
  sectorsInVolume x86_64_build (crypto_info corrupt_volume)
  < numberEncryptedSectors x86_64_build (crypto_info corrupt_volume) /\
  do_encrypt_decrypt_media x86_64_build
    (good_firmware (example_header 1000 2000)) 101 201 true corrupt_volume
  = Returned (EFI_VOLUME_CORRUPTED x86_64_build) corrupt_volume /\
  EFI_ERROR x86_64_build (EFI_VOLUME_CORRUPTED x86_64_build) = true.
Proof.
  assert (H : sectorsInVolume x86_64_build (crypto_info corrupt_volume)
              < numberEncryptedSectors x86_64_build (crypto_info corrupt_volume))
    by (vm_compute; reflexivity).
  split; [exact H |].
  exact (inconsistent_header_aborts_before_any_call x86_64_build x86_64_build_ok
           (good_firmware (example_header 1000 2000)) 101 201 true
           corrupt_volume H).
Defined.

(** X2 with the exhausted pool. *)
Lemma allocation_failure_witness :
  fw_AllocatePool (no_pool_firmware (example_header 1000 0))
    (EvResetInput :: trace fresh_volume)
    (UINTN x86_64_build (to_bytes x86_64_build
                           (CS_SERVICE_NUMBER_SECTORS x86_64_build))) = None /\
  exists w',
    do_encrypt_decrypt_media x86_64_build
      (no_pool_firmware (example_header 1000 0)) 101 201 true fresh_volume
    = Returned (EFI_OUT_OF_RESOURCES x86_64_build) w' /\
    EFI_ERROR x86_64_build (EFI_OUT_OF_RESOURCES x86_64_build) = true /\
    crypto_info w' = crypto_info fresh_volume /\
    trace w'
    = [EvAllocatePool
         (UINTN x86_64_build (to_bytes x86_64_build
                                (CS_SERVICE_NUMBER_SECTORS x86_64_build))) None;
       EvResetInput] ++ trace fresh_volume.
Proof.
  split; [reflexivity |].
  apply (allocation_failure_is_out_of_resources x86_64_build x86_64_build_ok
           (no_pool_firmware (example_header 1000 0)) 101 201 true fresh_volume).
  - vm_compute. discriminate.
  - reflexivity.
Defined.

(** X3 on the fresh volume. *)
Lemma buffer_is_freed_witness :
  fw_AllocatePool (good_firmware (example_header 1000 0))
    (EvResetInput :: trace fresh_volume)
    (UINTN x86_64_build (to_bytes x86_64_build
                           (CS_SERVICE_NUMBER_SECTORS x86_64_build))) = Some 900 /\
  exists during after,
    trace (world_of (do_encrypt_decrypt_media x86_64_build
                       (good_firmware (example_header 1000 0))
                       101 201 true fresh_volume))
    = after ++ EvFreePool 900 :: during
      ++ EvAllocatePool
           (UINTN x86_64_build (to_bytes x86_64_build
                                  (CS_SERVICE_NUMBER_SECTORS x86_64_build)))
           (Some 900) :: EvResetInput :: trace fresh_volume /\
    Forall (fun e => is_loop_event e = true) during /\
    Forall (fun e => is_persistence_event e = true) after /\
    count is_free_pool (after ++ EvFreePool 900 :: during) = 1%nat.
Proof.
  split; [reflexivity |].
  apply (buffer_is_freed_exactly_once x86_64_build x86_64_build_ok
           (good_firmware (example_header 1000 0)) 101 201 true fresh_volume 900).
  - vm_compute. discriminate.
  - reflexivity.
Defined.

(** X4 when decrypting the small volume. *)
Lemma transfers_go_one_way_witness :
  build_ok x86_64_build /\
  exists new,
    trace (world_of (do_encrypt_decrypt_media x86_64_build
                       (good_firmware (example_header 160 160))
                       101 201 false small_encrypted_volume))
    = new ++ trace small_encrypted_volume /\
    Forall (one_way (good_firmware (example_header 160 160)) 101 201) new.
Proof.
  split; [exact x86_64_build_ok |].
  exact (transfers_go_one_way x86_64_build x86_64_build_ok
           (good_firmware (example_header 160 160)) 101 201 false
           small_encrypted_volume).
Defined.

(** X5 with a device whose reads fail. *)
Lemma every_write_repeats_its_read_witness :
  build_ok x86_64_build /\
  exists new,
    trace (world_of (do_encrypt_decrypt_media x86_64_build
                       (failing_read_firmware (example_header 1000 0))
                       101 201 true fresh_volume))
    = new ++ trace fresh_volume /\
    well_paired x86_64_build (transfers new).
Proof.
  split; [exact x86_64_build_ok |].
  exact (every_write_repeats_its_read x86_64_build x86_64_build_ok
           (failing_read_firmware (example_header 1000 0)) 101 201 true
           fresh_volume).
Defined.

(** X6 on the fresh volume of 1000 sectors. *)
Lemma encrypt_stays_in_unencrypted_area_witness :
  ~ 0 < sectorsInVolume x86_64_build (crypto_info fresh_volume)
        - numberEncryptedSectors x86_64_build (crypto_info fresh_volume)
      < CS_SERVICE_NUMBER_SECTORS x86_64_build /\
  exists new,
    trace (world_of (do_encrypt_decrypt_media x86_64_build
                       (good_firmware (example_header 1000 0))
                       101 201 true fresh_volume))
    = new ++ trace fresh_volume /\
    Forall (transfer_within x86_64_build
              (numberEncryptedSectors x86_64_build (crypto_info fresh_volume))
              (sectorsInVolume x86_64_build (crypto_info fresh_volume))) new.
Proof.
  assert (H : ~ 0 < sectorsInVolume x86_64_build (crypto_info fresh_volume)
                    - numberEncryptedSectors x86_64_build (crypto_info fresh_volume)
                  < CS_SERVICE_NUMBER_SECTORS x86_64_build)
    by (vm_compute; intros [_ H]; discriminate H).
  split; [exact H |].
  exact (encrypt_stays_in_unencrypted_area x86_64_build x86_64_build_ok
           (good_firmware (example_header 1000 0)) 101 201 fresh_volume H).
Defined.

(** X7 on the small volume: 160 sectors in two chunks. *)
Lemma encrypt_records_witness :
  do_encrypt_decrypt_media x86_64_build (good_firmware (example_header 160 0))
    101 201 true small_volume
  = Returned EFI_SUCCESS
      (world_of (do_encrypt_decrypt_media x86_64_build
                   (good_firmware (example_header 160 0))
                   101 201 true small_volume)) /\
  exists sizes new,
    sizes <> [] /\ Forall (fits_buffer x86_64_build) sizes /\
    greedy (CS_SERVICE_NUMBER_SECTORS x86_64_build)
      (sectorsInVolume x86_64_build (crypto_info small_volume)
       - numberEncryptedSectors x86_64_build (crypto_info small_volume))
      sizes /\
    numberEncryptedSectors x86_64_build (crypto_info small_volume)
    < numberEncryptedSectors x86_64_build (crypto_info small_volume) + total sizes
    <= sectorsInVolume x86_64_build (crypto_info small_volume) /\
    trace (world_of (do_encrypt_decrypt_media x86_64_build
                       (good_firmware (example_header 160 0))
                       101 201 true small_volume))
    = new ++ trace small_volume /\
    read_requests new
    = chunk_requests x86_64_build
        (ascending (numberEncryptedSectors x86_64_build (crypto_info small_volume))
           sizes) /\
    write_requests new
    = chunk_requests x86_64_build
        (ascending (numberEncryptedSectors x86_64_build (crypto_info small_volume))
           sizes) /\
    crypto_info (world_of (do_encrypt_decrypt_media x86_64_build
                             (good_firmware (example_header 160 0))
                             101 201 true small_volume))
    = set_EncryptedAreaLength
        (UINTN x86_64_build
           (to_bytes x86_64_build
              (numberEncryptedSectors x86_64_build (crypto_info small_volume)
               + total sizes)))
        (crypto_info small_volume).
Proof.
  assert (Hrun :
    do_encrypt_decrypt_media x86_64_build (good_firmware (example_header 160 0))
      101 201 true small_volume
    = Returned EFI_SUCCESS
        (world_of (do_encrypt_decrypt_media x86_64_build
                     (good_firmware (example_header 160 0))
                     101 201 true small_volume)))
    by (vm_compute; reflexivity).
  split; [exact Hrun |].
  assert (Hb : 0 <= 0 <= 160) by lia.
  apply (encrypt_records_what_it_converted x86_64_build x86_64_build_ok
           (good_firmware (example_header 160 0)) 101 201 small_volume _
           EFI_SUCCESS (proj1 (example_header_wf 160 0 Hb eq_refl))).
  - vm_compute. intros [_ H]. discriminate H.
  - exact Hrun.
  - reflexivity.
Defined.

(** X8 on the small encrypted volume. *)
Lemma decrypt_stays_in_encrypted_area_witness :
  build_ok x86_64_build /\
  exists new,
    trace (world_of (do_encrypt_decrypt_media x86_64_build
                       (good_firmware (example_header 160 160))
                       101 201 false small_encrypted_volume))
    = new ++ trace small_encrypted_volume /\
    Forall (transfer_within x86_64_build 0
              (numberEncryptedSectors x86_64_build
                 (crypto_info small_encrypted_volume))) new.
Proof.
  split; [exact x86_64_build_ok |].
  exact (decrypt_stays_in_encrypted_area x86_64_build x86_64_build_ok
           (good_firmware (example_header 160 160)) 101 201
           small_encrypted_volume).
Defined.

(** X9 on the small encrypted volume. *)
Lemma decrypt_records_witness :
  do_encrypt_decrypt_media x86_64_build (good_firmware (example_header 160 160))
    101 201 false small_encrypted_volume
  = Returned EFI_SUCCESS
      (world_of (do_encrypt_decrypt_media x86_64_build
                   (good_firmware (example_header 160 160))
                   101 201 false small_encrypted_volume)) /\
  exists sizes new,
    sizes <> [] /\ Forall (fits_buffer x86_64_build) sizes /\
    greedy (CS_SERVICE_NUMBER_SECTORS x86_64_build)
      (numberEncryptedSectors x86_64_build (crypto_info small_encrypted_volume))
      sizes /\
    0 <= numberEncryptedSectors x86_64_build (crypto_info small_encrypted_volume)
         - total sizes
      < numberEncryptedSectors x86_64_build (crypto_info small_encrypted_volume) /\
    trace (world_of (do_encrypt_decrypt_media x86_64_build
                       (good_firmware (example_header 160 160))
                       101 201 false small_encrypted_volume))
    = new ++ trace small_encrypted_volume /\
    read_requests new
    = chunk_requests x86_64_build
        (descending
           (numberEncryptedSectors x86_64_build
              (crypto_info small_encrypted_volume)) sizes) /\
    write_requests new
    = chunk_requests x86_64_build
        (descending
           (numberEncryptedSectors x86_64_build
              (crypto_info small_encrypted_volume)) sizes) /\
    crypto_info (world_of (do_encrypt_decrypt_media x86_64_build
                             (good_firmware (example_header 160 160))
                             101 201 false small_encrypted_volume))
    = set_EncryptedAreaLength
        (UINTN x86_64_build
           (to_bytes x86_64_build
              (numberEncryptedSectors x86_64_build
                 (crypto_info small_encrypted_volume) - total sizes)))
        (crypto_info small_encrypted_volume).
Proof.
  assert (Hrun :
    do_encrypt_decrypt_media x86_64_build (good_firmware (example_header 160 160))
      101 201 false small_encrypted_volume
    = Returned EFI_SUCCESS
        (world_of (do_encrypt_decrypt_media x86_64_build
                     (good_firmware (example_header 160 160))
                     101 201 false small_encrypted_volume)))
    by (vm_compute; reflexivity).
  split; [exact Hrun |].
  assert (Hb : 0 <= 160 <= 160) by lia.
  apply (decrypt_records_what_it_converted x86_64_build x86_64_build_ok
           (good_firmware (example_header 160 160)) 101 201
           small_encrypted_volume _ EFI_SUCCESS
           (proj1 (example_header_wf 160 160 Hb eq_refl))).
  - exact Hrun.
  - reflexivity.
Defined.

(** X10 on a volume of 1000 sectors of which 960 are encrypted: the read
    asks for sectors 960 to 1039. *)
Lemma encrypt_first_chunk_witness :
  0 < sectorsInVolume x86_64_build (crypto_info nearly_done_volume)
      - numberEncryptedSectors x86_64_build (crypto_info nearly_done_volume)
    < CS_SERVICE_NUMBER_SECTORS x86_64_build /\
  exists later st,
    trace (world_of (do_encrypt_decrypt_media x86_64_build
                       (good_firmware (example_header 1000 960))
                       101 201 true nearly_done_volume))
    = later
      ++ EvReadBlocks 201 (fw_MediaId (good_firmware (example_header 1000 960)) 201)
           (numberEncryptedSectors x86_64_build (crypto_info nearly_done_volume))
           (UINTN x86_64_build
              (to_bytes x86_64_build (CS_SERVICE_NUMBER_SECTORS x86_64_build)))
           st
      :: EvAllocatePool
           (UINTN x86_64_build
              (to_bytes x86_64_build (CS_SERVICE_NUMBER_SECTORS x86_64_build)))
           (Some 900)
      :: EvResetInput :: trace nearly_done_volume /\
    sectorsInVolume x86_64_build (crypto_info nearly_done_volume)
    < numberEncryptedSectors x86_64_build (crypto_info nearly_done_volume)
      + CS_SERVICE_NUMBER_SECTORS x86_64_build.
Proof.
  assert (H : 0 < sectorsInVolume x86_64_build (crypto_info nearly_done_volume)
                  - numberEncryptedSectors x86_64_build
                      (crypto_info nearly_done_volume)
                < CS_SERVICE_NUMBER_SECTORS x86_64_build)
    by (vm_compute; split; reflexivity).
  split; [exact H |].
  exact (encrypt_first_chunk_ignores_volume_end x86_64_build x86_64_build_ok
           (good_firmware (example_header 1000 960)) 101 201
           nearly_done_volume 900 H eq_refl).
Defined.

(** X11 when the third poll finds the ESC key. *)
Lemma progress_display_witness :
  sectorsInVolume x86_64_build (crypto_info fresh_volume) < 2 ^ 32 /\
  exists new,
    trace (world_of (do_encrypt_decrypt_media x86_64_build
                       (third_poll_firmware (example_header 1000 0))
                       101 201 true fresh_volume))
    = new ++ trace fresh_volume /\
    Forall progress_in_range new.
Proof.
  assert (H : sectorsInVolume x86_64_build (crypto_info fresh_volume)
              < 2 ^ 32) by (vm_compute; reflexivity).
  split; [exact H |].
  apply (progress_display_is_per_mille x86_64_build x86_64_build_ok
           (third_poll_firmware (example_header 1000 0)) 101 201 true
           fresh_volume H).
  intros _. vm_compute. intros [_ H']. discriminate H'.
Defined.

(** X12: sector 80 of the volume, which starts at sector 2048 of the disk. *)
Lemma update_blocks_in_range_witness :
  to_sectors x86_64_build (EncryptedAreaStart (crypto_info fresh_volume))
  <= 2128
  <= to_sectors x86_64_build (EncryptedAreaStart (crypto_info fresh_volume))
     + sectorsInVolume x86_64_build (crypto_info fresh_volume) /\
  update_blocks_in_volume_header x86_64_build
    (good_firmware (example_header 1000 0)) 2128 true fresh_volume
  = Returned EFI_SUCCESS
      {| crypto_info := example_header 1000 80;
         trace := [EvUpdateVolumeHeader (example_header 1000 80) EFI_SUCCESS;
                   EvUpdateBlocksInVolumeHeader 2128 (example_header 1000 0)
                     true] |}.
Proof.
  assert (H : to_sectors x86_64_build
                (EncryptedAreaStart (crypto_info fresh_volume))
              <= 2128
              <= to_sectors x86_64_build
                   (EncryptedAreaStart (crypto_info fresh_volume))
                 + sectorsInVolume x86_64_build (crypto_info fresh_volume))
    by (vm_compute; split; discriminate).
  split; [exact H |].
  apply (update_blocks_in_range_sets_length x86_64_build x86_64_build_ok
           (good_firmware (example_header 1000 0)) 2128 true fresh_volume).
  - vm_compute. discriminate.
  - vm_compute. reflexivity.
  - exact H.
Defined.

(** X13 after the same call. *)
Lemma next_run_resumes_witness :
  update_blocks_in_volume_header x86_64_build
    (good_firmware (example_header 1000 0)) 2128 true fresh_volume
  = Returned EFI_SUCCESS
      (world_of (update_blocks_in_volume_header x86_64_build
                   (good_firmware (example_header 1000 0))
                   2128 true fresh_volume)) /\
  numberEncryptedSectors x86_64_build
    (crypto_info (world_of (update_blocks_in_volume_header x86_64_build
                              (good_firmware (example_header 1000 0))
                              2128 true fresh_volume))) = 80 /\
  lba (setup_locals x86_64_build true
         (crypto_info (world_of (update_blocks_in_volume_header x86_64_build
                                   (good_firmware (example_header 1000 0))
                                   2128 true fresh_volume)))) = 80 /\
  numberSectors (setup_locals x86_64_build false
         (crypto_info (world_of (update_blocks_in_volume_header x86_64_build
                                   (good_firmware (example_header 1000 0))
                                   2128 true fresh_volume)))) = 80.
Proof.
  assert (Hrun :
    update_blocks_in_volume_header x86_64_build
      (good_firmware (example_header 1000 0)) 2128 true fresh_volume
    = Returned EFI_SUCCESS
        (world_of (update_blocks_in_volume_header x86_64_build
                     (good_firmware (example_header 1000 0))
                     2128 true fresh_volume)))
    by (vm_compute; reflexivity).
  split; [exact Hrun |].
  apply (next_run_resumes_at_recorded_sector x86_64_build x86_64_build_ok
           (good_firmware (example_header 1000 0)) 2128 true fresh_volume _
           EFI_SUCCESS).
  - vm_compute. discriminate.
  - exact Hrun.
  - reflexivity.
  - vm_compute. reflexivity.
Defined.

(** X14 on the boot partition of the examples. *)
Lemma get_cs_child_null_iff_error_witness :
  build_ok x86_64_build /\
  exists st child w',
    get_cs_child x86_64_build (good_firmware (example_header 1000 0)) 100
      fresh_volume = Returned (st, child) w' /\
    (child = NULL <-> EFI_ERROR x86_64_build st = true) /\
    crypto_info w' = crypto_info fresh_volume.
Proof.
  split; [exact x86_64_build_ok |].
  exact (get_cs_child_null_iff_error x86_64_build x86_64_build_ok
           (good_firmware (example_header 1000 0)) 100 fresh_volume).
Defined.

(** X15 on the boot partition of the examples. *)
Lemma get_cs_child_probes_in_order_witness :
  fw_OpenProtocolInformation (good_firmware (example_header 1000 0))
    (trace fresh_volume) 100 = (EFI_SUCCESS, Some (500, example_entries)) /\
  EFI_ERROR x86_64_build EFI_SUCCESS = false /\
  exists child probes,
    get_cs_child x86_64_build (good_firmware (example_header 1000 0)) 100
      fresh_volume
    = Returned (if child =? NULL then EFI_NO_MEDIA x86_64_build else EFI_SUCCESS,
                child)
        {| crypto_info := crypto_info fresh_volume;
           trace := [EvFreePool 500] ++ probes
                    ++ EvOpenProtocolInformation 100 EFI_SUCCESS
                    :: trace fresh_volume |} /\
    probe_run 100
      (map ControllerHandle (filter is_child_controller example_entries))
      (rev probes) child.
Proof.
  split; [reflexivity |]. split; [reflexivity |].
  exact (get_cs_child_probes_in_order x86_64_build
           (good_firmware (example_header 1000 0)) 100 fresh_volume
           EFI_SUCCESS (Some (500, example_entries)) eq_refl eq_refl).
Defined.

(** X16 with a password that is accepted at once. *)
Lemma wrong_password_notice_witness :
  check_user_password x86_64_build (good_firmware (example_header 1000 0)) 1
    example_options CS_UI_SERVICE_MENU empty_password fresh_volume
  = Returned (EFI_SUCCESS, CS_UI_SERVICE_MENU,
              {| Text := [112; 119; 0]; Length := 2 |})
      (world_of (check_user_password x86_64_build
                   (good_firmware (example_header 1000 0)) 1
                   example_options CS_UI_SERVICE_MENU empty_password
                   fresh_volume)) /\
  exists new,
    trace (world_of (check_user_password x86_64_build
                       (good_firmware (example_header 1000 0)) 1
                       example_options CS_UI_SERVICE_MENU empty_password
                       fresh_volume))
    = new ++ trace fresh_volume /\
    ((exists st0, new = [EvOutputString STR_CRLF_LF_SPACE st0] /\
                  EFI_ERROR x86_64_build st0 = true) \/
     prompts new = false :: repeat true (count (is_denied x86_64_build) new)).
Proof.
  assert (Hrun :
    check_user_password x86_64_build (good_firmware (example_header 1000 0)) 1
      example_options CS_UI_SERVICE_MENU empty_password fresh_volume
    = Returned (EFI_SUCCESS, CS_UI_SERVICE_MENU,
                {| Text := [112; 119; 0]; Length := 2 |})
        (world_of (check_user_password x86_64_build
                     (good_firmware (example_header 1000 0)) 1
                     example_options CS_UI_SERVICE_MENU empty_password
                     fresh_volume)))
    by (vm_compute; reflexivity).
  split; [exact Hrun |].
  exact (wrong_password_notice_from_second_prompt x86_64_build
           (good_firmware (example_header 1000 0)) 1 example_options
           CS_UI_SERVICE_MENU CS_UI_SERVICE_MENU empty_password _ fresh_volume
           _ EFI_SUCCESS Hrun).
Defined.

(** X17 with the escape key at the first prompt. *)
Lemma check_user_password_exit_witness :
  check_user_password x86_64_build (escape_firmware (example_header 1000 0)) 1
    example_options CS_UI_SERVICE_MENU empty_password fresh_volume
  = Returned (EFI_SUCCESS, CS_UI_ESC_PRESSED,
              {| Text := [112; 119; 0]; Length := 0 |})
      (world_of (check_user_password x86_64_build
                   (escape_firmware (example_header 1000 0)) 1
                   example_options CS_UI_SERVICE_MENU empty_password
                   fresh_volume)) /\
  exists new,
    trace (world_of (check_user_password x86_64_build
                       (escape_firmware (example_header 1000 0)) 1
                       example_options CS_UI_SERVICE_MENU empty_password
                       fresh_volume))
    = new ++ trace fresh_volume /\
    password_exit x86_64_build CS_UI_SERVICE_MENU EFI_SUCCESS CS_UI_ESC_PRESSED
      {| Text := [112; 119; 0]; Length := 0 |} new /\
    Forall (denied_attempt x86_64_build) (tl new).
Proof.
  assert (Hrun :
    check_user_password x86_64_build (escape_firmware (example_header 1000 0)) 1
      example_options CS_UI_SERVICE_MENU empty_password fresh_volume
    = Returned (EFI_SUCCESS, CS_UI_ESC_PRESSED,
                {| Text := [112; 119; 0]; Length := 0 |})
        (world_of (check_user_password x86_64_build
                     (escape_firmware (example_header 1000 0)) 1
                     example_options CS_UI_SERVICE_MENU empty_password
                     fresh_volume)))
    by (vm_compute; reflexivity).
  split; [exact Hrun |].
  exact (check_user_password_exit x86_64_build
           (escape_firmware (example_header 1000 0)) 1 example_options
           CS_UI_SERVICE_MENU CS_UI_ESC_PRESSED empty_password _ fresh_volume
           _ EFI_SUCCESS Hrun).
Defined.

(** X18 with a password that is accepted at once. *)
Lemma check_user_password_follows_options_witness :
  check_user_password x86_64_build (good_firmware (example_header 1000 0)) 1
    example_options CS_UI_SERVICE_MENU empty_password fresh_volume
  = Returned (EFI_SUCCESS, CS_UI_SERVICE_MENU,
              {| Text := [112; 119; 0]; Length := 2 |})
      (world_of (check_user_password x86_64_build
                   (good_firmware (example_header 1000 0)) 1
                   example_options CS_UI_SERVICE_MENU empty_password
                   fresh_volume)) /\
  exists new,
    trace (world_of (check_user_password x86_64_build
                       (good_firmware (example_header 1000 0)) 1
                       example_options CS_UI_SERVICE_MENU empty_password
                       fresh_volume))
    = new ++ trace fresh_volume /\
    Forall (fun e => is_password_event e = true) new /\
    Forall (honours example_options) new.
Proof.
  assert (Hrun :
    check_user_password x86_64_build (good_firmware (example_header 1000 0)) 1
      example_options CS_UI_SERVICE_MENU empty_password fresh_volume
    = Returned (EFI_SUCCESS, CS_UI_SERVICE_MENU,
                {| Text := [112; 119; 0]; Length := 2 |})
        (world_of (check_user_password x86_64_build
                     (good_firmware (example_header 1000 0)) 1
                     example_options CS_UI_SERVICE_MENU empty_password
                     fresh_volume)))
    by (vm_compute; reflexivity).
  split; [exact Hrun |].
  exact (check_user_password_follows_options x86_64_build
           (good_firmware (example_header 1000 0)) 1 example_options
           CS_UI_SERVICE_MENU CS_UI_SERVICE_MENU empty_password _ fresh_volume
           _ EFI_SUCCESS Hrun).
Defined.

(** X19 with the escape key at the first prompt. *)
Lemma disk_is_untouched_witness :
  encrypt_decrypt_media x86_64_build (escape_firmware (example_header 1000 0))
    1 1 example_options true empty_password fresh_volume
  = Returned (EFI_SUCCESS, CS_UI_SERVICE_MENU,
              {| Text := [112; 119; 0]; Length := 0 |})
      (world_of (encrypt_decrypt_media x86_64_build
                   (escape_firmware (example_header 1000 0))
                   1 1 example_options true empty_password fresh_volume)) /\
  (CS_UI_SERVICE_MENU = CS_UI_REBOOT \/
   (CS_UI_SERVICE_MENU = CS_UI_SERVICE_MENU /\
    exists new,
      trace (world_of (encrypt_decrypt_media x86_64_build
                         (escape_firmware (example_header 1000 0))
                         1 1 example_options true empty_password fresh_volume))
      = new ++ trace fresh_volume /\
      Forall (fun e => is_conversion_event e = false) new)).
Proof.
  assert (Hrun :
    encrypt_decrypt_media x86_64_build (escape_firmware (example_header 1000 0))
      1 1 example_options true empty_password fresh_volume
    = Returned (EFI_SUCCESS, CS_UI_SERVICE_MENU,
                {| Text := [112; 119; 0]; Length := 0 |})
        (world_of (encrypt_decrypt_media x86_64_build
                     (escape_firmware (example_header 1000 0))
                     1 1 example_options true empty_password fresh_volume)))
    by (vm_compute; reflexivity).
  split; [exact Hrun |].
  exact (disk_is_untouched_unless_reboot x86_64_build x86_64_build_ok
           (escape_firmware (example_header 1000 0)) 1 1 example_options true
           empty_password _ fresh_volume _ EFI_SUCCESS CS_UI_SERVICE_MENU Hrun).
Defined.

(** X20 on a session that converts the small volume. *)
Lemma no_interface_is_left_open_witness :
  encrypt_decrypt_media x86_64_build (good_firmware (example_header 160 0))
    1 1 example_options true empty_password small_volume
  = Returned (EFI_SUCCESS, CS_UI_REBOOT,
              {| Text := [112; 119; 0]; Length := 2 |})
      (world_of (encrypt_decrypt_media x86_64_build
                   (good_firmware (example_header 160 0))
                   1 1 example_options true empty_password small_volume)) /\
  exists new,
    trace (world_of (encrypt_decrypt_media x86_64_build
                       (good_firmware (example_header 160 0))
                       1 1 example_options true empty_password small_volume))
    = new ++ trace small_volume /\
    outstanding x86_64_build (rev new) [] = [].
Proof.
  assert (Hrun :
    encrypt_decrypt_media x86_64_build (good_firmware (example_header 160 0))
      1 1 example_options true empty_password small_volume
    = Returned (EFI_SUCCESS, CS_UI_REBOOT,
                {| Text := [112; 119; 0]; Length := 2 |})
        (world_of (encrypt_decrypt_media x86_64_build
                     (good_firmware (example_header 160 0))
                     1 1 example_options true empty_password small_volume)))
    by (vm_compute; reflexivity).
  split; [exact Hrun |].
  exact (no_interface_is_left_open x86_64_build x86_64_build_ok
           (good_firmware (example_header 160 0)) 1 1 example_options true
           empty_password _ small_volume _ EFI_SUCCESS CS_UI_REBOOT Hrun).
Defined.

(** X21 on the same session. *)
Lemma reboot_follows_the_conversion_witness :
  encrypt_decrypt_media x86_64_build (good_firmware (example_header 160 0))
    1 1 example_options true empty_password small_volume
  = Returned (EFI_SUCCESS, CS_UI_REBOOT,
              {| Text := [112; 119; 0]; Length := 2 |})
      (world_of (encrypt_decrypt_media x86_64_build
                   (good_firmware (example_header 160 0))
                   1 1 example_options true empty_password small_volume)) /\
  exists hp stp iop hc stc ioc earlier feed st1 st2 wa wb,
    EFI_ERROR x86_64_build stp = false /\ EFI_ERROR x86_64_build stc = false /\
    Forall (fun e => is_preparation_event e = true) earlier /\
    ((silent example_options = true /\ feed = []) \/
     (silent example_options = false /\
      exists x, feed = [EvOutputString STR_CRLF_LF x])) /\
    trace wa = feed ++ EvOpenProtocol hc stc ioc
               :: EvOpenProtocol hp stp iop :: earlier ++ trace small_volume /\
    do_encrypt_decrypt_media x86_64_build (good_firmware (example_header 160 0))
      iop ioc true wa = Returned EFI_SUCCESS wb /\
    world_of (encrypt_decrypt_media x86_64_build
                (good_firmware (example_header 160 0))
                1 1 example_options true empty_password small_volume)
    = log (EvCloseProtocol hc st2) (log (EvCloseProtocol hp st1) wb).
Proof.
  assert (Hrun :
    encrypt_decrypt_media x86_64_build (good_firmware (example_header 160 0))
      1 1 example_options true empty_password small_volume
    = Returned (EFI_SUCCESS, CS_UI_REBOOT,
                {| Text := [112; 119; 0]; Length := 2 |})
        (world_of (encrypt_decrypt_media x86_64_build
                     (good_firmware (example_header 160 0))
                     1 1 example_options true empty_password small_volume)))
    by (vm_compute; reflexivity).
  split; [exact Hrun |].
  exact (reboot_follows_the_conversion x86_64_build x86_64_build_ok
           (good_firmware (example_header 160 0)) 1 1 example_options true
           empty_password _ small_volume _ EFI_SUCCESS Hrun).
Defined.

(** X22 with a user who declines. *)
Lemma declined_confirmation_witness :
  check_user_password x86_64_build (declining_firmware (example_header 1000 0))
    1 example_options CS_UI_SERVICE_MENU empty_password fresh_volume
  = Returned (EFI_SUCCESS, CS_UI_SERVICE_MENU,
              {| Text := [112; 119; 0]; Length := 2 |})
      (world_of (check_user_password x86_64_build
                   (declining_firmware (example_header 1000 0)) 1
                   example_options CS_UI_SERVICE_MENU empty_password
                   fresh_volume)) /\
  encrypt_decrypt_media x86_64_build (declining_firmware (example_header 1000 0))
    1 1 example_options true empty_password fresh_volume
  = Returned (EFI_SUCCESS, CS_UI_SERVICE_MENU,
              {| Text := [112; 119; 0]; Length := 2 |})
      (log (EvCheckReallyDo false)
         (world_of (check_user_password x86_64_build
                      (declining_firmware (example_header 1000 0)) 1
                      example_options CS_UI_SERVICE_MENU empty_password
                      fresh_volume))).
Proof.
  assert (Hrun :
    check_user_password x86_64_build (declining_firmware (example_header 1000 0))
      1 example_options CS_UI_SERVICE_MENU empty_password fresh_volume
    = Returned (EFI_SUCCESS, CS_UI_SERVICE_MENU,
                {| Text := [112; 119; 0]; Length := 2 |})
        (world_of (check_user_password x86_64_build
                     (declining_firmware (example_header 1000 0)) 1
                     example_options CS_UI_SERVICE_MENU empty_password
                     fresh_volume)))
    by (vm_compute; reflexivity).
  split; [exact Hrun |].
  apply (declined_confirmation_returns_to_menu x86_64_build
           (declining_firmware (example_header 1000 0)) 1 1 example_options true
           empty_password _ fresh_volume _ EFI_SUCCESS CS_UI_SERVICE_MENU Hrun).
  - reflexivity.
  - discriminate.
  - reflexivity.
Defined.

(** X23 on the small volume, in both directions. *)
Lemma uninterrupted_run_witness :
  wf_header (crypto_info small_volume) /\
  exists w',
    do_encrypt_decrypt_media x86_64_build (good_firmware (example_header 160 0))
      101 201 true small_volume = Returned EFI_SUCCESS w' /\
    crypto_info w'
    = set_EncryptedAreaLength
        (UINTN x86_64_build
           (to_bytes x86_64_build
              (sectorsInVolume x86_64_build (crypto_info small_volume))))
        (crypto_info small_volume).
Proof.
  assert (Hb : 0 <= 0 <= 160) by lia.
  pose proof (proj1 (example_header_wf 160 0 Hb eq_refl)) as Hwf.
  split; [exact Hwf |].
  apply (uninterrupted_run_converts_everything x86_64_build x86_64_build_ok
           eq_refl (good_firmware (example_header 160 0))
           (fun _ _ _ _ _ => eq_refl) (fun _ _ _ _ _ => eq_refl)
           (fun _ => eq_refl) 900 (fun _ _ => eq_refl) (fun _ _ => eq_refl)
           101 201 true small_volume Hwf).
  - vm_compute. discriminate.
  - vm_compute. reflexivity.
  - intros _. vm_compute. discriminate.
  - vm_compute. reflexivity.
Defined.

(** X24: an encryption of 1000 sectors stopped after three chunks is taken
    up at sector 240. *)
Lemma resumed_encryption_witness :
  do_encrypt_decrypt_media x86_64_build
    (third_poll_firmware (example_header 1000 0)) 101 201 true fresh_volume
  = Returned EFI_SUCCESS stopped_encryption /\
  exists sizes new,
    trace stopped_encryption = new ++ trace fresh_volume /\
    write_requests new
    = chunk_requests x86_64_build
        (ascending (numberEncryptedSectors x86_64_build (crypto_info fresh_volume))
           sizes) /\
    let d := numberEncryptedSectors x86_64_build (crypto_info fresh_volume)
             + total sizes in
    numberEncryptedSectors x86_64_build (crypto_info fresh_volume) < d
    <= sectorsInVolume x86_64_build (crypto_info fresh_volume) /\
    numberEncryptedSectors x86_64_build (crypto_info stopped_encryption) = d /\
    (d < sectorsInVolume x86_64_build (crypto_info fresh_volume) ->
     exists later st',
       trace (world_of (do_encrypt_decrypt_media x86_64_build
                          (third_poll_firmware (example_header 1000 0))
                          101 201 true stopped_encryption))
       = later
         ++ EvReadBlocks 201
              (fw_MediaId (third_poll_firmware (example_header 1000 0)) 201) d
              (UINTN x86_64_build
                 (to_bytes x86_64_build (CS_SERVICE_NUMBER_SECTORS x86_64_build)))
              st'
         :: EvAllocatePool
              (UINTN x86_64_build
                 (to_bytes x86_64_build (CS_SERVICE_NUMBER_SECTORS x86_64_build)))
              (Some 900)
         :: EvResetInput :: trace stopped_encryption).
Proof.
  assert (Hrun :
    do_encrypt_decrypt_media x86_64_build
      (third_poll_firmware (example_header 1000 0)) 101 201 true fresh_volume
    = Returned EFI_SUCCESS stopped_encryption) by (vm_compute; reflexivity).
  split; [exact Hrun |].
  assert (Hb : 0 <= 0 <= 1000) by lia.
  apply (resumed_encryption_continues_where_it_stopped x86_64_build
           x86_64_build_ok eq_refl (third_poll_firmware (example_header 1000 0))
           101 201 fresh_volume stopped_encryption EFI_SUCCESS 900
           (proj1 (example_header_wf 1000 0 Hb eq_refl))).
  - vm_compute. intros [_ H]. discriminate H.
  - exact Hrun.
  - reflexivity.
  - reflexivity.
Defined.

(** X25: a decryption of 1000 sectors stopped after three chunks is taken
    up with the chunk that ends at sector 760. *)
Lemma resumed_decryption_witness :
  do_encrypt_decrypt_media x86_64_build
    (third_poll_firmware (example_header 1000 1000)) 101 201 false
    encrypted_volume
  = Returned EFI_SUCCESS stopped_decryption /\
  exists sizes new,
    trace stopped_decryption = new ++ trace encrypted_volume /\
    write_requests new
    = chunk_requests x86_64_build
        (descending
           (numberEncryptedSectors x86_64_build (crypto_info encrypted_volume))
           sizes) /\
    let d := numberEncryptedSectors x86_64_build (crypto_info encrypted_volume)
             - total sizes in
    let chunk := Z.min d (CS_SERVICE_NUMBER_SECTORS x86_64_build) in
    0 <= d < numberEncryptedSectors x86_64_build (crypto_info encrypted_volume) /\
    numberEncryptedSectors x86_64_build (crypto_info stopped_decryption) = d /\
    (0 < d ->
     exists later st',
       trace (world_of (do_encrypt_decrypt_media x86_64_build
                          (third_poll_firmware (example_header 1000 1000))
                          101 201 false stopped_decryption))
       = later
         ++ EvReadBlocks 101
              (fw_MediaId (third_poll_firmware (example_header 1000 1000)) 101)
              (d - chunk) (UINTN x86_64_build (to_bytes x86_64_build chunk)) st'
         :: EvAllocatePool
              (UINTN x86_64_build
                 (to_bytes x86_64_build (CS_SERVICE_NUMBER_SECTORS x86_64_build)))
              (Some 900)
         :: EvResetInput :: trace stopped_decryption).
Proof.
  assert (Hrun :
    do_encrypt_decrypt_media x86_64_build
      (third_poll_firmware (example_header 1000 1000)) 101 201 false
      encrypted_volume
    = Returned EFI_SUCCESS stopped_decryption) by (vm_compute; reflexivity).
  split; [exact Hrun |].
  assert (Hb : 0 <= 1000 <= 1000) by lia.
  apply (resumed_decryption_continues_where_it_stopped x86_64_build
           x86_64_build_ok eq_refl
           (third_poll_firmware (example_header 1000 1000))
           101 201 encrypted_volume stopped_decryption EFI_SUCCESS 900
           (proj1 (example_header_wf 1000 1000 Hb eq_refl))).
  - exact Hrun.
  - reflexivity.
  - reflexivity.
Defined.
